(** * A verified model of the data cleaning and transformation pipeline

  The development embeds [to_snake_case], [clean_dataset] and
  [apply_transformations] of [data_ai_automator.py].  The functions are
  written against pandas; the frame operations they call are modelled
  here as well, at the level of detail the pipeline observes.  Around
  these stages the development embeds [detect_file_type] with
  [os.path.splitext], the loader, the chart, the AI report, the PDF
  export, [run_full_pipeline], the menu and [main], against any
  behaviour of the libraries they call.

  Conventions of the model:
  - a Python [str] is a [string] whose characters are the code points
    0..255;
  - a number is an exact rational ([Qc]); NaN, None and NaT are the
    single value Missing;
  - a column carries its dtype: numeric, object holding text, or
    datetime64 (nanoseconds since the epoch). *)

From Stdlib Require Import QArith Qcanon Lqa Ascii String.
From stdpp Require Import base decidable option list sorting numbers strings gmap pretty.

Local Open Scope bool_scope.

(** ** Text *)

Module Text.

Definition code (c : ascii) : N := N_of_ascii c.

Definition between (lo hi : N) (c : ascii) : bool :=
  ((lo <=? code c) && (code c <=? hi))%N.

(** [str.isspace] and the regex class [\s] agree on these code points. *)
Definition is_space (c : ascii) : bool :=
  between 9 13 c || between 28 32 c || (code c =? 133)%N || (code c =? 160)%N.

Definition is_hyphen (c : ascii) : bool := (code c =? 45)%N.
Definition is_underscore (c : ascii) : bool := (code c =? 95)%N.
Definition is_digit (c : ascii) : bool := between 48 57 c.
Definition is_upper (c : ascii) : bool := between 65 90 c.
Definition is_lower (c : ascii) : bool := between 97 122 c.

(** The class [[0-9a-zA-Z_]]. *)
Definition is_word (c : ascii) : bool :=
  is_digit c || is_lower c || is_upper c || is_underscore c.

(** [str.lower] on one code point below 256. *)
Definition lower_char (c : ascii) : ascii :=
  if is_upper c || between 192 214 c || between 216 222 c
  then ascii_of_N (code c + 32)
  else c.

Definition underscore : ascii := ascii_of_N 95.

Fixpoint drop_while (p : ascii -> bool) (l : list ascii) : list ascii :=
  match l with
  | [] => []
  | c :: r => if p c then drop_while p r else l
  end.

(** [str.strip()] *)
Definition strip (l : list ascii) : list ascii :=
  rev (drop_while is_space (rev (drop_while is_space l))).

(** [re.sub("[cls]+", repl, s)]: the scanner copies characters until a
    character of the class starts a match, emits the replacement once,
    and consumes the rest of the (greedy) match. *)
Fixpoint re_sub_scan (cls : ascii -> bool) (repl : list ascii)
    (in_match : bool) (l : list ascii) : list ascii :=
  match l with
  | [] => []
  | c :: r =>
      if cls c then
        if in_match then re_sub_scan cls repl true r
        else repl ++ re_sub_scan cls repl true r
      else c :: re_sub_scan cls repl false r
  end.

Definition re_sub (cls : ascii -> bool) (repl l : list ascii) : list ascii :=
  re_sub_scan cls repl false l.

Definition lower (l : list ascii) : list ascii := map lower_char l.

Definition to_snake_case_chars (name : list ascii) : list ascii :=
  let name := strip name in
  let name := re_sub (fun c => is_space c || is_hyphen c) [underscore] name in
  let name := re_sub (fun c => negb (is_word c)) [] name in
  let name := re_sub is_underscore [underscore] name in
  lower name.

Definition to_snake_case (name : string) : string :=
  string_of_list_ascii (to_snake_case_chars (list_ascii_of_string name)).

Definition str_lower (s : string) : string :=
  string_of_list_ascii (lower (list_ascii_of_string s)).

(** The normalizer as the specification words it. *)

(** Trailing characters satisfying [p] are dropped from the right end. *)
Definition drop_while_end (p : ascii -> bool) (l : list ascii) : list ascii :=
  foldr (fun c acc => match acc with
                      | [] => if p c then [] else [c]
                      | _ => c :: acc
                      end) [] l.

Definition trim (l : list ascii) : list ascii :=
  drop_while_end is_space (drop_while is_space l).

(** Every maximal run of characters satisfying [p] becomes the single
    character [r]; the character is written where the run ends. *)
Fixpoint squash_runs (p : ascii -> bool) (r : ascii) (l : list ascii)
    : list ascii :=
  match l with
  | [] => []
  | c :: l' =>
      if p c then
        match l' with
        | c' :: _ => if p c' then squash_runs p r l' else r :: squash_runs p r l'
        | [] => [r]
        end
      else c :: squash_runs p r l'
  end.

Definition normalize_chars (label : list ascii) : list ascii :=
  map lower_char
    (squash_runs is_underscore underscore
       (filter (fun c => is_word c = true)
          (squash_runs (fun c => is_space c || is_hyphen c) underscore
             (trim label)))).

Definition normalize (label : string) : string :=
  string_of_list_ascii (normalize_chars (list_ascii_of_string label)).

(** Python compares [str] values by code point, lexicographically. *)
Definition str_le (a b : string) : Prop := String.leb a b = true.

#[global] Instance str_le_dec : RelDecision str_le :=
  fun a b => decide (String.leb a b = true).

(** [needle in hay] *)
Fixpoint contains (needle hay : string) : bool :=
  String.prefix needle hay
  || match hay with
     | EmptyString => false
     | String _ rest => contains needle rest
     end.

End Text.

(** ** Frames *)

Module Frame.

Inductive exn := KeyError | TypeError | ValueError | IndexError.

Inductive result (A : Type) :=
| Ok (a : A)
| Raise (e : exn).
Arguments Ok {A} a.
Arguments Raise {A} e.

#[global] Instance exn_eq_dec : EqDecision exn.
Proof. solve_decision. Defined.
#[global] Instance result_eq_dec {A} `{EqDecision A} : EqDecision (result A).
Proof. solve_decision. Defined.

#[global] Instance result_ret : MRet result := fun A a => Ok a.
#[global] Instance result_bind : MBind result := fun A B f m =>
  match m with
  | Ok a => f a
  | Raise e => Raise e
  end.

(** A column with its dtype.  [None] is NaN in a numeric column, None or
    NaN in an object column and NaT in a datetime column. *)
Inductive series :=
| Numeric (xs : list (option Qc))
| Textual (xs : list (option string))
| Temporal (xs : list (option Z)).

Inductive cell :=
| Num (q : Qc)
| Text (s : string)
| Stamp (t : Z)
| Missing.

#[global] Instance series_eq_dec : EqDecision series.
Proof. solve_decision. Defined.
#[global] Instance cell_eq_dec : EqDecision cell.
Proof. solve_decision. Defined.

Definition cells (s : series) : list cell :=
  match s with
  | Numeric xs => from_option Num Missing <$> xs
  | Textual xs => from_option Text Missing <$> xs
  | Temporal xs => from_option Stamp Missing <$> xs
  end.

Definition size (s : series) : nat := length (cells s).

(** A positional operation on rows, applied to a column of any dtype. *)
Definition on_rows (f : forall A, list A -> list A) (s : series) : series :=
  match s with
  | Numeric xs => Numeric (f _ xs)
  | Textual xs => Textual (f _ xs)
  | Temporal xs => Temporal (f _ xs)
  end.

(** A DataFrame: its number of rows (the length of the index) and its
    labelled columns in order.  Labels may repeat. *)
Record table := Table { nrows : nat; columns : list (string * series) }.

#[global] Instance table_eq_dec : EqDecision table.
Proof. solve_decision. Defined.

Definition names (df : table) : list string := fst <$> columns df.

Definition map_rows (f : forall A, list A -> list A) (df : table) : table :=
  {| nrows := length (f unit (replicate (nrows df) tt));
     columns := prod_map id (on_rows f) <$> columns df |}.

(** Boolean indexing [df[mask]] and positional [take]. *)
Fixpoint keep {A} (mask : list bool) (l : list A) : list A :=
  match mask, l with
  | b :: m, x :: r => if b then x :: keep m r else keep m r
  | _, _ => []
  end.

Definition take_rows {A} (idx : list nat) (l : list A) : list A :=
  omap (fun i => l !! i) idx.

(** [df[c]]: a Series when the label is unique, a DataFrame when it
    repeats. *)
Inductive item :=
| Absent
| Column (s : series)
| Columns (ss : list series).

Definition getitem (df : table) (c : string) : item :=
  match filter (fun p : string * series => p.1 = c) (columns df) with
  | [] => Absent
  | [p] => Column p.2
  | ps => Columns (snd <$> ps)
  end.

(** [df[c] = s]: every column labelled [c] is replaced; a new label is
    appended. *)
Definition setitem (df : table) (c : string) (s : series) : table :=
  if bool_decide (c ∈ names df)
  then {| nrows := nrows df;
          columns := (fun p : string * series =>
                        if bool_decide (p.1 = c) then (c, s) else p)
                     <$> columns df |}
  else {| nrows := nrows df; columns := columns df ++ [(c, s)] |}.

Definition row (df : table) (i : nat) : list cell :=
  (fun p : string * series => default Missing (cells p.2 !! i)) <$> columns df.

Definition rows (df : table) : list (list cell) :=
  row df <$> seq 0 (nrows df).

(** [df.duplicated()]: a row is marked when an equal row precedes it. *)
Fixpoint duplicated_from (seen rs : list (list cell)) : list bool :=
  match rs with
  | [] => []
  | r :: rest => bool_decide (r ∈ seen) :: duplicated_from (r :: seen) rest
  end.

Definition duplicated (df : table) : list bool := duplicated_from [] (rows df).

(** [df.empty] *)
Definition empty (df : table) : bool :=
  bool_decide (nrows df = 0) || bool_decide (columns df = []).

(** [df.drop_duplicates()] returns a copy of an empty frame as it is. *)
Definition drop_duplicates (df : table) : table :=
  if empty df then df
  else map_rows (fun A => keep (negb <$> duplicated df)) df.

Definition present {A} (xs : list (option A)) : list A := omap id xs.

Definition count_na {A} (xs : list (option A)) : nat :=
  length xs - length (present xs).

Definition any_na {A} (xs : list (option A)) : bool :=
  negb (bool_decide (count_na xs = 0)).

(** [s.fillna(v)]; filling with NaN changes nothing. *)
Definition fillna {A} (v : option A) (xs : list (option A)) : list (option A) :=
  match v with
  | Some a => (fun o => Some (default a o)) <$> xs
  | None => xs
  end.

(** [s.median()] skips NaN and is NaN when nothing is left. *)
Definition median (xs : list (option Qc)) : option Qc :=
  let v := merge_sort Qcle (present xs) in
  let n := length v in
  if bool_decide (n = 0) then None
  else if Nat.odd n then v !! (n / 2)
  else
    match v !! (n / 2 - 1), v !! (n / 2) with
    | Some a, Some b => Some ((a + b) / Qc_of_Z 2)%Qc
    | _, _ => None
    end.

Definition occurrences {A} `{EqDecision A} (x : A) (l : list A) : nat :=
  length (filter (fun y => y = x) l).

(** [s.mode(dropna=True)]: the values of highest count, sorted. *)
Definition mode {A} `{EqDecision A} (R : relation A)
    `{forall x y, Decision (R x y)} (xs : list (option A)) : list A :=
  let vals := present xs in
  let top := max_list ((fun v => occurrences v vals) <$> vals) in
  merge_sort R (remove_dups (filter (fun v => occurrences v vals = top) vals)).

(** *** What the pipeline takes from pandas, NumPy and the interpreter

    The sort behind [sort_values] is NumPy's default quicksort, of which
    only the contract is fixed; the iteration order of a [set] of strings
    depends on the hash seed of the process; the parsers of numbers and
    dates are pandas' own.  The pipeline is verified against any
    implementation that meets these contracts. *)
Class Pandas := {
  (** [np.argsort(xs, kind="quicksort")] *)
  argsort : list Qc -> list nat;
  argsort_perm : forall xs, argsort xs ≡ₚ seq 0 (length xs);
  argsort_sorted : forall xs, Sorted Qcle (take_rows (argsort xs) xs);
  (** iteration order of [set(labels)] *)
  set_order : list string -> list string;
  set_order_elem : forall l x, x ∈ set_order l <-> x ∈ l;
  (** [pd.to_numeric] on one string; [None] when it does not parse *)
  to_numeric_str : string -> option Qc;
  (** [pd.to_datetime(s, errors="coerce")] on an object and on a numeric
      column; [None] when the call raises *)
  to_datetime_text : list (option string) -> option (list (option Z));
  to_datetime_text_length : forall xs ys,
    to_datetime_text xs = Some ys -> length ys = length xs;
  to_datetime_num : list (option Qc) -> option (list (option Z));
  to_datetime_num_length : forall xs ys,
    to_datetime_num xs = Some ys -> length ys = length xs
}.

End Frame.

(** ** The cleaner *)

Module Cleaner.
Import Text Frame.

Record ProcessingSummary := Summary {
  rows_before : nat;
  rows_after_cleaning : nat;
  rows_after_transform : nat;
  removed_duplicates : nat;
  filled_missing_numeric : nat;
  filled_missing_text : nat;
  removed_invalid_rows : nat
}.

#[global] Instance summary_eq_dec : EqDecision ProcessingSummary.
Proof. solve_decision. Defined.

(** [for col in cols: body], stopping at the first exception. *)
Fixpoint for_columns {S} (body : string -> S -> result S)
    (cols : list string) (st : S) : result S :=
  match cols with
  | [] => Ok st
  | col :: rest =>
      match body col st with
      | Ok st' => for_columns body rest st'
      | Raise e => Raise e
      end
  end.

(** The fill value of a non-numeric column:
    [mode_series.iloc[0] if not mode_series.empty else "unknown"]. *)
Definition text_fill (xs : list (option string)) : string :=
  default "unknown"%string (head (mode str_le xs)).

(** One round of the imputation loop.  The state is the frame and the two
    counters.  With a repeated label [df[col].isna().any()] is a Series
    and its truth value raises. *)
Definition impute_column (col : string) (st : table * nat * nat)
    : result (table * nat * nat) :=
  let '(df, filled_numeric, filled_text) := st in
  match getitem df col with
  | Column (Numeric xs) =>
      if any_na xs then
        Ok (setitem df col (Numeric (fillna (median xs) xs)),
            filled_numeric + count_na xs, filled_text)
      else Ok st
  | Column (Textual xs) =>
      if any_na xs then
        Ok (setitem df col (Textual (fillna (Some (text_fill xs)) xs)),
            filled_numeric, filled_text + count_na xs)
      else Ok st
  | Column (Temporal xs) =>
      if any_na xs then
        match head (mode Z.le xs) with
        | Some t =>
            Ok (setitem df col (Temporal (fillna (Some t) xs)),
                filled_numeric, filled_text + count_na xs)
        | None =>
            (* no value at all: every cell is NaT and becomes the text *)
            Ok (setitem df col (Textual ((fun _ => Some "unknown"%string) <$> xs)),
                filled_numeric, filled_text + count_na xs)
        end
      else Ok st
  | Columns _ => Raise ValueError
  | Absent => Raise KeyError
  end.

Definition handle_missing (df : table) : result (table * nat * nat) :=
  for_columns impute_column (names df) (df, 0, 0).

Definition is_datelike (col : string) : bool :=
  existsb (fun keyword => contains keyword (str_lower col))
    ["date"; "time"; "timestamp"]%string.

(** [s.astype(str).str.lower()] *)
Definition astype_str_lower (xs : list (option string)) : list (option string) :=
  (fun o => Some (str_lower (default "nan"%string o))) <$> xs.

(** The int64 view of NaT. *)
Definition iNaT : Z := - 2 ^ 63.

Section with_pandas.
Context `{Pandas}.

Definition to_datetime (s : series) : option series :=
  match s with
  | Numeric xs => Temporal <$> to_datetime_num xs
  | Textual xs => Temporal <$> to_datetime_text xs
  | Temporal _ => Some s
  end.

(** [pd.to_numeric(s, errors="coerce")]: a datetime column is viewed as
    its int64 nanoseconds. *)
Definition to_numeric (s : series) : list (option Qc) :=
  match s with
  | Numeric xs => xs
  | Textual xs => (fun o => o ≫= to_numeric_str) <$> xs
  | Temporal xs => (fun o => Some (Qc_of_Z (default iNaT o))) <$> xs
  end.

(** [coerced.notna().mean() > 0.7]; the mean of no value is NaN. *)
Definition mostly_numeric (coerced : list (option Qc)) : bool :=
  bool_decide (7 * length coerced < 10 * length (present coerced)).

(** One round of the standardization loop; nothing raises out of it. *)
Definition standardize_column (df : table) (col : string) : table :=
  let df :=
    if is_datelike col then
      match getitem df col with
      | Column s =>
          match to_datetime s with
          | Some s' => setitem df col s'
          | None => df
          end
      | _ => df
      end
    else df in
  let df :=
    match getitem df col with
    | Column (Textual xs) => setitem df col (Textual (astype_str_lower xs))
    | _ => df
    end in
  match getitem df col with
  | Column (Numeric _) => df
  | Column s =>
      let coerced := to_numeric s in
      if mostly_numeric coerced then setitem df col (Numeric coerced) else df
  | _ => df
  end.

Definition standardize (df : table) : table :=
  foldl standardize_column df (names df).

Definition is_numeric (i : item) : bool :=
  match i with
  | Column (Numeric _) => true
  | _ => false
  end.

Definition negative (o : option Qc) : bool :=
  match o with
  | Some q => bool_decide (q < 0)%Qc
  | None => false
  end.

(** [(df[numeric_cols] < 0).any(axis=1)] *)
Definition invalid_mask (df : table) (numeric_cols : list string) : list bool :=
  (fun i =>
     existsb (fun c =>
                match getitem df c with
                | Column (Numeric xs) => negative (mjoin (xs !! i))
                | _ => false
                end) numeric_cols)
  <$> seq 0 (nrows df).

Definition remove_invalid (df : table) : table * nat :=
  let numeric_cols :=
    filter (fun c => is_numeric (getitem df c) = true) (names df) in
  match numeric_cols with
  | [] => (df, 0)
  | _ =>
      let mask_invalid := invalid_mask df numeric_cols in
      (map_rows (fun A => keep (negb <$> mask_invalid)) df,
       length (filter (fun b => b = true) mask_invalid))
  end.

Definition rename_columns (df : table) : table :=
  {| nrows := nrows df;
     columns := prod_map to_snake_case id <$> columns df |}.

(** [clean_dataset] on the value of the frame it is given. *)
Definition clean (df : table) : result (table * ProcessingSummary) :=
  let before := nrows df in
  let removed := before - nrows (drop_duplicates df) in
  let df := drop_duplicates df in
  '(df, filled_numeric, filled_text) ← handle_missing df;
  let df := standardize df in
  let '(df, removed_invalid) := remove_invalid df in
  let df := rename_columns df in
  let after := nrows df in
  Ok (df,
      {| rows_before := before;
         rows_after_cleaning := after;
         rows_after_transform := after;
         removed_duplicates := removed;
         filled_missing_numeric := filled_numeric;
         filled_missing_text := filled_text;
         removed_invalid_rows := removed_invalid |}).

End with_pandas.

End Cleaner.

(** ** The transformer *)

Module Transformer.
Import Text Frame Cleaner.

Section with_pandas.
Context `{Pandas}.

(** [next((c for c in cols if c in candidates), None)] *)
Definition next_in (candidates cols : list string) : option string :=
  head (filter (fun c => c ∈ candidates) cols).

(** [pd.to_numeric(s, errors="coerce").fillna(0)] *)
Definition numeric_or_zero (s : series) : list Qc :=
  default 0%Qc <$> to_numeric s.

(** The derived column.  [pd.to_numeric] refuses a DataFrame, which is
    what [df[label]] is when the label repeats. *)
Definition derive_total (df : table) : result table :=
  let cols := set_order (names df) in
  let price_col := next_in ["price"; "unit_price"]%string cols in
  let qty_col := next_in ["quantity"; "qty"]%string cols in
  match price_col, qty_col with
  | Some p, Some q =>
      match getitem df p, getitem df q with
      | Column price, Column qty =>
          Ok (setitem df "total"
                (Numeric (zip_with (fun a b => Some (a * b)%Qc)
                            (numeric_or_zero price) (numeric_or_zero qty))))
      | Absent, _ | _, Absent => Raise KeyError
      | _, _ => Raise TypeError
      end
  | _, _ =>
      Ok (setitem df "total" (Numeric (replicate (nrows df) (Some 1%Qc))))
  end.

(** The first of product, item, category that is a label, else
    [df.columns[0]]. *)
Definition select_group_col (labels : list string) : result string :=
  match filter (fun c => c ∈ labels) ["product"; "item"; "category"]%string with
  | candidate :: _ => Ok candidate
  | [] =>
      match labels with
      | first :: _ => Ok first
      | [] => Raise IndexError
      end
  end.

(** The group keys of [groupby] with its defaults [sort=True] and
    [dropna=True]: the distinct values that are not missing, ascending. *)
Definition group_keys (k : series) : series :=
  match k with
  | Numeric xs => Numeric (Some <$> merge_sort Qcle (remove_dups (present xs)))
  | Textual xs => Textual (Some <$> merge_sort str_le (remove_dups (present xs)))
  | Temporal xs => Temporal (Some <$> merge_sort Z.le (remove_dups (present xs)))
  end.

(** The positions of the rows of a group. *)
Definition members (k : series) (key : cell) : list nat :=
  filter (fun i => cells k !! i = Some key) (seq 0 (size k)).

Definition sum (xs : list (option Qc)) : Qc := foldr Qcplus 0%Qc (present xs).

Definition count (xs : list (option Qc)) : nat := length (present xs).

Definition mean (xs : list (option Qc)) : option Qc :=
  if bool_decide (count xs = 0) then None
  else Some (sum xs / Qc_of_Z (Z.of_nat (count xs)))%Qc.

Definition agg_labels : list string :=
  ["total_sales"; "avg_total"; "count_rows"]%string.

(** The aggregate of the key column [k] over [totals]: one row per group
    key, the sum, the mean and the count of the totals of the group. *)
Definition aggregate (group_col : string) (k : series)
    (totals : list (option Qc)) : table :=
  let keys := group_keys k in
  let groups := (fun key => take_rows (members k key) totals) <$> cells keys in
  {| nrows := size keys;
     columns :=
       [(group_col, keys);
        ("total_sales"%string, Numeric ((fun g => Some (sum g)) <$> groups));
        ("avg_total"%string, Numeric (mean <$> groups));
        ("count_rows"%string,
         Numeric ((fun g => Some (Qc_of_Z (Z.of_nat (count g)))) <$> groups))] |}.

(** [df.groupby(group_col).agg(total_sales=("total", "sum"),
    avg_total=("total", "mean"), count_rows=("total", "count"))
    .reset_index()].  [reset_index] refuses to insert a label that the
    aggregate already has. *)
Definition groupby_agg (df : table) (group_col : string) : result table :=
  match getitem df group_col, getitem df "total" with
  | Column k, Column (Numeric totals) =>
      if bool_decide (group_col ∈ agg_labels) then Raise ValueError
      else Ok (aggregate group_col k totals)
  | Absent, _ | _, Absent => Raise KeyError
  | Columns _, _ | _, Columns _ => Raise ValueError
  | Column _, Column _ => Raise TypeError
  end.

Definition positive (o : option Qc) : bool :=
  match o with
  | Some q => bool_decide (0 < q)%Qc
  | None => false
  end.

(** [df[df["total"] > 0]] *)
Definition filter_positive (df : table) : result table :=
  match getitem df "total" with
  | Column (Numeric totals) =>
      Ok (map_rows (fun A => keep (positive <$> totals)) df)
  | Column _ => Raise TypeError
  | Columns _ => Raise ValueError
  | Absent => Raise KeyError
  end.

(** pandas' [nargsort] for [ascending=False], [na_position="last"]: the
    values that are present are reversed, sorted ascending, and the
    resulting order is reversed again; missing ones go last. *)
Definition nargsort_desc (xs : list (option Qc)) : list nat :=
  let idx := seq 0 (length xs) in
  let mask := fun i => mjoin (xs !! i) = None in
  let non_nans := rev (present xs) in
  let non_nan_idx := rev (filter (fun i => ~ mask i) idx) in
  let nan_idx := filter mask idx in
  rev (take_rows (argsort non_nans) non_nan_idx) ++ nan_idx.

(** [df.sort_values("total", ascending=False)] *)
Definition sort_values_total (df : table) : result table :=
  match getitem df "total" with
  | Column (Numeric totals) =>
      Ok (map_rows (fun A => take_rows (nargsort_desc totals)) df)
  | Column _ => Raise TypeError  (* not reached: the filter has raised *)
  | Columns _ => Raise ValueError
  | Absent => Raise KeyError
  end.

(** [grouped[col] = pd.to_numeric(grouped[col], errors="coerce")] for the
    two aggregate columns. *)
Definition coerce_aggregates (grouped : table) : result table :=
  for_columns
    (fun col g =>
       match getitem g col with
       | Column s => Ok (setitem g col (Numeric (to_numeric s)))
       | Columns _ => Raise TypeError
       | Absent => Ok g
       end)
    ["total_sales"; "avg_total"]%string grouped.

(** The values [apply_transformations] computes from the frame it is
    given: that frame after the assignment of the total column, the
    filtered and sorted frame, and the aggregate. *)
Definition transform (df : table) : result (table * table * table) :=
  with_total ← derive_total df;
  group_col ← select_group_col (names with_total);
  grouped ← groupby_agg with_total group_col;
  filtered ← filter_positive with_total;
  sorted ← sort_values_total filtered;
  grouped ← coerce_aggregates grouped;
  mret (with_total, sorted, grouped).

End with_pandas.

End Transformer.

(** ** Objects and references

    A DataFrame and a [ProcessingSummary] are objects: a variable holds a
    reference, [df[label] = ...] and an attribute assignment change the
    object every holder of the reference sees, while [copy],
    boolean indexing and [sort_values] make a new object. *)

Module Pipeline.
Import Text Frame Cleaner Transformer.

Record heap := Heap {
  frames : gmap nat table;
  summaries : gmap nat ProcessingSummary
}.

Definition Py (A : Type) : Type := heap -> result (A * heap).

#[global] Instance Py_ret : MRet Py := fun A a h => Ok (a, h).
#[global] Instance Py_bind : MBind Py := fun A B f m h =>
  match m h with
  | Ok (a, h') => f a h'
  | Raise e => Raise e
  end.

Definition lift {A} (r : result A) : Py A := fun h =>
  match r with
  | Ok a => Ok (a, h)
  | Raise e => Raise e
  end.

Definition new_frame (t : table) : Py nat := fun h =>
  let l := fresh (dom (frames h)) in
  Ok (l, {| frames := <[l := t]> (frames h); summaries := summaries h |}).

Definition get_frame (l : nat) : Py table := fun h =>
  match frames h !! l with
  | Some t => Ok (t, h)
  | None => Raise KeyError
  end.

Definition set_frame (l : nat) (t : table) : Py unit := fun h =>
  Ok (tt, {| frames := <[l := t]> (frames h); summaries := summaries h |}).

Definition new_summary (s : ProcessingSummary) : Py nat := fun h =>
  let l := fresh (dom (summaries h)) in
  Ok (l, {| frames := frames h; summaries := <[l := s]> (summaries h) |}).

Definition get_summary (l : nat) : Py ProcessingSummary := fun h =>
  match summaries h !! l with
  | Some s => Ok (s, h)
  | None => Raise KeyError
  end.

Definition set_summary (l : nat) (s : ProcessingSummary) : Py unit := fun h =>
  Ok (tt, {| frames := frames h; summaries := <[l := s]> (summaries h) |}).

Definition set_rows_after_transform (n : nat) (s : ProcessingSummary)
    : ProcessingSummary :=
  {| rows_before := rows_before s;
     rows_after_cleaning := rows_after_cleaning s;
     rows_after_transform := n;
     removed_duplicates := removed_duplicates s;
     filled_missing_numeric := filled_missing_numeric s;
     filled_missing_text := filled_missing_text s;
     removed_invalid_rows := removed_invalid_rows s |}.

Section with_pandas.
Context `{Pandas}.

(** [clean_dataset(df)]: the first assignment,
    [df = df.drop_duplicates().copy()], rebinds the local name to a new
    object; every later change is made to that object or to a newer one. *)
Definition clean_dataset (df : nat) : Py (nat * nat) :=
  raw ← get_frame df;
  '(cleaned, summary) ← lift (clean raw);
  df ← new_frame cleaned;
  summary ← new_summary summary;
  mret (df, summary).

(** [apply_transformations(df, summary)]: [df["total"] = ...] is made on
    the object the caller passed; the filter makes the first new object.
    [summary.rows_after_transform = len(df)] changes the caller's
    summary. *)
Definition apply_transformations (df summary : nat) : Py (nat * nat * nat) :=
  given ← get_frame df;
  with_total ← lift (derive_total given);
  _ ← set_frame df with_total;
  group_col ← lift (select_group_col (names with_total));
  aggregate ← lift (groupby_agg with_total group_col);
  grouped ← new_frame aggregate;
  filtered ← lift (filter_positive with_total);
  df ← new_frame filtered;
  sorted ← lift (sort_values_total filtered);
  df ← new_frame sorted;
  aggregate ← lift (coerce_aggregates aggregate);
  _ ← set_frame grouped aggregate;
  s ← get_summary summary;
  _ ← set_summary summary (set_rows_after_transform (nrows sorted) s);
  mret (df, grouped, summary).

(** The part of [run_full_pipeline] between the loader and the adapters. *)
Definition run_pipeline (df_raw : nat) : Py (nat * nat * nat) :=
  '(df_clean, summary) ← clean_dataset df_raw;
  apply_transformations df_clean summary.

End with_pandas.

End Pipeline.

(** ** Implementations of the library contracts *)

Module Reference.
Import Text Frame.

(** An argsort from a sort of the pairs (value, position). *)
Definition argsort_by (R : relation (Qc * nat)) `{forall x y, Decision (R x y)}
    (xs : list Qc) : list nat :=
  (merge_sort R (zip xs (seq 0 (length xs)))).*2.

(** Equal values stay in the order of their positions. *)
Definition by_value_then_earlier : relation (Qc * nat) := fun a b =>
  (a.1 < b.1)%Qc \/ (a.1 = b.1 /\ a.2 <= b.2).

(** Equal values come out in the reverse order of their positions. *)
Definition by_value_then_later : relation (Qc * nat) := fun a b =>
  (a.1 < b.1)%Qc \/ (a.1 = b.1 /\ b.2 <= a.2).

#[global] Instance by_value_then_earlier_dec : RelDecision by_value_then_earlier.
Proof. intros a b. unfold by_value_then_earlier. apply _. Defined.
#[global] Instance by_value_then_later_dec : RelDecision by_value_then_later.
Proof. intros a b. unfold by_value_then_later. apply _. Defined.

(** Decimal numerals: an optional sign, digits, an optional fraction. *)
Fixpoint digits (acc : Z) (l : list ascii) : option Z :=
  match l with
  | [] => Some acc
  | c :: r =>
      if is_digit c then digits (10 * acc + Z.of_N (code c - 48)) r else None
  end.

Fixpoint split_at_dot (l : list ascii) : list ascii * option (list ascii) :=
  match l with
  | [] => ([], None)
  | c :: r =>
      if (code c =? 46)%N then ([], Some r)
      else let '(a, b) := split_at_dot r in (c :: a, b)
  end.

Definition unsigned_decimal (l : list ascii) : option Qc :=
  let '(int_part, frac_part) := split_at_dot l in
  match int_part, frac_part with
  | [], None | [], Some [] => None
  | _, _ =>
      i ← digits 0 int_part;
      f ← digits 0 (default [] frac_part);
      Some (Qc_of_Z i + Qc_of_Z f / Qc_of_Z (10 ^ Z.of_nat (length (default [] frac_part))))%Qc
  end.

Definition parse_decimal (s : string) : option Qc :=
  match list_ascii_of_string s with
  | c :: r =>
      if (code c =? 45)%N then Qcopp <$> unsigned_decimal r
      else if (code c =? 43)%N then unsigned_decimal r
      else unsigned_decimal (c :: r)
  | [] => None
  end.

(** NaT for every cell: a parser of dates that recognizes nothing. *)
Definition no_dates {A} (xs : list (option A)) : option (list (option Z)) :=
  Some ((fun _ => None) <$> xs).

End Reference.

(** ** File types

    [detect_file_type] and the part of [os.path] it calls.  The module
    [os.path] is [posixpath] or [ntpath], by the platform of the
    interpreter; both split the extension with [genericpath._splitext]. *)

Module Files.
Import Text.

Inductive platform := Posix | Windows.

(** [os.sep] and [os.altsep] *)
Definition sep (os : platform) : ascii :=
  match os with
  | Posix => ascii_of_N 47
  | Windows => ascii_of_N 92
  end.

Definition altsep (os : platform) : option ascii :=
  match os with
  | Posix => None
  | Windows => Some (ascii_of_N 47)
  end.

Definition extsep : ascii := ascii_of_N 46.

(** [p.rfind(c)]: the highest index of [c], or -1.  [i] is the index of
    the head of [l], [found] the highest index seen so far. *)
Fixpoint rfind_from (c : ascii) (l : list ascii) (i found : Z) : Z :=
  match l with
  | [] => found
  | x :: r => rfind_from c r (i + 1) (if Ascii.eqb x c then i else found)
  end.

Definition rfind (c : ascii) (p : list ascii) : Z := rfind_from c p 0 (-1).

(** [p[i:j]] for indices that are not negative *)
Definition slice (i j : Z) (p : list ascii) : list ascii :=
  take (Z.to_nat (j - i)) (drop (Z.to_nat i) p).

(** [genericpath._splitext(p, sep, altsep, extsep)]: the extension starts
    at the last dot that comes after the last separator, unless only dots
    lie between the separator and that dot. *)
Definition splitext_generic (p : list ascii) (sep : ascii) (altsep : option ascii)
    (extsep : ascii) : list ascii * list ascii :=
  let sepIndex := rfind sep p in
  let sepIndex :=
    match altsep with
    | Some a => Z.max sepIndex (rfind a p)
    | None => sepIndex
    end in
  let dotIndex := rfind extsep p in
  if (sepIndex <? dotIndex)%Z then
    (* the loop over filenameIndex from sepIndex + 1 up to dotIndex *)
    if existsb (fun c => negb (Ascii.eqb c extsep)) (slice (sepIndex + 1) dotIndex p)
    then (take (Z.to_nat dotIndex) p, drop (Z.to_nat dotIndex) p)
    else (p, [])
  else (p, []).

(** [os.path.splitext(path)] *)
Definition splitext (os : platform) (path : string) : string * string :=
  let '(root, ext) :=
    splitext_generic (list_ascii_of_string path) (sep os) (altsep os) extsep in
  (string_of_list_ascii root, string_of_list_ascii ext).

(** What [detect_file_type] raises: [ValueError(message)]. *)
Inductive detected :=
| Detected (ftype : string)
| UnsupportedFileType (message : string).

Definition detect_file_type (os : platform) (path : string) : detected :=
  let ext := str_lower (splitext os path).2 in
  if String.eqb ext ".csv" then Detected "csv"
  else if existsb (String.eqb ext) [".xls"; ".xlsx"]%string then Detected "excel"
  else if String.eqb ext ".json" then Detected "json"
  else UnsupportedFileType ("Unsupported file type: " +:+ ext).

End Files.

(** ** The program around the stages

    The loader, the chart, the AI report, the PDF export, the pipeline,
    the menu and [main].  What these functions do to the world is
    modelled as follows:
    - the calls to [logging] and [print] and the prompts of [input] are
      recorded, in order, in a trace; a logging call is recorded with its
      format string and its arguments, as [logging] itself keeps them;
    - everything behind a library call (the file system, the environment,
      the network, the state of matplotlib and of the FPDF object) is the
      outside, a state of any type; a library call takes the outside to a
      new one and returns a value or raises an exception with its class
      name and its [str].  The program is verified for every behaviour of
      these calls;
    - the standard input is a list of lines, which only [input] reads. *)

Module Shell.
Import Text Frame Cleaner Transformer Files.

Inductive level := INFO | WARNING | ERROR.

(** An exception the code sees: an instance of a subclass of [Exception]
    with the name of its class and its [str(exc)], an exception pandas
    raises inside a stage, or [SystemExit]. *)
Inductive exception :=
| Error (kind message : string)
| InStage (e : exn)
| SystemExit (code : Z).

(** An argument of a logging call. *)
Inductive arg :=
| Str (s : string)
| Exc (e : exception).

Inductive event :=
| Log (lvl : level) (fmt : string) (args : list arg)
| Print (text : string)
| Prompt (text : string).

Inductive outcome (A : Type) :=
| Returned (a : A)
| Raised (e : exception).
Arguments Returned {A} a.
Arguments Raised {A} e.

(** What a library call answers. *)
Inductive answer (A : Type) :=
| Fine (a : A)
| Failed (kind message : string).
Arguments Fine {A} a.
Arguments Failed {A} kind message.

Definition library (outside A : Type) : Type := outside -> answer A * outside.

(** An argument passed to matplotlib or to FPDF. *)
Inductive pyarg :=
| Int (n : Z)
| Txt (s : string)
| Flag (b : bool)
| Pair (a b : Z)
| Data (d : item)
| Keyword (name : string) (value : pyarg).

(** [getattr(response, "text", None)], as far as [callable] and a call
    tell: a [text()] that does not return a [str] counts as a failed
    call, since [.strip()] is applied to what it returns. *)
Inductive attribute (outside : Type) :=
| NotCallable
| Callable (call : library outside string).
Arguments NotCallable {outside}.
Arguments Callable {outside} call.

(** [args = parser.parse_args(argv)]: a namespace, or [SystemExit]. *)
Inductive parsed :=
| Namespace (input : string) (auto : bool)
| Exits (code : Z).

Class System := {
  outside : Type;
  client : Type;
  response : Type;
  (** [os.path] is [posixpath] or [ntpath] *)
  os : platform;
  (** [os.path.exists(path)] and [os.getenv(name)] *)
  path_exists : string -> outside -> bool;
  getenv : string -> outside -> option string;
  (** [load_dotenv()] and [logging.basicConfig(level=, format=,
      handlers=[logging.StreamHandler(sys.stdout)])] *)
  load_dotenv : library outside unit;
  basicConfig : level -> string -> library outside unit;
  (** [argparse] with the two arguments of [parse_args] *)
  parse_args : option (list string) -> outside -> parsed * outside;
  (** [pd.read_csv(path)], [pd.read_excel(path)], [pd.read_json(path)] *)
  read_csv : string -> library outside table;
  read_excel : string -> library outside table;
  read_json : string -> library outside table;
  (** [df.to_csv(path, index=False)] *)
  to_csv : table -> string -> library outside unit;
  (** [df.to_markdown(index=False)],
      [df.describe(include="all").to_markdown()] and
      [df.to_string(index=False)] *)
  to_markdown : table -> library outside string;
  describe_to_markdown : table -> library outside string;
  to_string : table -> library outside string;
  (** [.astype(str)] on what [df[label]] is *)
  astype_str : item -> item;
  (** the order [sort_values(ascending=False)] gives to a column that is
      not numeric *)
  order_desc : series -> list nat;
  (** [str.title] *)
  title : string -> string;
  (** [plt.<name>(args)] and [FPDF()], [pdf.<name>(args)] *)
  plt : string -> list pyarg -> library outside unit;
  fpdf : string -> list pyarg -> library outside unit;
  (** [genai], which is None when the import failed, with
      [genai.Client(api_key=...)] *)
  genai : option (string -> library outside client);
  (** [client.models.generate_content(model=, contents=)] *)
  generate_content : client -> string -> string -> library outside response;
  getattr_text : response -> library outside (attribute outside);
  str_response : response -> library outside string
}.

Section with_system.
Context `{Pandas} `{System}.

Record state := State { out : outside; trace : list event }.

Definition Sh (A : Type) : Type := state -> outcome A * state.

#[global] Instance Sh_ret : MRet Sh := fun A a w => (Returned a, w).
#[global] Instance Sh_bind : MBind Sh := fun A B f m w =>
  match m w with
  | (Returned a, w') => f a w'
  | (Raised e, w') => (Raised e, w')
  end.

Definition emit (ev : event) (w : state) : state :=
  {| out := out w; trace := trace w ++ [ev] |}.

Definition logging (lvl : level) (fmt : string) (args : list arg) : Sh unit :=
  fun w => (Returned tt, emit (Log lvl fmt args) w).

Definition print (text : string) : Sh unit :=
  fun w => (Returned tt, emit (Print text) w).

Definition raise {A} (e : exception) : Sh A := fun w => (Raised e, w).

Definition lib {A} (call : library outside A) : Sh A := fun w =>
  match call (out w) with
  | (Fine a, o) => (Returned a, {| out := o; trace := trace w |})
  | (Failed kind message, o) =>
      (Raised (Error kind message), {| out := o; trace := trace w |})
  end.

(** A stage of the pipeline, without its logging. *)
Definition stage {A} (r : result A) : Sh A := fun w =>
  match r with
  | Ok a => (Returned a, w)
  | Raise e => (Raised (InStage e), w)
  end.

Definition os_path_exists (path : string) : Sh bool :=
  fun w => (Returned (path_exists path (out w)), w).

Definition os_getenv (name : string) : Sh (option string) :=
  fun w => (Returned (getenv name (out w)), w).

(** [try: body except Exception as exc: handler]; [SystemExit] is not an
    [Exception]. *)
Definition try_except {A} (body : Sh A) (handler : exception -> Sh A) : Sh A :=
  fun w =>
    match body w with
    | (Returned a, w') => (Returned a, w')
    | (Raised (SystemExit code), w') => (Raised (SystemExit code), w')
    | (Raised exc, w') => handler exc w'
    end.

Definition LOG_FORMAT : string := "%(asctime)s - %(levelname)s - %(message)s".
Definition DEFAULT_INPUT_PATH : string := "sample.csv".
Definition CLEANED_OUTPUT_PATH : string := "cleaned_output.csv".
Definition CHART_PATH : string := "top_products.png".
Definition PDF_REPORT_PATH : string := "report.pdf".

Definition nl : string := String (ascii_of_N 10) "".

Definition setup_logging (lvl : level) : Sh unit :=
  lib (basicConfig lvl LOG_FORMAT).

(** *** The loader *)

Definition load_dataset (path : string) : Sh table :=
  _ ← logging INFO "File loaded: %s" [Str path];
  ftype ← match detect_file_type os path with
          | Detected ftype => mret ftype
          | UnsupportedFileType message => raise (Error "ValueError" message)
          end;
  if String.eqb ftype "csv" then lib (read_csv path)
  else if String.eqb ftype "excel" then lib (read_excel path)
  else if String.eqb ftype "json" then lib (read_json path)
  else raise (Error "ValueError" ("Unsupported file type: " +:+ ftype)).

(** *** The stages with their logging *)

Definition clean_dataset (df : table) : Sh (table * ProcessingSummary) :=
  _ ← logging INFO "Cleaning started" [];
  r ← stage (clean df);
  _ ← logging INFO "Cleaning complete" [];
  mret r.

(** [apply_transformations(df, summary)] changes the frame and the
    summary it is given; it returns, first, the frame of the caller as it
    is after the call. *)
Definition apply_transformations (df : table) (summary : ProcessingSummary)
    : Sh (table * table * table * ProcessingSummary) :=
  _ ← logging INFO "Transformations started" [];
  '(with_total, sorted, grouped) ← stage (transform df);
  let summary := Pipeline.set_rows_after_transform (nrows sorted) summary in
  _ ← logging INFO "Transformations complete" [];
  mret (with_total, sorted, grouped, summary).

(** *** The chart *)

(** [df.sort_values(label, ascending=False)] *)
Definition sort_values_desc (label : string) (df : table) : result table :=
  match getitem df label with
  | Column (Numeric xs) => Ok (map_rows (fun A => take_rows (nargsort_desc xs)) df)
  | Column s => Ok (map_rows (fun A => take_rows (order_desc s)) df)
  | Columns _ => Raise ValueError
  | Absent => Raise KeyError
  end.

(** [df.head(n)]: the first [n] rows, or all but the last [-n]. *)
Definition head_rows (n : Z) (df : table) : table :=
  map_rows (fun A l =>
              if (n <? 0)%Z then take (length l - Z.to_nat (- n)) l
              else take (Z.to_nat n) l) df.

(** [df.columns[0]] *)
Definition first_label (df : table) : result string :=
  match names df with
  | label :: _ => Ok label
  | [] => Raise IndexError
  end.

(** [label.replace("_", " ")] *)
Definition underscores_to_spaces (label : string) : string :=
  string_of_list_ascii
    ((fun c => if is_underscore c then ascii_of_N 32 else c)
       <$> list_ascii_of_string label).

Definition generate_bar_chart (grouped : table) (chart_path : string) (top_n : Z)
    : Sh (option string) :=
  if empty grouped then
    _ ← logging WARNING "Grouped data is empty; skipping chart generation" [];
    mret None
  else
    name_col ← stage (first_label grouped);
    sorted ← stage (sort_values_desc "total_sales" grouped);
    let top := head_rows top_n sorted in
    _ ← lib (plt "figure" [Keyword "figsize" (Pair 10 6)]);
    _ ← lib (plt "bar" [Data (astype_str (getitem top name_col));
                        Data (getitem top "total_sales")]);
    _ ← lib (plt "xticks" [Keyword "rotation" (Int 45); Keyword "ha" (Txt "right")]);
    _ ← lib (plt "xlabel" [Txt (title (underscores_to_spaces name_col))]);
    _ ← lib (plt "ylabel" [Txt "Total Sales"]);
    _ ← lib (plt "title" [Txt "Top Items by Total Sales"]);
    _ ← lib (plt "tight_layout" []);
    _ ← lib (plt "savefig" [Txt chart_path]);
    _ ← lib (plt "close" []);
    _ ← logging INFO "Visualization saved to %s" [Str chart_path];
    mret (Some chart_path).

(** *** The AI report *)

Definition create_gemini_client : Sh (option client) :=
  match genai with
  | None =>
      _ ← logging ERROR
            "Gemini SDK is not installed. Install 'google-genai' to enable AI features." [];
      mret None
  | Some new_client =>
      gemini ← os_getenv "GEMINI_API_KEY";
      api_key ← match gemini with
                | Some s => if String.eqb s "" then os_getenv "GOOGLE_API_KEY"
                            else mret gemini
                | None => os_getenv "GOOGLE_API_KEY"
                end;
      match api_key with
      | Some (String c key as api_key) =>
          try_except
            (client ← lib (new_client api_key);
             mret (Some client))
            (fun exc =>
               _ ← logging ERROR "Failed to create Gemini client: %s" [Exc exc];
               mret None)
      | _ =>
          _ ← logging ERROR
                "GEMINI_API_KEY or GOOGLE_API_KEY not found in environment. Check your .env file." [];
          mret None
      end
  end.

Definition build_ai_prompt (df grouped : table) : Sh string :=
  head_text ← lib (to_markdown (head_rows 5 df));
  describe_text ← lib (describe_to_markdown df);
  grouped_text ← lib (to_markdown (head_rows 20 grouped));
  mret (nl +:+ "You are a data analyst. I will provide a dataset and some aggregated statistics."
        +:+ nl +:+ "Generate a concise professional report that includes:"
        +:+ nl +:+ "- A high-level dataset summary"
        +:+ nl +:+ "- Key patterns or insights"
        +:+ nl +:+ "- Any anomalies or data quality issues you notice"
        +:+ nl +:+ "- Business recommendations based on the grouped/aggregated data"
        +:+ nl
        +:+ nl +:+ "Dataset head (first rows):"
        +:+ nl +:+ head_text
        +:+ nl
        +:+ nl +:+ "Dataset describe() summary:"
        +:+ nl +:+ describe_text
        +:+ nl
        +:+ nl +:+ "Grouped / aggregated data (top groups):"
        +:+ nl +:+ grouped_text
        +:+ nl).

(** [s.strip()] *)
Definition str_strip (s : string) : string :=
  string_of_list_ascii (strip (list_ascii_of_string s)).

(** The [except] clause of [generate_ai_analysis]. *)
Definition describe_failure (exc : exception) (text : string) : Sh string :=
  let message := str_lower text in
  if contains "api key" message || contains "permission" message then
    _ ← logging ERROR "Gemini authentication error: %s" [Exc exc];
    mret "AI authentication error: invalid or missing API key."%string
  else if contains "rate" message || contains "quota" message
          || contains "resource exhausted" message then
    _ ← logging ERROR "Gemini rate limit: %s" [Exc exc];
    mret "AI rate limit or quota reached. Please retry later."%string
  else if contains "network" message || contains "connection" message
          || contains "timed out" message then
    _ ← logging ERROR "Gemini connection error: %s" [Exc exc];
    mret "AI connection error: check your internet connection."%string
  else
    _ ← logging ERROR "Unexpected error from Gemini: %s" [Exc exc];
    mret ("AI analysis failed: " +:+ text).

(** The body of the [try] of [generate_ai_analysis]: library calls only. *)
Definition ask (c : client) (prompt : string) : library outside string :=
  fun o =>
    match generate_content c "gemini-2.0-flash" prompt o with
    | (Failed kind message, o) => (Failed kind message, o)
    | (Fine response, o) =>
        match getattr_text response o with
        | (Failed kind message, o) => (Failed kind message, o)
        | (Fine (Callable call), o) =>
            match call o with
            | (Fine content, o) => (Fine (str_strip content), o)
            | (Failed kind message, o) => (Failed kind message, o)
            end
        | (Fine NotCallable, o) =>
            match str_response response o with
            | (Fine content, o) => (Fine (str_strip content), o)
            | (Failed kind message, o) => (Failed kind message, o)
            end
        end
    end.

(** The [try] statement of [generate_ai_analysis]. *)
Definition request (c : client) (prompt : string) : Sh string := fun w =>
  match ask c prompt (out w) with
  | (Fine content, o) => (Returned content, {| out := o; trace := trace w |})
  | (Failed kind message, o) =>
      describe_failure (Error kind message) message
        {| out := o; trace := trace w |}
  end.

Definition unavailable : string :=
  "AI analysis unavailable: Gemini client not initialized. Check installation and API key (GEMINI_API_KEY/GOOGLE_API_KEY).".

Definition generate_ai_analysis (df grouped : table) : Sh string :=
  _ ← logging INFO "AI processing started" [];
  made ← create_gemini_client;
  match made with
  | None => mret unavailable
  | Some c =>
      prompt ← build_ai_prompt df grouped;
      request c prompt
  end.

(** *** The PDF report *)

Definition cell_line (h : Z) (text : string) : Sh unit :=
  lib (fpdf "cell" [Int 0; Int h; Txt text; Keyword "ln" (Flag true)]).

(** [if not grouped.empty: ... else: ...] *)
Definition preview_of (grouped : table) : Sh unit :=
  if negb (empty grouped) then
    preview ← lib (to_string (head_rows 10 grouped));
    lib (fpdf "multi_cell" [Int 0; Int 4; Txt preview])
  else lib (fpdf "multi_cell" [Int 0; Int 4; Txt "No grouped data available."]).

(** [if chart_path and os.path.exists(chart_path): ...]; None and the
    empty string are false. *)
Definition chart_page (chart_path : option string) : Sh unit :=
  match chart_path with
  | None | Some EmptyString => mret tt
  | Some chart_path =>
      found ← os_path_exists chart_path;
      if found : bool then
        _ ← lib (fpdf "add_page" []);
        _ ← lib (fpdf "set_font" [Txt "Arial"; Txt "B"; Int 14]);
        _ ← cell_line 10 "Visualization";
        lib (fpdf "image" [Txt chart_path; Keyword "x" (Int 10);
                           Keyword "y" (Int 30); Keyword "w" (Int 180)])
      else mret tt
  end.

Definition export_pdf_report (summary : ProcessingSummary) (grouped : table)
    (ai_report : string) (chart_path : option string) (output_path : string)
    : Sh string :=
  _ ← lib (fpdf "FPDF" []);
  _ ← lib (fpdf "set_auto_page_break" [Keyword "auto" (Flag true); Keyword "margin" (Int 15)]);
  _ ← lib (fpdf "add_page" []);
  _ ← lib (fpdf "set_font" [Txt "Arial"; Txt "B"; Int 16]);
  _ ← cell_line 10 "Data Processing & AI Report";
  _ ← lib (fpdf "set_font" [Txt "Arial"; Keyword "size" (Int 12)]);
  _ ← lib (fpdf "ln" [Int 4]);
  _ ← cell_line 8 "Cleaning Summary";
  _ ← lib (fpdf "set_font" [Txt "Arial"; Keyword "size" (Int 10)]);
  _ ← cell_line 6 ("Rows before: " +:+ pretty (rows_before summary));
  _ ← cell_line 6 ("Rows after cleaning: " +:+ pretty (rows_after_cleaning summary));
  _ ← cell_line 6 ("Rows after transformations: " +:+ pretty (rows_after_transform summary));
  _ ← cell_line 6 ("Removed duplicates: " +:+ pretty (removed_duplicates summary));
  _ ← cell_line 6 ("Filled missing numeric: " +:+ pretty (filled_missing_numeric summary));
  _ ← cell_line 6 ("Filled missing text: " +:+ pretty (filled_missing_text summary));
  _ ← cell_line 6 ("Removed invalid rows: " +:+ pretty (removed_invalid_rows summary));
  _ ← lib (fpdf "ln" [Int 4]);
  _ ← lib (fpdf "set_font" [Txt "Arial"; Keyword "size" (Int 12)]);
  _ ← cell_line 8 "Transformations Summary";
  _ ← lib (fpdf "set_font" [Txt "Arial"; Keyword "size" (Int 10)]);
  _ ← lib (fpdf "multi_cell"
             [Int 0; Int 6;
              Txt "Created 'total' column, grouped and aggregated data, filtered invalid/zero totals, and sorted by total."]);
  _ ← lib (fpdf "ln" [Int 4]);
  _ ← lib (fpdf "set_font" [Txt "Arial"; Keyword "size" (Int 12)]);
  _ ← cell_line 8 "Top Grouped Data (Preview)";
  _ ← lib (fpdf "set_font" [Txt "Arial"; Keyword "size" (Int 8)]);
  _ ← preview_of grouped;
  _ ← lib (fpdf "ln" [Int 4]);
  _ ← lib (fpdf "set_font" [Txt "Arial"; Keyword "size" (Int 12)]);
  _ ← cell_line 8 "AI Analysis";
  _ ← lib (fpdf "set_font" [Txt "Arial"; Keyword "size" (Int 10)]);
  _ ← lib (fpdf "multi_cell"
             [Int 0; Int 5;
              Txt (if String.eqb ai_report "" then "No AI analysis available."
                   else ai_report)]);
  _ ← chart_page chart_path;
  _ ← lib (fpdf "output" [Txt output_path]);
  _ ← logging INFO "PDF report exported to %s" [Str output_path];
  mret output_path.

(** *** The pipeline *)

Definition run_full_pipeline (input_path : string)
    : Sh (table * table * ProcessingSummary * string * option string) :=
  _ ← logging INFO "Starting full pipeline" [];
  found ← os_path_exists input_path;
  if negb found then
    raise (Error "FileNotFoundError" ("Input file not found: " +:+ input_path))
  else
    df_raw ← load_dataset input_path;
    '(df_clean, summary) ← clean_dataset df_raw;
    _ ← lib (to_csv df_clean CLEANED_OUTPUT_PATH);
    _ ← logging INFO "Cleaned data saved to %s" [Str CLEANED_OUTPUT_PATH];
    '(df_clean, df_transformed, grouped, summary)
      ← apply_transformations df_clean summary;
    chart_path ← generate_bar_chart grouped CHART_PATH 10;
    ai_report ← generate_ai_analysis df_transformed grouped;
    _ ← export_pdf_report summary grouped ai_report chart_path PDF_REPORT_PATH;
    _ ← logging INFO "Pipeline finished successfully" [];
    mret (df_transformed, grouped, summary, ai_report, chart_path).

(** *** The menu *)

(** The summary options 2 and 3 make for a frame read from the cleaned
    file. *)
Definition fresh_summary (df_clean : table) : ProcessingSummary :=
  {| rows_before := nrows df_clean;
     rows_after_cleaning := nrows df_clean;
     rows_after_transform := nrows df_clean;
     removed_duplicates := 0;
     filled_missing_numeric := 0;
     filled_missing_text := 0;
     removed_invalid_rows := 0 |}.

Definition option_1 : Sh unit :=
  try_except
    (_ ← run_full_pipeline DEFAULT_INPUT_PATH; mret tt)
    (fun exc => logging ERROR "Error during full pipeline: %s" [Exc exc]).

Definition option_2 : Sh unit :=
  try_except
    (found ← os_path_exists CLEANED_OUTPUT_PATH;
     if negb found then
       print (CLEANED_OUTPUT_PATH +:+ " not found. Run option 1 first.")
     else
       df_clean ← lib (read_csv CLEANED_OUTPUT_PATH);
       '(df_clean, _, grouped, summary)
         ← apply_transformations df_clean (fresh_summary df_clean);
       ai_report ← generate_ai_analysis df_clean grouped;
       _ ← print (nl +:+ "AI Report:" +:+ nl);
       print ai_report)
    (fun exc => logging ERROR "Error generating AI report: %s" [Exc exc]).

Definition option_3 : Sh unit :=
  try_except
    (found ← os_path_exists CLEANED_OUTPUT_PATH;
     if negb found then
       print (CLEANED_OUTPUT_PATH +:+ " not found. Run option 1 first.")
     else
       df_clean ← lib (read_csv CLEANED_OUTPUT_PATH);
       '(_, df_transformed, grouped, summary)
         ← apply_transformations df_clean (fresh_summary df_clean);
       ai_report ← generate_ai_analysis df_transformed grouped;
       _ ← export_pdf_report summary grouped ai_report (Some CHART_PATH)
             PDF_REPORT_PATH;
       mret tt)
    (fun exc => logging ERROR "Error exporting PDF: %s" [Exc exc]).

Definition print_menu : Sh unit :=
  _ ← print (nl +:+ "Data AI Automator - Menu");
  _ ← print "1. Process Data (clean + transform + AI + PDF)";
  _ ← print "2. Generate AI Report only (requires existing cleaned_output.csv)";
  _ ← print "3. Export PDF only (requires existing cleaned_output.csv)";
  print "4. Exit".

(** [cli_menu()] on the lines the standard input holds; it returns what
    is left of them.  Each turn of the loop reads one line; [input]
    raises EOFError when there is none. *)
Fixpoint cli_menu (stdin : list string) (w : state)
    : outcome unit * (list string * state) :=
  match print_menu w with
  | (Raised e, w) => (Raised e, (stdin, w))
  | (Returned _, w) =>
      let w := emit (Prompt "Select an option (1-4): ") w in
      match stdin with
      | [] => (Raised (Error "EOFError" "EOF when reading a line"), ([], w))
      | line :: stdin =>
          let choice := str_strip line in
          if String.eqb choice "4" then
            (Returned tt, (stdin, emit (Print "Exiting.") w))
          else
            match (if String.eqb choice "1" then option_1
                   else if String.eqb choice "2" then option_2
                   else if String.eqb choice "3" then option_3
                   else print "Invalid choice. Please select 1-4.") w with
            | (Raised e, w) => (Raised e, (stdin, w))
            | (Returned _, w) => cli_menu stdin w
            end
      end
  end.

(** *** The entry point *)

Definition main (argv : option (list string)) (stdin : list string) (w : state)
    : outcome unit * (list string * state) :=
  match (_ ← lib load_dotenv; setup_logging INFO) w with
  | (Raised e, w) => (Raised e, (stdin, w))
  | (Returned _, w) =>
      match parse_args argv (out w) with
      | (Exits code, o) =>
          (Raised (SystemExit code), (stdin, {| out := o; trace := trace w |}))
      | (Namespace input auto, o) =>
          let w := {| out := o; trace := trace w |} in
          if auto then
            match try_except
                    (_ ← run_full_pipeline input; mret tt)
                    (fun exc =>
                       _ ← logging ERROR "Automatic pipeline failed: %s" [Exc exc];
                       raise (SystemExit 1)) w with
            | (r, w) => (r, (stdin, w))
            end
          else cli_menu stdin w
      end
  end.

End with_system.

End Shell.

(** * Properties *)

(** ** The column-name normalizer *)

Section normalizer.
Import Text.

Lemma drop_while_end_app_keep p l c :
  p c = false -> drop_while_end p (l ++ [c]) = l ++ [c].
Proof.
  intros Hc. induction l as [|a l IH]; simpl.
  - by rewrite Hc.
  - unfold drop_while_end in *. simpl. rewrite IH.
    by destruct l.
Qed.

Lemma drop_while_end_app_drop p l c :
  p c = true -> drop_while_end p (l ++ [c]) = drop_while_end p l.
Proof.
  intros Hc. induction l as [|a l IH]; simpl.
  - by rewrite Hc.
  - unfold drop_while_end in *. simpl. by rewrite IH.
Qed.

Lemma drop_while_end_rev p l :
  drop_while_end p l = rev (drop_while p (rev l)).
Proof.
  induction l as [|c l IH] using rev_ind; [done|].
  rewrite rev_app_distr. simpl. destruct (p c) eqn:Hc.
  - by rewrite drop_while_end_app_drop.
  - rewrite drop_while_end_app_keep by done.
    simpl. by rewrite rev_involutive.
Qed.

Lemma strip_trim l : strip l = trim l.
Proof. unfold strip, trim. by rewrite drop_while_end_rev. Qed.

Lemma re_sub_scan_in_match p r c l :
  p c = true ->
  re_sub_scan p [r] true (c :: l) = re_sub_scan p [r] true l.
Proof. intros Hc. simpl. by rewrite Hc. Qed.

Lemma squash_runs_run p r c a l :
  p c = true ->
  squash_runs p r (c :: a :: l) =
    if p a then squash_runs p r (a :: l) else r :: squash_runs p r (a :: l).
Proof. intros Hc. cbn [squash_runs]. by rewrite Hc. Qed.

(** The scanner writes the replacement where a run starts, [squash_runs]
    where it ends: both write it once per run. *)
Lemma re_sub_scan_squash p r l :
  re_sub_scan p [r] false l = squash_runs p r l
  /\ forall c, p c = true ->
       r :: re_sub_scan p [r] true l = squash_runs p r (c :: l).
Proof.
  induction l as [|a l [IH1 IH2]].
  - split; [done|]. intros c Hc. simpl. by rewrite Hc.
  - split.
    + simpl. destruct (p a) eqn:Ha.
      * specialize (IH2 a Ha). simpl in IH2. rewrite Ha in IH2.
        exact IH2.
      * by rewrite IH1.
    + intros c Hc. rewrite squash_runs_run by done.
      cbn [re_sub_scan]. destruct (p a) eqn:Ha.
      * apply (IH2 a Ha).
      * rewrite IH1. simpl. by rewrite Ha.
Qed.

Lemma re_sub_squash p r l : re_sub p [r] l = squash_runs p r l.
Proof. apply re_sub_scan_squash. Qed.

Lemma re_sub_scan_delete p b l :
  re_sub_scan (fun c => negb (p c)) [] b l = filter (fun c => p c = true) l.
Proof.
  revert b. induction l as [|a l IH]; intros b; [done|].
  simpl. destruct (p a) eqn:Ha; simpl.
  - rewrite filter_cons_True by done. by rewrite IH.
  - rewrite filter_cons_False by (by rewrite Ha). destruct b; apply IH.
Qed.

Lemma to_snake_case_chars_normalize l :
  to_snake_case_chars l = normalize_chars l.
Proof.
  unfold to_snake_case_chars, normalize_chars, lower, re_sub at 2.
  by rewrite re_sub_scan_delete, !re_sub_squash, strip_trim.
Qed.

(** C9: the column-name normalizer is a total function that computes what
    the specification describes: it trims surrounding whitespace, turns
    every run of whitespace or hyphens into one underscore, removes every
    character outside [0-9A-Za-z_], collapses repeated underscores and
    lower-cases the result; on "Unit  Price!" it returns "unit_price". *)
Theorem to_snake_case_meets_spec :
  (forall label : string, to_snake_case label = normalize label)
  /\ to_snake_case "Unit  Price!" = "unit_price"%string.
Proof.
  split; [|reflexivity].
  intros label. unfold to_snake_case, normalize.
  by rewrite to_snake_case_chars_normalize.
Qed.

End normalizer.

Import Text Frame Cleaner Transformer Pipeline Reference.

(** ** Frames: rows, labels, lookups *)

Lemma keep_length_le {A} (m : list bool) (l : list A) : length (keep m l) ≤ length l.
Proof.
  revert l. induction m as [|b m IH]; intros [|x l]; simpl; try lia.
  destruct b; simpl; specialize (IH l); lia.
Qed.

Lemma map_rows_names f df : names (map_rows f df) = names df.
Proof.
  unfold names, map_rows. simpl. rewrite <-list_fmap_compose.
  apply list_fmap_ext. by intros ? [??].
Qed.

Lemma keep_rows_nrows m df :
  nrows (map_rows (fun A => keep m) df) ≤ nrows df.
Proof.
  unfold map_rows. simpl.
  etrans; [apply keep_length_le|]. by rewrite length_replicate.
Qed.

Lemma drop_duplicates_nrows df : nrows (drop_duplicates df) ≤ nrows df.
Proof.
  unfold drop_duplicates. destruct (empty df); [done|]. apply keep_rows_nrows.
Qed.

Lemma setitem_nrows df c s : nrows (setitem df c s) = nrows df.
Proof. unfold setitem. by case_bool_decide. Qed.

Lemma filter_label_notin (c : string) (l : list (string * series)) :
  c ∉ l.*1 -> filter (fun p : string * series => p.1 = c) l = [].
Proof.
  induction l as [|[a s] l IH]; [done|]. simpl. intros Hn.
  rewrite not_elem_of_cons in Hn. destruct Hn as [Hne Hn].
  rewrite filter_cons_False by (simpl; congruence). by apply IH.
Qed.

Lemma getitem_middle n pre c s post :
  NoDup (pre.*1 ++ c :: post.*1) ->
  getitem (Table n (pre ++ (c, s) :: post)) c = Column s.
Proof.
  intros Hnd.
  apply NoDup_app in Hnd as (_ & Hpre & Hpost).
  apply NoDup_cons in Hpost as [Hpost _].
  unfold getitem. simpl. rewrite filter_app, filter_cons_True by done.
  rewrite !filter_label_notin; [done|done|].
  intros Hin. apply (Hpre c Hin). left.
Qed.

Lemma setitem_middle n pre c s s' post :
  NoDup (pre.*1 ++ c :: post.*1) ->
  setitem (Table n (pre ++ (c, s) :: post)) c s'
  = Table n (pre ++ (c, s') :: post).
Proof.
  intros Hnd.
  apply NoDup_app in Hnd as (_ & Hpre & Hpost).
  apply NoDup_cons in Hpost as [Hpost _].
  unfold setitem, names. simpl.
  rewrite bool_decide_eq_true_2
    by (rewrite fmap_app, fmap_cons; apply elem_of_app; right; left).
  f_equal. rewrite fmap_app, fmap_cons. simpl.
  rewrite bool_decide_eq_true_2 by done. f_equal; [|f_equal].
  - rewrite <-(list_fmap_id pre) at 2. apply list_fmap_ext.
    intros i [a x] Hi. simpl. case_bool_decide as Ha; [|done].
    simpl in Ha. subst a. exfalso. apply (Hpre c); [|left].
    apply list_elem_of_fmap. exists (c, x). split; [done|].
    by eapply list_elem_of_lookup_2.
  - rewrite <-(list_fmap_id post) at 2. apply list_fmap_ext.
    intros i [a x] Hi. simpl. case_bool_decide as Ha; [|done].
    simpl in Ha. subst a. exfalso. apply Hpost.
    apply list_elem_of_fmap. exists (c, x). split; [done|].
    by eapply list_elem_of_lookup_2.
Qed.

(** ** The order of strings and the mode *)

#[global] Instance str_le_trans : Transitive str_le.
Proof.
  intros a. induction a as [|ca a IH]; intros [|cb b] [|cc c];
    unfold str_le, String.leb; simpl; try done.
  unfold Ascii.compare.
  destruct (N.compare_spec (N_of_ascii ca) (N_of_ascii cb)),
    (N.compare_spec (N_of_ascii cb) (N_of_ascii cc)),
    (N.compare_spec (N_of_ascii ca) (N_of_ascii cc)); try done; try lia.
  apply IH.
Qed.

#[global] Instance str_le_total : Total str_le.
Proof. intros a b. apply String.leb_total. Qed.

#[global] Instance str_le_antisym : AntiSymm (=) str_le.
Proof. intros a b Hab Hba. by apply String.leb_antisym. Qed.

Section modes.
Context {A : Type} `{EqDecision A} (R : relation A) `{forall x y, Decision (R x y)}.
Context `{!Transitive R, !Total R}.

Definition most_frequent (vals : list A) (v : A) : Prop :=
  v ∈ vals /\ forall w, w ∈ vals -> occurrences w vals <= occurrences v vals.

Lemma elem_of_mode xs v :
  v ∈ mode R xs <-> most_frequent (present xs) v.
Proof.
  unfold mode, most_frequent.
  rewrite merge_sort_Permutation, elem_of_remove_dups, list_elem_of_filter.
  set (vals := present xs).
  split.
  - intros [Htop Hv]. split; [done|]. intros w Hw. rewrite Htop.
    apply max_list_elem_of_le, list_elem_of_fmap. by exists w.
  - intros [Hv Hmax]. split; [|done]. apply Nat.le_antisymm.
    + apply max_list_elem_of_le, list_elem_of_fmap. by exists v.
    + assert (Hne : (fun v => occurrences v vals) <$> vals ≠ [])
        by (destruct vals; [by apply elem_of_nil in Hv|done]).
      apply max_list_elem_of in Hne.
      apply list_elem_of_fmap in Hne as (w & -> & Hw). by apply Hmax.
Qed.

Lemma mode_nil xs : mode R xs = [] <-> present xs = [].
Proof.
  split.
  - intros Hm. destruct (present xs) as [|v vals] eqn:Hp; [done|].
    exfalso.
    assert (Hne : (fun w => occurrences w (v :: vals)) <$> (v :: vals) ≠ []) by done.
    apply max_list_elem_of in Hne.
    apply list_elem_of_fmap in Hne as (w & Hw & Hin).
    assert (Hw' : w ∈ mode R xs).
    { unfold mode. rewrite merge_sort_Permutation, elem_of_remove_dups,
        list_elem_of_filter, Hp. done. }
    rewrite Hm in Hw'. by apply elem_of_nil in Hw'.
  - intros Hp. unfold mode. rewrite Hp. done.
Qed.

Lemma head_mode_least xs v :
  head (mode R xs) = Some v ->
  most_frequent (present xs) v
  /\ forall w, most_frequent (present xs) w -> R v w.
Proof.
  intros Hh. pose proof (StronglySorted_merge_sort R
    (remove_dups (filter (fun v => occurrences v (present xs)
       = max_list ((fun v => occurrences v (present xs)) <$> present xs))
       (present xs)))) as Hs.
  fold (mode R xs) in Hs.
  assert (Hin : forall w, w ∈ mode R xs <-> most_frequent (present xs) w)
    by (intros; apply elem_of_mode).
  destruct (mode R xs) as [|v' l]; [done|]. simplify_eq/=.
  split; [apply Hin; left|].
  intros w Hw. apply Hin in Hw. apply elem_of_cons in Hw as [->|Hw].
  - destruct (total R v v); done.
  - apply StronglySorted_inv in Hs as [_ Hall].
    rewrite Forall_forall in Hall. by apply Hall.
Qed.

End modes.

(** ** The two loops of the cleaner, column by column *)

(** What the imputation loop does to one column, and what it adds to the
    two counters. *)
Definition impute_series (s : series) : series :=
  match s with
  | Numeric xs => if any_na xs then Numeric (fillna (median xs) xs) else s
  | Textual xs =>
      if any_na xs then Textual (fillna (Some (text_fill xs)) xs) else s
  | Temporal xs =>
      if any_na xs then
        match head (mode Z.le xs) with
        | Some t => Temporal (fillna (Some t) xs)
        | None => Textual ((fun _ => Some "unknown"%string) <$> xs)
        end
      else s
  end.

Definition numeric_na (s : series) : nat :=
  match s with
  | Numeric xs => count_na xs
  | _ => 0
  end.

Definition text_na (s : series) : nat :=
  match s with
  | Numeric _ => 0
  | Textual xs | Temporal xs => count_na xs
  end.

Definition map_columns (f : string -> series -> series) (df : table) : table :=
  Table (nrows df) ((fun p : string * series => (p.1, f p.1 p.2)) <$> columns df).

Lemma any_na_false {A} (xs : list (option A)) :
  any_na xs = false -> count_na xs = 0.
Proof.
  unfold any_na. intros Hn. apply negb_false_iff in Hn.
  by apply bool_decide_eq_true in Hn.
Qed.

Lemma impute_column_middle n pre c s post a b :
  NoDup (pre.*1 ++ c :: post.*1) ->
  impute_column c (Table n (pre ++ (c, s) :: post), a, b)
  = Ok (Table n (pre ++ (c, impute_series s) :: post),
        a + numeric_na s, b + text_na s).
Proof.
  intros Hnd. unfold impute_column.
  rewrite (getitem_middle _ _ _ _ _ Hnd).
  destruct s as [xs|xs|xs]; simpl; destruct (any_na xs) eqn:Hna;
    rewrite ?(any_na_false _ Hna), ?Nat.add_0_r;
    try destruct (head (mode Z.le xs));
    by rewrite ?(setitem_middle _ _ _ _ _ _ Hnd).
Qed.

Lemma for_columns_impute n pre post a b :
  NoDup (pre.*1 ++ post.*1) ->
  for_columns impute_column post.*1 (Table n (pre ++ post), a, b)
  = Ok (Table n (pre ++ (prod_map id impute_series <$> post)),
        a + sum_list (numeric_na <$> post.*2),
        b + sum_list (text_na <$> post.*2)).
Proof.
  revert pre a b. induction post as [|[c s] post IH]; intros pre a b Hnd.
  - simpl. by rewrite !Nat.add_0_r.
  - rewrite !fmap_cons. cbn [for_columns fst snd].
    rewrite impute_column_middle by done.
    rewrite (cons_middle _ pre post), app_assoc.
    rewrite IH.
    + rewrite <-!app_assoc. simpl. by rewrite !Nat.add_assoc.
    + rewrite fmap_app, <-app_assoc. done.
Qed.

Lemma handle_missing_columnwise df :
  NoDup (names df) ->
  handle_missing df
  = Ok (map_columns (fun _ => impute_series) df,
        sum_list (numeric_na <$> (columns df).*2),
        sum_list (text_na <$> (columns df).*2)).
Proof.
  intros Hnd. unfold handle_missing, names. destruct df as [n cols].
  simpl in *. pose proof (for_columns_impute n [] cols 0 0 Hnd) as Hl.
  simpl in Hl. by rewrite Hl.
Qed.

Section standardize.
Context `{Pandas}.

(** What the standardization loop does to one column. *)
Definition standardize_series (col : string) (s : series) : series :=
  let s := if is_datelike col then default s (to_datetime s) else s in
  let s := match s with
           | Textual xs => Textual (astype_str_lower xs)
           | _ => s
           end in
  match s with
  | Numeric _ => s
  | _ => if mostly_numeric (to_numeric s) then Numeric (to_numeric s) else s
  end.

Lemma standardize_column_middle n pre c s post :
  NoDup (pre.*1 ++ c :: post.*1) ->
  standardize_column (Table n (pre ++ (c, s) :: post)) c
  = Table n (pre ++ (c, standardize_series c s) :: post).
Proof.
  intros Hnd. unfold standardize_column, standardize_series.
  assert (Hstep : forall s0 : series,
    (let df := match getitem (Table n (pre ++ (c, s0) :: post)) c with
               | Column (Textual xs) =>
                   setitem (Table n (pre ++ (c, s0) :: post)) c
                     (Textual (astype_str_lower xs))
               | _ => Table n (pre ++ (c, s0) :: post)
               end in
     match getitem df c with
     | Column (Numeric _) => df
     | Column s1 =>
         if mostly_numeric (to_numeric s1)
         then setitem df c (Numeric (to_numeric s1)) else df
     | _ => df
     end)
    = Table n (pre ++ (c,
        let s := match s0 with
                 | Textual xs => Textual (astype_str_lower xs)
                 | _ => s0
                 end in
        match s with
        | Numeric _ => s
        | _ => if mostly_numeric (to_numeric s) then Numeric (to_numeric s) else s
        end) :: post)).
  { intros s0. cbv zeta. rewrite (getitem_middle _ _ _ _ _ Hnd).
    destruct s0 as [xs|xs|xs];
      rewrite ?(setitem_middle _ _ _ _ _ _ Hnd), ?(getitem_middle _ _ _ _ _ Hnd);
      try done; case_match;
      by rewrite ?(setitem_middle _ _ _ _ _ _ Hnd). }
  cbv zeta in *. destruct (is_datelike c); [|apply Hstep].
  rewrite (getitem_middle _ _ _ _ _ Hnd).
  destruct (to_datetime s) as [s'|]; simpl; [|apply Hstep].
  rewrite (setitem_middle _ _ _ _ _ _ Hnd). apply Hstep.
Qed.

Lemma foldl_standardize n pre post :
  NoDup (pre.*1 ++ post.*1) ->
  foldl standardize_column (Table n (pre ++ post)) post.*1
  = Table n (pre ++ ((fun p : string * series =>
                        (p.1, standardize_series p.1 p.2)) <$> post)).
Proof.
  revert pre. induction post as [|[c s] post IH]; intros pre Hnd; [done|].
  rewrite !fmap_cons. cbn [foldl fst snd].
  rewrite standardize_column_middle by done.
  rewrite (cons_middle _ pre post), app_assoc, IH.
  - by rewrite <-!app_assoc.
  - by rewrite fmap_app, <-app_assoc.
Qed.

Lemma standardize_columnwise df :
  NoDup (names df) ->
  standardize df = map_columns standardize_series df.
Proof.
  intros Hnd. unfold standardize, names. destruct df as [n cols].
  simpl in *. apply (foldl_standardize n [] cols Hnd).
Qed.

End standardize.

(** ** Lookups and assignments by label *)

Lemma getitem_unique df c s :
  NoDup (names df) -> (c, s) ∈ columns df -> getitem df c = Column s.
Proof.
  destruct df as [n cols]. unfold names. simpl. intros Hnd Hin.
  apply list_elem_of_split in Hin as (pre & post & ->).
  apply getitem_middle. by rewrite fmap_app, fmap_cons in Hnd.
Qed.

Lemma getitem_label df c :
  NoDup (names df) -> c ∈ names df -> exists s, getitem df c = Column s.
Proof.
  intros Hnd Hin. apply list_elem_of_fmap in Hin as ([c' s] & -> & Hin).
  exists s. by apply getitem_unique.
Qed.

Lemma getitem_absent df c : c ∉ names df -> getitem df c = Absent.
Proof. intros Hn. unfold getitem. by rewrite filter_label_notin. Qed.

Lemma getitem_column_elem df c s :
  getitem df c = Column s -> (c, s) ∈ columns df.
Proof.
  unfold getitem. intros Hg.
  destruct (filter _ (columns df)) as [|[c' s'] [|??]] eqn:Hf; [done| |done].
  simpl in Hg. injection Hg as <-.
  assert (Hin : (c', s') ∈ filter (fun p : string * series => p.1 = c) (columns df))
    by (rewrite Hf; left).
  apply list_elem_of_filter in Hin as [Heq Hin]. simpl in Heq. by subst.
Qed.

Lemma setitem_names_old df c s :
  c ∈ names df -> names (setitem df c s) = names df.
Proof.
  intros Hin. unfold setitem. rewrite bool_decide_eq_true_2 by done.
  unfold names. simpl. rewrite <-list_fmap_compose.
  apply list_fmap_ext. intros i [a x] _. simpl. by case_bool_decide.
Qed.

Lemma setitem_names_new df c s :
  c ∉ names df -> names (setitem df c s) = names df ++ [c].
Proof.
  intros Hin. unfold setitem. rewrite bool_decide_eq_false_2 by done.
  unfold names. simpl. by rewrite fmap_app.
Qed.

Lemma setitem_NoDup df c s : NoDup (names df) -> NoDup (names (setitem df c s)).
Proof.
  intros Hnd. destruct (decide (c ∈ names df)).
  - by rewrite setitem_names_old.
  - rewrite setitem_names_new by done. apply NoDup_app. split_and!; [done| |].
    + intros x Hx Hx'. apply list_elem_of_singleton in Hx'. by subst.
    + apply NoDup_singleton.
Qed.

Lemma setitem_label df c s : c ∈ names (setitem df c s).
Proof.
  destruct (decide (c ∈ names df)).
  - by rewrite setitem_names_old.
  - rewrite setitem_names_new by done. apply elem_of_app. right. left.
Qed.

Lemma getitem_setitem df c s :
  NoDup (names df) -> getitem (setitem df c s) c = Column s.
Proof.
  intros Hnd. destruct (decide (c ∈ names df)) as [Hin|Hin].
  - apply list_elem_of_fmap in Hin as ([c' s'] & -> & Hin).
    destruct df as [n cols]. simpl in *.
    apply list_elem_of_split in Hin as (pre & post & ->).
    unfold names in Hnd. simpl in Hnd. rewrite fmap_app, fmap_cons in Hnd.
    rewrite setitem_middle by done. by apply getitem_middle.
  - unfold setitem. rewrite bool_decide_eq_false_2 by done.
    destruct df as [n cols]. simpl in *.
    apply (getitem_middle n cols c s []). simpl.
    unfold names in *. simpl in *. apply NoDup_app. split_and!; [done| |].
    + intros x Hx Hx'. apply list_elem_of_singleton in Hx'. by subst.
    + apply NoDup_singleton.
Qed.

Lemma getitem_setitem_ne df c c' s :
  c ≠ c' -> getitem (setitem df c s) c' = getitem df c'.
Proof.
  intros Hne. unfold getitem, setitem. case_bool_decide; simpl.
  - assert (Hf : filter (fun p : string * series => p.1 = c')
                   ((fun p : string * series =>
                       if bool_decide (p.1 = c) then (c, s) else p) <$> columns df)
                 = filter (fun p : string * series => p.1 = c') (columns df)).
    { induction (columns df) as [|[a x] l IH]; [done|].
      rewrite fmap_cons. simpl. case_bool_decide as Ha; simpl in Ha.
      + subst a. rewrite !filter_cons_False by (simpl; congruence). done.
      + destruct (decide (a = c')) as [->|].
        * rewrite !filter_cons_True by done. by rewrite IH.
        * rewrite !filter_cons_False by done. done. }
    by rewrite Hf.
  - rewrite filter_app. rewrite (filter_cons_False _ (c, s)) by (simpl; congruence).
    rewrite filter_nil, app_nil_r. done.
Qed.

(** ** The derived column *)

Section derived_column.
Context `{Pandas}.

Lemma next_in_Some cands cols c :
  next_in cands cols = Some c -> c ∈ cands /\ c ∈ cols.
Proof.
  unfold next_in. intros Hh.
  assert (Hin : c ∈ filter (fun c => c ∈ cands) cols).
  { destruct (filter _ cols); simplify_eq/=. left. }
  by apply list_elem_of_filter in Hin.
Qed.


(** The number a cell of the column [s] stands for under
    [pd.to_numeric(s, errors="coerce").fillna(0)]. *)
Definition coerce_cell (s : series) (c : cell) : Qc :=
  match c with
  | Num q => q
  | Text t => default 0%Qc (to_numeric_str t)
  | Stamp z => Qc_of_Z z
  | Missing =>
      match s with
      | Temporal _ => Qc_of_Z iNaT
      | _ => 0%Qc
      end
  end.

Lemma numeric_or_zero_cells s :
  numeric_or_zero s = coerce_cell s <$> cells s.
Proof.
  unfold numeric_or_zero, to_numeric, cells.
  destruct s as [xs|xs|xs]; rewrite <-!list_fmap_compose;
    apply list_fmap_ext; intros i [x|] _; done.
Qed.

Definition price_like : list string := ["price"; "unit_price"]%string.
Definition quantity_like : list string := ["quantity"; "qty"]%string.


End derived_column.

(** ** The library contracts hold for the implementations *)

Example parse_decimal_examples :
  parse_decimal "5" = Some (Qc_of_Z 5)
  /\ parse_decimal "-5" = Some (Qc_of_Z (-5))
  /\ parse_decimal "1.5" = Some (Q2Qc (3 # 2))
  /\ parse_decimal "x" = None /\ parse_decimal "" = None.
Proof. repeat split; apply (bool_decide_unpack _); by vm_compute. Qed.

Lemma take_rows_zip_seq (xs : list Qc) (l : list (Qc * nat)) :
  Forall (fun p => xs !! p.2 = Some p.1) l -> take_rows l.*2 xs = l.*1.
Proof.
  induction 1 as [|[x i] l Hx _ IH]; [done|].
  unfold take_rows in *. rewrite !fmap_cons. simpl in Hx. simpl.
  rewrite Hx. simpl. f_equal. exact IH.
Qed.

Lemma Forall_zip_seq (xs : list Qc) :
  Forall (fun p => xs !! p.2 = Some p.1) (zip xs (seq 0 (length xs))).
Proof.
  apply Forall_forall. intros [x i] Hin.
  apply list_elem_of_lookup in Hin as [k Hk].
  apply lookup_zip_with_Some in Hk as (x' & i' & Heq & Hx & Hi).
  simplify_eq. apply lookup_seq in Hi as [-> _]. done.
Qed.

Section argsort_by.
Context (R : relation (Qc * nat)) `{forall x y, Decision (R x y)}.
Context `{!Total R} (R_le : forall a b, R a b -> (a.1 <= b.1)%Qc).

Lemma argsort_by_perm xs : argsort_by R xs ≡ₚ seq 0 (length xs).
Proof.
  unfold argsort_by. rewrite merge_sort_Permutation.
  by rewrite snd_zip by (by rewrite length_seq).
Qed.

Lemma argsort_by_sorted xs : Sorted Qcle (take_rows (argsort_by R xs) xs).
Proof.
  unfold argsort_by. rewrite take_rows_zip_seq.
  - pose proof (Sorted_merge_sort R (zip xs (seq 0 (length xs)))) as Hs.
    induction Hs as [|a l Hs IH Hhd]; [constructor|].
    rewrite fmap_cons. constructor; [done|].
    destruct Hhd; constructor. by apply R_le.
  - eapply Forall_forall. intros p Hp.
    rewrite merge_sort_Permutation in Hp.
    revert p Hp. apply Forall_forall, Forall_zip_seq.
Qed.

End argsort_by.

#[global] Instance by_value_then_earlier_total : Total by_value_then_earlier.
Proof.
  intros [a i] [b j]. unfold by_value_then_earlier. simpl.
  destruct (Qclt_le_dec a b) as [?|Hba]; [by left; left|].
  destruct (Qclt_le_dec b a) as [?|Hab]; [by right; left|].
  assert (a = b) by (by apply Qcle_antisym). subst.
  destruct (Nat.le_gt_cases i j); [left|right]; right; split; auto with lia.
Qed.

Lemma by_value_then_earlier_le a b :
  by_value_then_earlier a b -> (a.1 <= b.1)%Qc.
Proof.
  intros [Hlt|[-> _]]; [by apply Qclt_le_weak|apply Qcle_refl].
Qed.

#[global] Instance by_value_then_later_total : Total by_value_then_later.
Proof.
  intros [a i] [b j]. unfold by_value_then_later. simpl.
  destruct (Qclt_le_dec a b) as [?|Hba]; [by left; left|].
  destruct (Qclt_le_dec b a) as [?|Hab]; [by right; left|].
  assert (a = b) by (by apply Qcle_antisym). subst.
  destruct (Nat.le_gt_cases j i); [left|right]; right; split; auto with lia.
Qed.


Lemma no_dates_length {A} (xs : list (option A)) ys :
  no_dates xs = Some ys -> length ys = length xs.
Proof. intros [= <-]. by rewrite length_fmap. Qed.

(** An environment whose sort keeps ties in place. *)
Definition stable_pandas : Pandas := {|
  argsort := argsort_by by_value_then_earlier;
  argsort_perm := argsort_by_perm by_value_then_earlier;
  argsort_sorted := argsort_by_sorted by_value_then_earlier by_value_then_earlier_le;
  set_order := fun l => l;
  set_order_elem := fun l x => reflexivity _;
  to_numeric_str := parse_decimal;
  to_datetime_text := no_dates;
  to_datetime_text_length := no_dates_length;
  to_datetime_num := no_dates;
  to_datetime_num_length := no_dates_length
|}.


(** ** Reordering rows *)

Lemma take_rows_seq {A} (l : list A) k m :
  take_rows (seq k m) l = take m (drop k l).
Proof.
  revert k. induction m as [|m IH]; intros k; [done|].
  unfold take_rows in *. simpl. destruct (l !! k) as [x|] eqn:Hk; simpl.
  - rewrite IH, (drop_S _ _ _ Hk). reflexivity.
  - rewrite IH. apply lookup_ge_None_1 in Hk.
    rewrite !drop_ge by lia. by rewrite !take_nil.
Qed.

Lemma take_rows_all {A} (l : list A) : take_rows (seq 0 (length l)) l = l.
Proof. rewrite take_rows_seq. simpl. by rewrite take_ge. Qed.

#[global] Instance take_rows_proper {A} :
  Proper ((≡ₚ) ==> (=) ==> (≡ₚ)) (@take_rows A).
Proof. intros idx idx' Hp l ? <-. unfold take_rows. by rewrite Hp. Qed.

Lemma take_rows_perm {A} (idx : list nat) (l : list A) :
  idx ≡ₚ seq 0 (length l) -> take_rows idx l ≡ₚ l.
Proof. intros ->. by rewrite take_rows_all. Qed.

Lemma take_rows_length_le {A} (idx : list nat) (l : list A) m :
  idx ≡ₚ seq 0 m -> length (take_rows idx l) <= length l.
Proof.
  intros ->. rewrite take_rows_seq, drop_0, length_take. lia.
Qed.

Lemma take_rows_cons {A} i (idx : list nat) (l : list A) :
  take_rows (i :: idx) l
  = match l !! i with
    | Some x => x :: take_rows idx l
    | None => take_rows idx l
    end.
Proof. reflexivity. Qed.

Lemma take_rows_app {A} (idx idx' : list nat) (l : list A) :
  take_rows (idx ++ idx') l = take_rows idx l ++ take_rows idx' l.
Proof. apply omap_app. Qed.

Lemma take_rows_rev {A} (idx : list nat) (l : list A) :
  take_rows (rev idx) l = rev (take_rows idx l).
Proof.
  induction idx as [|i idx IH]; [done|].
  simpl rev. rewrite take_rows_app, IH, !take_rows_cons.
  destruct (l !! i); simpl; [done|]. by rewrite app_nil_r.
Qed.

Lemma take_rows_fmap {A B} (f : A -> B) (idx : list nat) (l : list A) :
  take_rows idx (f <$> l) = f <$> take_rows idx l.
Proof.
  induction idx as [|i idx IH]; [done|].
  rewrite !take_rows_cons, list_lookup_fmap, IH. by destruct (l !! i).
Qed.

Lemma filter_ext_in {A} (P Q : A -> Prop)
    `{!forall x, Decision (P x), !forall x, Decision (Q x)} (l : list A) :
  (forall x, x ∈ l -> P x <-> Q x) -> filter P l = filter Q l.
Proof.
  induction l as [|a l IH]; intros HPQ; [done|].
  rewrite !filter_cons. destruct (decide (P a)) as [Hp|Hp].
  - rewrite decide_True by (apply HPQ; [left|done]).
    f_equal. apply IH. intros i Hi. apply HPQ. by right.
  - rewrite decide_False by (rewrite <-HPQ; [done|left]).
    apply IH. intros i Hi. apply HPQ. by right.
Qed.

Lemma take_rows_app_l {A} (idx : list nat) (l l' : list A) :
  Forall (fun j => j < length l) idx ->
  take_rows idx (l ++ l') = take_rows idx l.
Proof.
  induction 1 as [|j idx Hj _ IH]; [done|].
  by rewrite !take_rows_cons, lookup_app_l, IH.
Qed.

Lemma take_rows_in_range {A} (idx : list nat) (l : list A) :
  Forall (fun j => j < length l) idx ->
  Forall2 (fun j x => l !! j = Some x) idx (take_rows idx l).
Proof.
  induction 1 as [|j idx Hj _ IH]; [constructor|].
  rewrite take_rows_cons. apply lookup_lt_is_Some_2 in Hj as [x Hx].
  rewrite Hx. by constructor.
Qed.

Lemma take_rows_compose {A} (order idx : list nat) (l : list A) :
  Forall (fun j => j < length l) idx ->
  take_rows (take_rows order idx) l = take_rows order (take_rows idx l).
Proof.
  intros Hr. pose proof (take_rows_in_range idx l Hr) as H2.
  induction order as [|i order IH]; [done|].
  rewrite !take_rows_cons. destruct (idx !! i) as [j|] eqn:Hi.
  - destruct (Forall2_lookup_l _ _ _ _ _ H2 Hi) as (x & Hx & Hj).
    by rewrite Hx, take_rows_cons, Hj, IH.
  - rewrite (Forall2_lookup_None_l _ _ _ _ H2 Hi) || idtac.
    assert ((take_rows idx l) !! i = None) as ->; [|done].
    apply lookup_ge_None_2. rewrite <-(Forall2_length _ _ _ H2).
    by apply lookup_ge_None_1.
Qed.

Lemma take_rows_filter_positions {A} (P : nat -> Prop) (Q : A -> Prop)
    `{!forall i, Decision (P i), !forall x, Decision (Q x)} (l : list A) :
  (forall i x, l !! i = Some x -> P i <-> Q x) ->
  take_rows (filter P (seq 0 (length l))) l = filter Q l.
Proof.
  induction l as [|x l IH] using rev_ind; intros HPQ; [done|].
  rewrite length_app. simpl. rewrite seq_app, !filter_app, take_rows_app.
  f_equal.
  - rewrite <-IH.
    + apply take_rows_app_l. apply Forall_forall. intros i Hi.
      apply list_elem_of_filter in Hi as [_ Hi]. apply elem_of_seq in Hi. lia.
    + intros i y Hi. apply HPQ. by apply lookup_app_l_Some.
  - simpl. rewrite !filter_cons, !filter_nil.
    assert (Hx : (l ++ [x]) !! length l = Some x)
      by (by rewrite lookup_app_r, Nat.sub_diag).
    destruct (decide (P (length l))) as [Hp|Hp].
    + rewrite decide_True by (by apply (HPQ _ _ Hx)).
      by rewrite take_rows_cons, Hx.
    + rewrite decide_False by (by rewrite <-(HPQ _ _ Hx)). done.
Qed.

Lemma filter_present {A} (xs : list (option A)) :
  filter (fun o => mjoin (Some o) <> None) xs = Some <$> present xs.
Proof.
  induction xs as [|[x|] xs IH]; [done| |].
  - rewrite filter_cons_True by done. by rewrite IH.
  - rewrite filter_cons_False by (intros Hn; by apply Hn). by rewrite IH.
Qed.

Lemma present_cons {A} (o : option A) (xs : list (option A)) :
  present (o :: xs)
  = match o with
    | Some x => x :: present xs
    | None => present xs
    end.
Proof. by destruct o. Qed.

Lemma present_length_le {A} (xs : list (option A)) :
  length (present xs) <= length xs.
Proof.
  induction xs as [|o xs IH]; [done|].
  rewrite present_cons. destruct o; simpl; lia.
Qed.

Lemma filter_missing {A} (xs : list (option A)) :
  filter (fun o => mjoin (Some o) = None) xs = replicate (count_na xs) None.
Proof.
  unfold count_na. induction xs as [|[x|] xs IH]; [done| |].
  - rewrite filter_cons_False by done. by rewrite IH.
  - rewrite filter_cons_True by done. rewrite IH, present_cons.
    pose proof (present_length_le xs). simpl length.
    replace (S (length xs) - length (present xs))
      with (S (length xs - length (present xs))) by lia. done.
Qed.

Lemma fmap_rev_list {A B} (f : A -> B) (l : list A) :
  f <$> rev l = rev (f <$> l).
Proof.
  induction l as [|x l IH]; [done|]. simpl. by rewrite fmap_app, IH.
Qed.

Lemma StronglySorted_rev {A} (R : relation A) (l : list A) :
  StronglySorted R l -> StronglySorted (flip R) (rev l).
Proof.
  induction 1 as [|x l Hl IH Hx]; [constructor|]. simpl.
  apply StronglySorted_app_2; [|done|repeat constructor].
  intros a b Ha Hb. apply list_elem_of_singleton in Hb as ->.
  rewrite Forall_forall in Hx. apply Hx.
  apply list_elem_of_In, in_rev. by apply list_elem_of_In.
Qed.

Section sorting.
Context `{Pandas}.

Definition non_nan_positions (xs : list (option Qc)) : list nat :=
  filter (fun i => ~ mjoin (xs !! i) = None) (seq 0 (length xs)).

Lemma non_nan_positions_range xs :
  Forall (fun j => j < length xs) (non_nan_positions xs).
Proof.
  apply Forall_forall. intros i Hi.
  apply list_elem_of_filter in Hi as [_ Hi]. apply elem_of_seq in Hi. lia.
Qed.

Lemma take_rows_non_nan xs :
  take_rows (non_nan_positions xs) xs = Some <$> present xs.
Proof.
  unfold non_nan_positions. etrans; [|apply filter_present].
  apply take_rows_filter_positions. by intros i x ->.
Qed.

Lemma non_nan_positions_length xs :
  length (non_nan_positions xs) = length (present xs).
Proof.
  pose proof (take_rows_in_range _ _ (non_nan_positions_range xs)) as H2.
  apply Forall2_length in H2. rewrite H2, take_rows_non_nan.
  by rewrite length_fmap.
Qed.

Lemma nargsort_desc_perm xs : nargsort_desc xs ≡ₚ seq 0 (length xs).
Proof.
  unfold nargsort_desc. fold (non_nan_positions xs).
  rewrite <-Permutation_rev. rewrite take_rows_perm.
  - rewrite <-Permutation_rev. unfold non_nan_positions.
    rewrite (comm (++)). apply filter_app_complement.
  - rewrite argsort_perm. by rewrite !length_rev, non_nan_positions_length.
Qed.

(** The totals in the order [nargsort] gives: the values that are
    present, sorted and reversed, then the missing ones. *)
Lemma take_rows_nargsort_desc xs :
  take_rows (nargsort_desc xs) xs
  = (Some <$> rev (take_rows (argsort (rev (present xs))) (rev (present xs))))
    ++ replicate (count_na xs) None.
Proof.
  unfold nargsort_desc. fold (non_nan_positions xs).
  rewrite take_rows_app, take_rows_rev. f_equal.
  - rewrite take_rows_compose.
    + rewrite take_rows_rev, take_rows_non_nan, <-fmap_rev_list, take_rows_fmap.
      by rewrite fmap_rev_list.
    + apply Forall_rev, non_nan_positions_range.
  - etrans; [|apply filter_missing].
    apply take_rows_filter_positions. by intros i x ->.
Qed.

Lemma nargsort_desc_descending xs :
  StronglySorted (flip Qcle) (present (take_rows (nargsort_desc xs) xs)).
Proof.
  rewrite take_rows_nargsort_desc.
  assert (Hp : forall (l : list Qc) n,
    present ((Some <$> l) ++ replicate n None) = l).
  { intros l n. induction l as [|x l IH].
    - induction n as [|n IHn]; [done|].
      change (present (None :: replicate n None) = @nil Qc).
      by rewrite present_cons.
    - rewrite fmap_cons. change (present (Some x :: ((Some <$> l) ++ replicate n None)) = x :: l).
      by rewrite present_cons, IH. }
  rewrite Hp. apply StronglySorted_rev.
  apply Sorted_StronglySorted; [apply _|]. apply argsort_sorted.
Qed.

End sorting.

(** ** Grouping and aggregation *)

(** The table invariant: every column has one cell per row. *)
Definition well_formed (df : table) : Prop :=
  Forall (fun p : string * series => size p.2 = nrows df) (columns df).




Lemma filter_label_fmap (g : series -> series) c (l : list (string * series)) :
  filter (fun p : string * series => p.1 = c) (prod_map id g <$> l)
  = prod_map id g <$> filter (fun p : string * series => p.1 = c) l.
Proof.
  induction l as [|[a s] l IH]; [done|]. rewrite fmap_cons.
  destruct (decide (a = c)) as [->|].
  - rewrite !filter_cons_True by done. by rewrite fmap_cons, IH.
  - rewrite !filter_cons_False by done. done.
Qed.

Lemma getitem_map_rows f df c :
  getitem (map_rows f df) c
  = match getitem df c with
    | Absent => Absent
    | Column s => Column (on_rows f s)
    | Columns ss => Columns (on_rows f <$> ss)
    end.
Proof.
  unfold getitem, map_rows. simpl. rewrite filter_label_fmap.
  destruct (filter _ (columns df)) as [|[a s] [|[a' s'] l]]; try done.
  simpl. do 3 f_equal. rewrite <-!list_fmap_compose.
  apply list_fmap_ext. by intros i [??] _.
Qed.

Section keys.




End keys.



(** ** What the transformer returns *)

Section transformer.
Context `{Pandas}.

Lemma derive_total_returns df :
  NoDup (names df) ->
  exists ts,
    derive_total df = Ok (setitem df "total" (Numeric (Some <$> ts)))
    /\ (well_formed df -> length ts = nrows df).
Proof.
  intros Hnd. unfold derive_total.
  destruct (next_in _ _) as [p|] eqn:Hp;
    [destruct (next_in ["quantity"; "qty"]%string _) as [q|] eqn:Hq|].
  - apply next_in_Some in Hp as [_ Hpin]. apply next_in_Some in Hq as [_ Hqin].
    rewrite set_order_elem in Hpin, Hqin.
    destruct (getitem_label df p Hnd Hpin) as [price Hprice].
    destruct (getitem_label df q Hnd Hqin) as [qty Hqty].
    rewrite Hprice, Hqty.
    exists (zip_with Qcmult (numeric_or_zero price) (numeric_or_zero qty)).
    split.
    + do 3 f_equal. generalize (numeric_or_zero price) (numeric_or_zero qty).
      intros l. induction l as [|a l IH]; intros [|b l']; simpl; [done..|].
      by rewrite IH.
    + intros Hwf. unfold well_formed in Hwf. rewrite Forall_forall in Hwf.
      apply getitem_column_elem, Hwf in Hprice, Hqty. simpl in *.
      rewrite length_zip_with, !numeric_or_zero_cells, !length_fmap.
      unfold size in *. lia.
  - exists (replicate (nrows df) 1%Qc).
    split; [by rewrite fmap_replicate|by rewrite length_replicate].
  - exists (replicate (nrows df) 1%Qc).
    split; [by rewrite fmap_replicate|by rewrite length_replicate].
Qed.

Lemma select_group_col_returns labels :
  labels <> [] ->
  exists g, select_group_col labels = Ok g /\ g ∈ labels.
Proof.
  intros Hne. unfold select_group_col.
  destruct (filter _ _) as [|c l] eqn:Hf.
  - destruct labels as [|first rest]; [done|]. exists first. split; [done|left].
  - exists c. split; [done|].
    assert (Hc : c ∈ filter (fun c => c ∈ labels)
                   ["product"; "item"; "category"]%string)
      by (rewrite Hf; left).
    by apply list_elem_of_filter in Hc as [Hc _].
Qed.

Lemma setitem_same df c s :
  NoDup (names df) -> (c, s) ∈ columns df -> setitem df c s = df.
Proof.
  destruct df as [n cols]. unfold names. simpl. intros Hnd Hin.
  apply list_elem_of_split in Hin as (pre & post & ->).
  apply setitem_middle. by rewrite fmap_app, fmap_cons in Hnd.
Qed.

Lemma coerce_aggregates_aggregate g k totals :
  g ∉ agg_labels ->
  coerce_aggregates (aggregate g k totals) = Ok (aggregate g k totals).
Proof.
  intros Hg. unfold agg_labels in Hg.
  rewrite !not_elem_of_cons in Hg. destruct Hg as (H1 & H2 & H3 & _).
  assert (Hnd : NoDup (names (aggregate g k totals))).
  { unfold names, aggregate. simpl. constructor.
    - rewrite !not_elem_of_cons. split_and!; try done. apply not_elem_of_nil.
    - by apply (bool_decide_unpack _). }
  unfold coerce_aggregates. cbn [for_columns].
  erewrite (getitem_unique _ "total_sales"); [|done|].
  2: { unfold aggregate. simpl. right. left. }
  simpl to_numeric. rewrite setitem_same; [|done|].
  2: { unfold aggregate. simpl. right. left. }
  erewrite (getitem_unique _ "avg_total"); [|done|].
  2: { unfold aggregate. simpl. right. right. left. }
  simpl to_numeric. rewrite setitem_same; [done|done|].
  unfold aggregate. simpl. right. right. left.
Qed.

(** The frames [transform] returns, spelled out. *)
Definition filtered_of (with_total : table) (totals : list (option Qc)) : table :=
  map_rows (fun A => keep (positive <$> totals)) with_total.

Definition sorted_of (with_total : table) (totals : list (option Qc)) : table :=
  map_rows (fun A => take_rows (nargsort_desc (keep (positive <$> totals) totals)))
    (filtered_of with_total totals).

Lemma transform_returns df :
  NoDup (names df) ->
  exists ts g k,
    let totals := Some <$> ts in
    let with_total := setitem df "total" (Numeric totals) in
    derive_total df = Ok with_total
    /\ select_group_col (names with_total) = Ok g
    /\ getitem with_total g = Column k
    /\ getitem with_total "total" = Column (Numeric totals)
    /\ (well_formed df -> length ts = nrows df)
    /\ transform df
       = if bool_decide (g ∈ agg_labels) then Raise ValueError
         else Ok (with_total, sorted_of with_total totals, aggregate g k totals).
Proof.
  intros Hnd. destruct (derive_total_returns df Hnd) as (ts & Hts & Hlen).
  set (totals := Some <$> ts). set (with_total := setitem df "total" (Numeric totals)).
  assert (Hnd' : NoDup (names with_total)) by by apply setitem_NoDup.
  assert (Htot : getitem with_total "total" = Column (Numeric totals))
    by by apply getitem_setitem.
  destruct (select_group_col_returns (names with_total)) as (g & Hg & Hgin).
  { intros Hnil. pose proof (setitem_label df "total" (Numeric totals)) as Hin.
    fold with_total in Hin. rewrite Hnil in Hin. by apply elem_of_nil in Hin. }
  destruct (getitem_label with_total g Hnd' Hgin) as [k Hk].
  exists ts, g, k. cbv zeta. fold totals with_total.
  split_and!; try done.
  unfold transform. rewrite Hts. fold totals with_total.
  cbn [mbind result_bind]. rewrite Hg. cbn [mbind result_bind].
  unfold groupby_agg. rewrite Hk, Htot.
  case_bool_decide as Hagg; [done|]. cbn [mbind result_bind].
  unfold filter_positive. rewrite Htot. cbn [mbind result_bind].
  unfold sort_values_total. rewrite getitem_map_rows, Htot. simpl on_rows.
  cbn [mbind result_bind]. rewrite coerce_aggregates_aggregate by done.
  done.
Qed.

End transformer.

(** ** What the cleaner returns *)

Lemma drop_duplicates_names df : names (drop_duplicates df) = names df.
Proof.
  unfold drop_duplicates. destruct (empty df); [done|]. apply map_rows_names.
Qed.

Lemma map_columns_names f df : names (map_columns f df) = names df.
Proof.
  unfold names, map_columns. simpl. rewrite <-list_fmap_compose.
  by apply list_fmap_ext.
Qed.

Section cleaner.
Context `{Pandas}.

Definition imputed_of (df : table) : table :=
  map_columns (fun _ => impute_series) (drop_duplicates df).

Definition standardized_of (df : table) : table :=
  map_columns standardize_series (imputed_of df).

Definition cleaned_of (df : table) : table :=
  rename_columns (remove_invalid (standardized_of df)).1.

Definition summary_of (df : table) : ProcessingSummary :=
  {| rows_before := nrows df;
     rows_after_cleaning := nrows (cleaned_of df);
     rows_after_transform := nrows (cleaned_of df);
     removed_duplicates := nrows df - nrows (drop_duplicates df);
     filled_missing_numeric :=
       sum_list (numeric_na <$> (columns (drop_duplicates df)).*2);
     filled_missing_text :=
       sum_list (text_na <$> (columns (drop_duplicates df)).*2);
     removed_invalid_rows := (remove_invalid (standardized_of df)).2 |}.

Lemma clean_returns df :
  NoDup (names df) -> clean df = Ok (cleaned_of df, summary_of df).
Proof.
  intros Hnd. unfold clean.
  rewrite handle_missing_columnwise by (by rewrite drop_duplicates_names).
  cbn [mbind result_bind]. fold (imputed_of df).
  rewrite standardize_columnwise
    by (unfold imputed_of; by rewrite map_columns_names, drop_duplicates_names).
  fold (standardized_of df). unfold summary_of, cleaned_of.
  by destruct (remove_invalid (standardized_of df)).
Qed.

Lemma remove_invalid_nrows df : nrows (remove_invalid df).1 <= nrows df.
Proof.
  unfold remove_invalid. destruct (filter _ _); [done|]. apply keep_rows_nrows.
Qed.

Lemma cleaned_of_nrows df : nrows (cleaned_of df) <= nrows df.
Proof.
  unfold cleaned_of. simpl. etrans; [apply remove_invalid_nrows|].
  unfold standardized_of, imputed_of. simpl. apply drop_duplicates_nrows.
Qed.

Lemma sorted_of_nrows with_total totals :
  nrows (sorted_of with_total totals) <= nrows with_total.
Proof.
  unfold sorted_of. etrans; [|apply (keep_rows_nrows (positive <$> totals))].
  fold (filtered_of with_total totals).
  unfold map_rows at 1. simpl.
  etrans; [eapply take_rows_length_le, nargsort_desc_perm|].
  by rewrite length_replicate.
Qed.

End cleaner.

(** ** Objects: what the two stages do to the heap *)

Section heap.
Context `{Pandas}.

Lemma fresh_ne {V} (m : gmap nat V) l :
  is_Some (m !! l) -> fresh (dom m) <> l.
Proof.
  intros Hl Heq. apply elem_of_dom in Hl. rewrite <-Heq in Hl.
  by apply is_fresh in Hl.
Qed.

Lemma insert_is_Some_old {V} (m : gmap nat V) i x j :
  is_Some (m !! j) -> is_Some (<[i:=x]> m !! j).
Proof.
  intros Hj. destruct (decide (i = j)) as [->|].
  - rewrite lookup_insert_eq. by eexists.
  - by rewrite lookup_insert_ne.
Qed.

Lemma insert_is_Some_new {V} (m : gmap nat V) i x :
  is_Some (<[i:=x]> m !! i).
Proof. rewrite lookup_insert_eq. by eexists. Qed.

(** [clean_dataset] allocates the cleaned frame and the summary; every
    object of the heap it was called in is as it was. *)
Lemma clean_dataset_spec h df raw :
  frames h !! df = Some raw ->
  match clean raw with
  | Raise e => clean_dataset df h = Raise e
  | Ok (cleaned, summary) =>
      exists l_clean l_summary,
        frames h !! l_clean = None /\ summaries h !! l_summary = None
        /\ clean_dataset df h
           = Ok ((l_clean, l_summary),
                 {| frames := <[l_clean := cleaned]> (frames h);
                    summaries := <[l_summary := summary]> (summaries h) |})
  end.
Proof.
  intros Hdf. unfold clean_dataset, mbind, Py_bind, get_frame, lift.
  rewrite Hdf. destruct (clean raw) as [[cleaned summary]|e]; [|done].
  exists (fresh (dom (frames h))), (fresh (dom (summaries h))).
  split_and!; [apply not_elem_of_dom, is_fresh..|done].
Qed.

(** [apply_transformations] changes the frame it is given into the frame
    with the total column, allocates the sorted frame and the aggregate,
    and writes the row count into the summary it is given. *)
Lemma apply_transformations_spec h df summary given s :
  frames h !! df = Some given ->
  summaries h !! summary = Some s ->
  match transform given with
  | Raise e => apply_transformations df summary h = Raise e
  | Ok (with_total, sorted, grouped) =>
      exists l_sorted l_grouped h',
        apply_transformations df summary h = Ok ((l_sorted, l_grouped, summary), h')
        /\ frames h' !! df = Some with_total
        /\ frames h' !! l_sorted = Some sorted
        /\ frames h' !! l_grouped = Some grouped
        /\ frames h !! l_sorted = None /\ frames h !! l_grouped = None
        /\ summaries h'
           = <[summary := set_rows_after_transform (nrows sorted) s]> (summaries h)
        /\ forall l, l <> df -> is_Some (frames h !! l) ->
             frames h' !! l = frames h !! l
  end.
Proof.
  intros Hdf Hs.
  unfold apply_transformations, transform, mbind, Py_bind, result_bind,
    get_frame, set_frame, new_frame, get_summary, set_summary, lift.
  rewrite Hdf.
  destruct (derive_total given) as [with_total|e]; [|done]. simpl.
  destruct (select_group_col (names with_total)) as [g|e]; [|done].
  destruct (groupby_agg with_total g) as [aggregate|e]; [|done].
  destruct (filter_positive with_total) as [filtered|e]; [|done].
  destruct (sort_values_total filtered) as [sorted|e]; [|done].
  destruct (coerce_aggregates aggregate) as [grouped|e]; [|done].
  simpl. rewrite Hs.
  set (f1 := <[df := with_total]> (frames h)).
  set (lg := fresh (dom f1)).
  set (f2 := <[lg := aggregate]> f1).
  set (lf := fresh (dom f2)).
  set (f3 := <[lf := filtered]> f2).
  set (ls := fresh (dom f3)).
  assert (Hdf1 : is_Some (f1 !! df)) by apply insert_is_Some_new.
  assert (Hlg_df : lg <> df) by by apply fresh_ne.
  assert (Hlf_df : lf <> df) by by apply fresh_ne, insert_is_Some_old.
  assert (Hlf_lg : lf <> lg) by apply fresh_ne, insert_is_Some_new.
  assert (Hls_df : ls <> df) by by apply fresh_ne, insert_is_Some_old, insert_is_Some_old.
  assert (Hls_lg : ls <> lg) by apply fresh_ne, insert_is_Some_old, insert_is_Some_new.
  assert (Hls_lf : ls <> lf) by apply fresh_ne, insert_is_Some_new.
  assert (Hold : forall l, is_Some (frames h !! l) ->
    l <> lg /\ l <> lf /\ l <> ls).
  { intros l Hl. split_and!; apply not_eq_sym, fresh_ne;
      repeat apply insert_is_Some_old; done. }
  assert (Hnew : forall l, l <> df -> (l = lg \/ l = ls) -> frames h !! l = None).
  { intros l Hne Hl. destruct (frames h !! l) eqn:Hfl; [|done].
    destruct (Hold l) as (? & ? & ?); [by eexists|]. by destruct Hl. }
  eexists ls, lg, _. split; [reflexivity|]. simpl.
  split_and!.
  - unfold f3, f2. rewrite !lookup_insert_ne by done. apply lookup_insert_eq.
  - rewrite lookup_insert_ne by done. apply lookup_insert_eq.
  - apply lookup_insert_eq.
  - apply Hnew; auto.
  - apply Hnew; auto.
  - done.
  - intros l Hl Hsome. destruct (Hold l Hsome) as (? & ? & ?).
    unfold f3, f2, f1. by rewrite !lookup_insert_ne.
Qed.

End heap.

(** ** Sample frames *)

Definition num (z : Z) : option Qc := Some (Qc_of_Z z).
Definition txt (s : string) : option string := Some s.

(** The aggregation example of the specification. *)
Definition sales : table :=
  Table 3 [("product", Textual [txt "x"; txt "x"; txt "y"]);
           ("price", Numeric [num 10; num 20; num 5]);
           ("qty", Numeric [num 1; num 1; num 1])]%string.

(** Two labels that normalize to the same identifier. *)
Definition two_prices : table :=
  Table 1 [("Price", Numeric [num 2]);
           ("price", Numeric [num 3]);
           ("qty", Numeric [num 1])]%string.


Definition empty_summary : ProcessingSummary := Summary 0 0 0 0 0 0 0.

(** ** Row counts and returns *)

(** The labels of a frame after [df["total"] = ...]. *)
Definition labels_with_total (df : table) : list string :=
  if bool_decide ("total"%string ∈ names df) then names df
  else names df ++ ["total"%string].

(** The label [groupby] is given is not one of the three labels the
    aggregate gets. *)
Definition group_label_ok (df : table) : Prop :=
  forall g, select_group_col (labels_with_total df) = Ok g -> g ∉ agg_labels.

#[global] Instance group_label_ok_dec df : Decision (group_label_ok df).
Proof.
  unfold group_label_ok.
  destruct (select_group_col (labels_with_total df)) as [g|e].
  - destruct (decide (g ∉ agg_labels)) as [Hg|Hg].
    + left. by intros ? [= <-].
    + right. intros Hall. by apply Hg, Hall.
  - left. by intros.
Defined.

Lemma setitem_total_names df s :
  names (setitem df "total" s) = labels_with_total df.
Proof.
  unfold labels_with_total. case_bool_decide.
  - by apply setitem_names_old.
  - by apply setitem_names_new.
Qed.

Section returns.
Context `{Pandas}.

Lemma derive_total_nrows df with_total :
  derive_total df = Ok with_total -> nrows with_total = nrows df.
Proof.
  unfold derive_total. intros Hd.
  repeat case_match; simplify_eq; by rewrite setitem_nrows.
Qed.

Lemma transform_nrows df with_total sorted grouped :
  transform df = Ok (with_total, sorted, grouped) ->
  nrows with_total = nrows df /\ nrows sorted <= nrows df.
Proof.
  unfold transform. intros Ht.
  destruct (derive_total df) as [wt|] eqn:Hd; [|done].
  cbn [mbind result_bind] in Ht.
  destruct (select_group_col (names wt)) as [g|]; [|done].
  cbn [mbind result_bind] in Ht.
  destruct (groupby_agg wt g) as [a|]; [|done].
  cbn [mbind result_bind] in Ht.
  destruct (filter_positive wt) as [f|] eqn:Hf; [|done].
  cbn [mbind result_bind] in Ht.
  destruct (sort_values_total f) as [s|] eqn:Hs; [|done].
  cbn [mbind result_bind] in Ht.
  destruct (coerce_aggregates a) as [a'|]; [|done].
  cbn [mbind result_bind] in Ht. unfold mret, result_ret in Ht. simplify_eq.
  apply derive_total_nrows in Hd. split; [done|]. rewrite <-Hd.
  unfold filter_positive in Hf. unfold sort_values_total in Hs.
  repeat case_match; simplify_eq.
  etrans; [|apply keep_rows_nrows].
  unfold map_rows at 1. simpl.
  etrans; [eapply take_rows_length_le, nargsort_desc_perm|].
  by rewrite length_replicate.
Qed.

Lemma transform_returns_ok df :
  NoDup (names df) -> group_label_ok df ->
  exists with_total sorted grouped,
    transform df = Ok (with_total, sorted, grouped).
Proof.
  intros Hnd Hok.
  destruct (transform_returns df Hnd) as (ts & g & k & Hd & Hg & _ & _ & _ & Ht).
  cbv zeta in *. rewrite setitem_total_names in Hg.
  rewrite bool_decide_eq_false_2 in Ht by by apply Hok.
  eauto.
Qed.

(** C8: with unique labels the cleaner returns and its summary has
    [rows_after_cleaning <= rows_before]; whenever the transformer then
    returns, the summary it has updated has
    [rows_after_transform <= rows_after_cleaning] and its other counts are
    as the cleaner left them; and the transformer does return when the
    labels of the cleaned frame are unique and the grouping label is not
    an aggregate label. *)
Theorem row_counts_decrease h raw given :
  frames h !! raw = Some given ->
  NoDup (names given) ->
  exists l_clean l_summary h1 cleaned s1,
    clean_dataset raw h = Ok ((l_clean, l_summary), h1)
    /\ frames h1 !! l_clean = Some cleaned
    /\ summaries h1 !! l_summary = Some s1
    /\ rows_before s1 = nrows given
    /\ rows_after_cleaning s1 = nrows cleaned
    /\ rows_after_cleaning s1 <= rows_before s1
    /\ (forall r h2,
          apply_transformations l_clean l_summary h1 = Ok (r, h2) ->
          exists s2,
            summaries h2 !! l_summary = Some s2
            /\ rows_after_transform s2 <= rows_after_cleaning s2
            /\ rows_after_cleaning s2 = rows_after_cleaning s1
            /\ rows_before s2 = rows_before s1)
    /\ (NoDup (names cleaned) -> group_label_ok cleaned ->
        exists r h2, apply_transformations l_clean l_summary h1 = Ok (r, h2)).
Proof.
  intros Hraw Hnd. pose proof (clean_dataset_spec h raw given Hraw) as Hc.
  rewrite (clean_returns given Hnd) in Hc.
  destruct Hc as (l_clean & l_summary & Hfc & Hfs & Hrun).
  eexists l_clean, l_summary, _, (cleaned_of given), (summary_of given).
  split; [exact Hrun|]. simpl.
  split; [apply lookup_insert_eq|]. split; [apply lookup_insert_eq|].
  split; [done|]. split; [done|]. split; [apply cleaned_of_nrows|].
  set (h1 := {| frames := _; summaries := _ |}).
  pose proof (apply_transformations_spec h1 l_clean l_summary
    (cleaned_of given) (summary_of given)
    (lookup_insert_eq _ _ _) (lookup_insert_eq _ _ _)) as Ht.
  split.
  - intros r h2 Hr.
    destruct (transform (cleaned_of given)) as [[[wt sorted] grouped]|e] eqn:Htr.
    + destruct Ht as (ls & lg & h' & Hrun' & _ & _ & _ & _ & _ & Hsum & _).
      rewrite Hrun' in Hr. simplify_eq. rewrite Hsum.
      eexists. split; [apply lookup_insert_eq|]. simpl.
      split; [|done]. by apply transform_nrows in Htr as [_ ?].
    + by rewrite Ht in Hr.
  - intros Hnd' Hok.
    destruct (transform_returns_ok _ Hnd' Hok) as (wt & sorted & grouped & Htr).
    rewrite Htr in Ht. destruct Ht as (ls & lg & h' & Hrun' & _). eauto.
Qed.

(** C5, as the code has it: with unique labels the cleaner returns; the
    transformer returns on a frame with unique labels whose grouping label
    is not one of total_sales, avg_total, count_rows. *)
Theorem stages_return df :
  NoDup (names df) ->
  (exists cleaned summary, clean df = Ok (cleaned, summary))
  /\ (group_label_ok df -> exists r, transform df = Ok r).
Proof.
  intros Hnd. split.
  - rewrite clean_returns by done. eauto.
  - intros Hok. destruct (transform_returns_ok df Hnd Hok) as (? & ? & ? & ->).
    eauto.
Qed.

End returns.

(** C5 fails as stated: the labels Price and price are distinct, the
    cleaner renames both to price, and the transformer raises on the
    cleaned frame because [df["price"]] is then a DataFrame. *)
Lemma transform_raises_on_cleaned_frame :
  NoDup (names two_prices)
  /\ exists cleaned summary,
       clean (H:=stable_pandas) two_prices = Ok (cleaned, summary)
       /\ names cleaned = ["price"; "price"; "qty"]%string
       /\ transform (H:=stable_pandas) cleaned = Raise TypeError.
Proof.
  split; [by apply (bool_decide_unpack _)|].
  rewrite clean_returns by by apply (bool_decide_unpack _).
  eexists _, _. split; [reflexivity|]. split; by vm_compute.
Qed.

(** A frame whose only label is count_rows: [reset_index] raises. *)
Lemma transform_raises_on_aggregate_label :
  transform (H:=stable_pandas)
    (Table 1 [("count_rows"%string, Numeric [num 1])]) = Raise ValueError.
Proof. by vm_compute. Qed.

Lemma stages_return_witness :
  NoDup (names sales)
  /\ (exists cleaned summary, clean (H:=stable_pandas) sales = Ok (cleaned, summary))
  /\ exists r, transform (H:=stable_pandas) sales = Ok r.
Proof.
  assert (Hnd : NoDup (names sales)) by by apply (bool_decide_unpack _).
  destruct (stages_return (H:=stable_pandas) sales Hnd) as [Hc Ht].
  split; [exact Hnd|]. split; [exact Hc|].
  apply Ht. by apply (bool_decide_unpack _).
Defined.

(** A heap that holds one frame and one summary. *)
Definition heap_of (df : table) : heap :=
  {| frames := {[ 0 := df ]}; summaries := {[ 0 := empty_summary ]} |}.

Lemma row_counts_decrease_witness :
  frames (heap_of sales) !! 0 = Some sales
  /\ NoDup (names sales)
  /\ exists l_clean l_summary h1 s1,
       clean_dataset (H:=stable_pandas) 0 (heap_of sales)
       = Ok ((l_clean, l_summary), h1)
       /\ summaries h1 !! l_summary = Some s1
       /\ rows_after_cleaning s1 <= rows_before s1.
Proof.
  assert (Hf : frames (heap_of sales) !! 0 = Some sales)
    by apply lookup_singleton_eq.
  assert (Hnd : NoDup (names sales)) by by apply (bool_decide_unpack _).
  split; [exact Hf|]. split; [exact Hnd|].
  destruct (row_counts_decrease (H:=stable_pandas) (heap_of sales) 0 sales Hf Hnd)
    as (l_clean & l_summary & h1 & cleaned & s1 & Hrun & _ & Hs & _ & _ & Hle & _).
  by exists l_clean, l_summary, h1, s1.
Defined.

(** ** The argument of a stage after the call *)

Section arguments.
Context `{Pandas}.

(** C4, as the code has it: the cleaner leaves the frame it is given, and
    every other frame of the heap, as it was, and returns a frame that is
    a new object; the transformer assigns the total column in the frame
    it is given (the caller sees it), leaves that frame's row count and
    every other frame as they were, and returns new objects. *)
Theorem stages_and_their_argument h df given :
  frames h !! df = Some given ->
  NoDup (names given) ->
  (exists l_clean l_summary h',
     clean_dataset df h = Ok ((l_clean, l_summary), h')
     /\ l_clean <> df
     /\ forall l, is_Some (frames h !! l) -> frames h' !! l = frames h !! l)
  /\ (forall summary s,
        summaries h !! summary = Some s ->
        group_label_ok given ->
        exists l_sorted l_grouped h' totals,
          apply_transformations df summary h
          = Ok ((l_sorted, l_grouped, summary), h')
          /\ frames h' !! df = Some (setitem given "total" (Numeric totals))
          /\ l_sorted <> df /\ l_grouped <> df
          /\ forall l, l <> df -> is_Some (frames h !! l) ->
               frames h' !! l = frames h !! l).
Proof.
  intros Hdf Hnd. split.
  - pose proof (clean_dataset_spec h df given Hdf) as Hc.
    rewrite (clean_returns given Hnd) in Hc.
    destruct Hc as (l_clean & l_summary & Hfc & Hfs & Hrun).
    eexists l_clean, l_summary, _. split; [exact Hrun|]. simpl. split.
    + intros ->. by rewrite Hdf in Hfc.
    + intros l [t Ht]. rewrite lookup_insert_ne; [done|].
      intros ->. by rewrite Ht in Hfc.
  - intros summary s Hs Hok.
    pose proof (apply_transformations_spec h df summary given s Hdf Hs) as Ht.
    destruct (transform_returns given Hnd) as (ts & g & k & _ & Hg & _ & _ & _ & Htr).
    cbv zeta in *. rewrite setitem_total_names in Hg.
    rewrite bool_decide_eq_false_2 in Htr by by apply Hok.
    rewrite Htr in Ht.
    destruct Ht as (ls & lg & h' & Hrun & Hfdf & _ & _ & Hls & Hlg & _ & Hold).
    exists ls, lg, h', (Some <$> ts). split_and!; try done.
    + intros ->. by rewrite Hdf in Hls.
    + intros ->. by rewrite Hdf in Hlg.
Qed.

End arguments.

(** A cleaned frame without a total column. *)
Definition products : table :=
  Table 2 [("product", Textual [txt "a"; txt "b"])]%string.

(** C4 fails as stated: after the transformer has run, the frame that was
    passed to it has gained the total column. *)
Lemma transformer_changes_its_argument :
  exists r h',
    apply_transformations (H:=stable_pandas) 0 0 (heap_of products) = Ok (r, h')
    /\ frames (heap_of products) !! 0 = Some products
    /\ frames h' !! 0
       = Some (Table 2 [("product", Textual [txt "a"; txt "b"]);
                        ("total", Numeric [Some 1%Qc; Some 1%Qc])]%string)
    /\ frames h' !! 0 <> Some products.
Proof.
  pose proof (apply_transformations_spec (H:=stable_pandas) (heap_of products)
    0 0 products empty_summary (lookup_singleton_eq _ _) (lookup_singleton_eq _ _))
    as Ht.
  assert (Htr : exists sorted grouped,
    transform (H:=stable_pandas) products
    = Ok (Table 2 [("product", Textual [txt "a"; txt "b"]);
                   ("total", Numeric [Some 1%Qc; Some 1%Qc])]%string,
          sorted, grouped)).
  { eexists _, _. by vm_compute. }
  destruct Htr as (sorted & grouped & Htr). rewrite Htr in Ht.
  destruct Ht as (ls & lg & h' & Hrun & Hdf & _).
  exists (ls, lg, 0), h'. split; [done|]. split; [apply lookup_singleton_eq|].
  split; [done|]. rewrite Hdf. by intros [=].
Qed.

Lemma stages_and_their_argument_witness :
  frames (heap_of products) !! 0 = Some products
  /\ NoDup (names products)
  /\ exists l_clean l_summary h',
       clean_dataset (H:=stable_pandas) 0 (heap_of products)
       = Ok ((l_clean, l_summary), h')
       /\ frames h' !! 0 = Some products.
Proof.
  assert (Hf : frames (heap_of products) !! 0 = Some products)
    by apply lookup_singleton_eq.
  assert (Hnd : NoDup (names products)) by by apply (bool_decide_unpack _).
  split; [exact Hf|]. split; [exact Hnd|].
  destruct (stages_and_their_argument (H:=stable_pandas) (heap_of products)
    0 products Hf Hnd) as [(l_clean & l_summary & h' & Hrun & _ & Hold) _].
  exists l_clean, l_summary, h'. split; [exact Hrun|].
  rewrite Hold; [exact Hf|]. rewrite Hf. by eexists.
Defined.

(** ** Sorting by total *)

Section sort_values.
Context `{Pandas}.


End sort_values.




(** ** The aggregate *)

Lemma setitem_well_formed df c s :
  well_formed df -> size s = nrows df -> well_formed (setitem df c s).
Proof.
  unfold well_formed, setitem. intros Hwf Hs. case_bool_decide; simpl.
  - rewrite Forall_fmap. eapply Forall_impl; [exact Hwf|].
    intros [a x] Hx. simpl in *. by case_bool_decide.
  - apply Forall_app. split; [done|]. by constructor.
Qed.

Lemma present_fmap_Some {A} (l : list A) : present (Some <$> l) = l.
Proof.
  induction l as [|x l IH]; [done|].
  rewrite fmap_cons, present_cons. by rewrite IH.
Qed.




Section aggregate.
Context `{Pandas}.



End aggregate.



(** The aggregation example of the specification. *)
Example aggregate_sales :
  exists with_total sorted,
    transform (H:=stable_pandas) sales
    = Ok (with_total, sorted,
          Table 2 [("product", Textual [txt "x"; txt "y"]);
                   ("total_sales", Numeric [num 30; num 5]);
                   ("avg_total", Numeric [num 15; num 5]);
                   ("count_rows", Numeric [num 2; num 1])]%string).
Proof.
  destruct (transform (H:=stable_pandas) sales) as [[[wt s] g]|e] eqn:Ht;
    [|by vm_compute in Ht].
  exists wt, s. f_equal. f_equal.
  assert (g = (match transform (H:=stable_pandas) sales with
               | Ok (_, _, g) => g | _ => g end)) as -> by by rewrite Ht.
  apply (bool_decide_unpack _). by vm_compute.
Qed.



(** ** Imputation of the columns that are not numeric *)

(** Every missing cell of [xs] is [v] in [ys]; the other cells are as
    they were. *)
Definition replaces_missing {A} (v : A) (xs ys : list (option A)) : Prop :=
  length ys = length xs
  /\ forall i,
       (xs !! i = Some None -> ys !! i = Some (Some v))
       /\ (forall x, xs !! i = Some (Some x) -> ys !! i = Some (Some x)).

Lemma fillna_replaces_missing {A} (v : A) (xs : list (option A)) :
  replaces_missing v xs (fillna (Some v) xs).
Proof.
  unfold replaces_missing, fillna. split; [by rewrite length_fmap|].
  intros i. rewrite list_lookup_fmap.
  split; [by intros ->|]. by intros x ->.
Qed.

(** The value the claim names: the most frequent value that appears
    first. *)
Definition first_mode {A} `{EqDecision A} (vals : list A) : option A :=
  let top := max_list ((fun v => occurrences v vals) <$> vals) in
  head (filter (fun v => occurrences v vals = top) vals).

Lemma getitem_map_columns f df c s :
  NoDup (names df) -> (c, s) ∈ columns df ->
  getitem (map_columns f df) c = Column (f c s).
Proof.
  intros Hnd Hin. apply getitem_unique.
  - by rewrite map_columns_names.
  - unfold map_columns. simpl. apply list_elem_of_fmap. by exists (c, s).
Qed.

Lemma any_na_present {A} (xs : list (option A)) :
  present xs = [] -> xs <> [] -> any_na xs = true.
Proof.
  intros Hp Hne. unfold any_na, count_na. rewrite Hp. simpl.
  apply negb_true_iff, bool_decide_eq_false. destruct xs; [done|]. simpl. lia.
Qed.

(** C1, as the code has it: with unique labels the imputation loop
    returns; [filled_missing_text] is the number of missing cells of the
    columns that are not numeric; in a text column with a missing cell
    every missing cell becomes one value, the other cells stay, and that
    value is the least, in the order of strings, of the most frequent
    values of the column, or "unknown" when the column has no value; a
    datetime column is treated alike with the order of time, and becomes
    a text column of "unknown" when it has no value. *)
Theorem handle_missing_text df :
  NoDup (names df) ->
  exists df' filled_numeric filled_text,
    handle_missing df = Ok (df', filled_numeric, filled_text)
    /\ filled_text = sum_list (text_na <$> (columns df).*2)
    /\ (forall c xs,
          (c, Textual xs) ∈ columns df -> any_na xs = true ->
          exists v ys,
            getitem df' c = Column (Textual ys)
            /\ replaces_missing v xs ys
            /\ (present xs <> [] ->
                most_frequent (present xs) v
                /\ forall w, most_frequent (present xs) w -> str_le v w)
            /\ (present xs = [] -> v = "unknown"%string))
    /\ (forall c xs,
          (c, Temporal xs) ∈ columns df -> any_na xs = true ->
          (exists v ys,
             getitem df' c = Column (Temporal ys)
             /\ replaces_missing v xs ys
             /\ most_frequent (present xs) v
             /\ forall w, most_frequent (present xs) w -> (v <= w)%Z)
          \/ (present xs = []
              /\ getitem df' c
                 = Column (Textual (replicate (length xs) (Some "unknown"%string))))).
Proof.
  intros Hnd. rewrite handle_missing_columnwise by done.
  eexists _, _, _. split; [reflexivity|]. split; [done|]. split.
  - intros c xs Hin Hna.
    exists (text_fill xs), (fillna (Some (text_fill xs)) xs).
    split; [by rewrite (getitem_map_columns _ _ _ _ Hnd Hin); simpl; rewrite Hna|].
    split; [apply fillna_replaces_missing|].
    unfold text_fill. destruct (head (mode str_le xs)) as [v|] eqn:Hh.
    + split; [|intros Hp; apply (mode_nil str_le) in Hp; by rewrite Hp in Hh].
      intros _. simpl. by apply (head_mode_least str_le).
    + assert (Hm : mode str_le xs = []) by (by destruct (mode str_le xs)).
      apply (mode_nil str_le) in Hm. split; [done|done].
  - intros c xs Hin Hna.
    rewrite (getitem_map_columns _ _ _ _ Hnd Hin). simpl. rewrite Hna.
    destruct (head (mode Z.le xs)) as [v|] eqn:Hh.
    + left. exists v, (fillna (Some v) xs). split; [done|].
      split; [apply fillna_replaces_missing|]. by apply (head_mode_least Z.le).
    + right. assert (Hm : mode Z.le xs = []) by (by destruct (mode Z.le xs)).
      apply (mode_nil Z.le) in Hm. split; [done|]. do 2 f_equal.
      clear. induction xs as [|o xs IH]; [done|]. simpl. by rewrite <-IH.
Qed.

(** A column whose two values are equally frequent; "b" appears first. *)
Definition b_before_a : table :=
  Table 3 [("c", Textual [None; txt "b"; txt "a"])]%string.

(** C1 fails as stated: between the equally frequent "b" and "a" the
    missing cell gets "a", the least of the two ([Series.mode] sorts its
    result), not "b", the one that appears first. *)
Lemma fill_value_is_not_first_appearance :
  handle_missing b_before_a
  = Ok (Table 3 [("c", Textual [txt "a"; txt "b"; txt "a"])]%string, 0, 1)
  /\ first_mode (present [None; txt "b"; txt "a"]) = Some "b"%string
  /\ text_fill [None; txt "b"; txt "a"] <> "b"%string.
Proof. split; [|split]; by vm_compute. Qed.

(** The imputation example of the specification. *)
Example fill_with_mode :
  handle_missing (Table 4 [("c", Textual [None; txt "a"; txt "a"; txt "b"])]%string)
  = Ok (Table 4 [("c", Textual [txt "a"; txt "a"; txt "a"; txt "b"])]%string, 0, 1).
Proof. by vm_compute. Qed.

Lemma handle_missing_text_witness :
  NoDup (names b_before_a)
  /\ exists df' filled_numeric,
       handle_missing b_before_a = Ok (df', filled_numeric, 1).
Proof.
  assert (Hnd : NoDup (names b_before_a)) by by apply (bool_decide_unpack _).
  split; [exact Hnd|].
  destruct (handle_missing_text b_before_a Hnd) as (df' & n & t & Hh & -> & _).
  by exists df', n.
Defined.


(** ** Normalized labels and lower-case text stay as they are *)

Definition is_label_char (c : ascii) : bool :=
  is_digit c || is_lower c || is_underscore c.

(** A property of characters that holds for each of the 256. *)
Lemma ascii_forall (P : ascii -> bool) :
  forallb P (ascii_of_N <$> (N.of_nat <$> seq 0 256)) = true ->
  forall c, P c = true.
Proof.
  intros Hall c. rewrite forallb_forall in Hall. apply Hall.
  apply list_elem_of_In, list_elem_of_fmap. exists (N_of_ascii c).
  split; [by rewrite ascii_N_embedding|].
  apply list_elem_of_fmap. exists (N.to_nat (N_of_ascii c)).
  split; [by rewrite N2Nat.id|]. apply elem_of_seq.
  pose proof (N_ascii_bounded c). lia.
Qed.

Lemma word_char_facts c :
  is_word c = true ->
  is_label_char (lower_char c) = true
  /\ is_underscore (lower_char c) = is_underscore c.
Proof.
  intros Hc.
  pose proof (ascii_forall
    (fun c => implb (is_word c)
                (is_label_char (lower_char c)
                 && bool_decide (is_underscore (lower_char c) = is_underscore c)))
    ltac:(by vm_compute) c) as Hall.
  simpl in Hall. rewrite Hc in Hall. simpl in Hall.
  apply andb_true_iff in Hall as [H1 H2].
  by apply bool_decide_eq_true in H2.
Qed.

Lemma label_char_facts c :
  is_label_char c = true ->
  is_space c = false /\ is_hyphen c = false /\ is_word c = true
  /\ lower_char c = c /\ (is_underscore c = true -> c = underscore).
Proof.
  intros Hc.
  pose proof (ascii_forall
    (fun c => implb (is_label_char c)
                (negb (is_space c) && negb (is_hyphen c) && is_word c
                 && bool_decide (lower_char c = c)
                 && implb (is_underscore c) (bool_decide (c = underscore))))
    ltac:(by vm_compute) c) as Hall.
  simpl in Hall. rewrite Hc in Hall. simpl in Hall.
  apply andb_true_iff in Hall as [Hall H5].
  apply andb_true_iff in Hall as [Hall H4].
  apply andb_true_iff in Hall as [Hall H3].
  apply andb_true_iff in Hall as [H1 H2].
  split_and!.
  - by apply negb_true_iff.
  - by apply negb_true_iff.
  - done.
  - by apply bool_decide_eq_true in H4.
  - intros Hu. rewrite Hu in H5. by apply bool_decide_eq_true in H5.
Qed.

Lemma lower_char_idemp c : lower_char (lower_char c) = lower_char c.
Proof.
  pose proof (ascii_forall
    (fun c => bool_decide (lower_char (lower_char c) = lower_char c))
    ltac:(by vm_compute) c) as Hall.
  by apply bool_decide_eq_true in Hall.
Qed.

(** No two neighbours both satisfy [p]. *)
Fixpoint no_adjacent (p : ascii -> bool) (l : list ascii) : Prop :=
  match l with
  | [] => True
  | c :: r =>
      match r with
      | c' :: _ => ~ (p c = true /\ p c' = true)
      | [] => True
      end /\ no_adjacent p r
  end.

Lemma squash_runs_cons_false p r c l :
  p c = false -> squash_runs p r (c :: l) = c :: squash_runs p r l.
Proof. intros Hc. cbn [squash_runs]. by rewrite Hc. Qed.

Lemma squash_runs_no_adjacent p r l :
  no_adjacent p (squash_runs p r l).
Proof.
  induction l as [|c l IH]; [done|].
  destruct (p c) eqn:Hc.
  - destruct l as [|c' l']; [by cbn [squash_runs]; rewrite Hc|].
    rewrite squash_runs_run by done. destruct (p c') eqn:Hc'; [done|].
    split; [|done]. rewrite squash_runs_cons_false by done.
    intros [_ ?]. congruence.
  - rewrite squash_runs_cons_false by done. split; [|done].
    destruct (squash_runs p r l); [done|]. intros [? _]. congruence.
Qed.

Lemma squash_runs_elem p r l c :
  c ∈ squash_runs p r l -> c = r \/ c ∈ l.
Proof.
  induction l as [|a l IH]; [by intros ?%elem_of_nil|].
  destruct (p a) eqn:Ha.
  - destruct l as [|a' l'].
    + cbn [squash_runs]. rewrite Ha. intros ->%list_elem_of_singleton. by left.
    + rewrite squash_runs_run by done. destruct (p a').
      * intros Hc. destruct (IH Hc); [by left|right; by right].
      * intros [->|Hc]%elem_of_cons; [by left|].
        destruct (IH Hc); [by left|right; by right].
  - rewrite squash_runs_cons_false by done.
    intros [->|Hc]%elem_of_cons; [right; left|].
    destruct (IH Hc); [by left|right; by right].
Qed.

Lemma squash_runs_fixed p r l :
  no_adjacent p l -> (forall c, c ∈ l -> p c = true -> c = r) ->
  squash_runs p r l = l.
Proof.
  induction l as [|c l IH]; [done|]. intros [Hhd Htl] Hr.
  assert (IH' : squash_runs p r l = l).
  { apply IH; [done|]. intros c' Hc'. apply Hr. by right. }
  destruct (p c) eqn:Hc.
  - assert (c = r) as -> by (apply Hr; [left|done]).
    destruct l as [|c' l']; [by cbn [squash_runs]; rewrite Hc|].
    rewrite squash_runs_run by done.
    destruct (p c') eqn:Hc'; [by destruct Hhd|]. by rewrite IH'.
  - rewrite squash_runs_cons_false by done. by rewrite IH'.
Qed.

Lemma no_adjacent_fmap p (f : ascii -> ascii) l :
  (forall c, c ∈ l -> p (f c) = p c) ->
  no_adjacent p l -> no_adjacent p (f <$> l).
Proof.
  induction l as [|c l IH]; [done|]. intros Hf [Hhd Htl].
  rewrite fmap_cons. split.
  - destruct l as [|c' l']; [done|]. rewrite fmap_cons.
    rewrite !Hf by (repeat constructor). done.
  - apply IH; [|done]. intros c' Hc'. apply Hf. by right.
Qed.

Lemma no_adjacent_none p l :
  Forall (fun c => p c = false) l -> no_adjacent p l.
Proof.
  induction 1 as [|c l Hc _ IH]; [done|]. split; [|done].
  destruct l; [done|]. intros [? _]. congruence.
Qed.

Lemma drop_while_none p l :
  Forall (fun c => p c = false) l -> drop_while p l = l.
Proof. destruct 1 as [|c l Hc _]; [done|]. simpl. by rewrite Hc. Qed.

Lemma drop_while_end_none p l :
  Forall (fun c => p c = false) l -> drop_while_end p l = l.
Proof.
  induction 1 as [|c l Hc _ IH]; [done|]. unfold drop_while_end in *. simpl.
  rewrite IH, Hc. by destruct l.
Qed.

(** A normalized label: characters of [0-9a-z_], no two underscores in a
    row. *)
Definition label_chars (l : list ascii) : Prop :=
  Forall (fun c => is_label_char c = true) l /\ no_adjacent is_underscore l.

Lemma normalize_chars_label l : label_chars (normalize_chars l).
Proof.
  unfold normalize_chars.
  set (w := filter (fun c => is_word c = true) _).
  assert (Hw : Forall (fun c => is_word c = true)
                 (squash_runs is_underscore underscore w)).
  { apply Forall_forall. intros c Hc.
    apply squash_runs_elem in Hc as [->|Hc]; [done|].
    by apply list_elem_of_filter in Hc as [? _]. }
  split.
  - rewrite Forall_fmap. eapply Forall_impl; [exact Hw|].
    intros c Hc. by apply word_char_facts.
  - apply no_adjacent_fmap; [|apply squash_runs_no_adjacent].
    intros c Hc. rewrite Forall_forall in Hw. by apply word_char_facts, Hw.
Qed.

Lemma normalize_chars_fixed l : label_chars l -> normalize_chars l = l.
Proof.
  intros [Hchars Hadj]. unfold normalize_chars, trim.
  assert (Hsp : Forall (fun c => is_space c = false) l).
  { eapply Forall_impl; [exact Hchars|]. intros c Hc.
    by apply label_char_facts in Hc as (? & _). }
  assert (Hsh : Forall (fun c => is_space c || is_hyphen c = false) l).
  { eapply Forall_impl; [exact Hchars|]. intros c Hc.
    apply label_char_facts in Hc as (-> & -> & _). done. }
  rewrite drop_while_none, drop_while_end_none by done.
  rewrite (squash_runs_fixed (fun c => is_space c || is_hyphen c)).
  - assert (Hf : filter (fun c => is_word c = true) l = l).
    { clear -Hchars. induction Hchars as [|c l Hc _ IH]; [done|].
      rewrite filter_cons_True by (by apply label_char_facts in Hc as (_ & _ & ? & _)).
      by rewrite IH. }
    rewrite Hf, squash_runs_fixed.
    + rewrite <-(list_fmap_id l) at 2. apply list_fmap_ext. intros i c Hi.
      rewrite Forall_forall in Hchars.
      by apply label_char_facts, Hchars, (list_elem_of_lookup_2 _ i).
    + done.
    + intros c Hc Hu. rewrite Forall_forall in Hchars.
      by apply (label_char_facts c (Hchars c Hc)).
  - by apply no_adjacent_none.
  - intros c Hc Hp. rewrite Forall_forall in Hsh. by rewrite (Hsh c Hc) in Hp.
Qed.

(** Normalizing a normalized label changes nothing. *)
Lemma to_snake_case_idemp label :
  to_snake_case (to_snake_case label) = to_snake_case label.
Proof.
  unfold to_snake_case. rewrite list_ascii_of_string_of_list_ascii.
  rewrite !to_snake_case_chars_normalize.
  by rewrite (normalize_chars_fixed _ (normalize_chars_label _)).
Qed.

Lemma str_lower_idemp s : str_lower (str_lower s) = str_lower s.
Proof.
  unfold str_lower, lower. rewrite list_ascii_of_string_of_list_ascii.
  rewrite <-list_fmap_compose. f_equal. apply list_fmap_ext.
  intros i c _. apply lower_char_idemp.
Qed.

(** ** A second run of the cleaner *)

Lemma keep_all {A} (l : list A) n :
  length l <= n -> keep (negb <$> replicate n false) l = l.
Proof.
  revert l. induction n as [|n IH]; intros [|x l] Hl; simpl in *; try done.
  - lia.
  - f_equal. apply IH. lia.
Qed.

Lemma map_rows_id f df :
  well_formed df ->
  (forall A (l : list A), length l = nrows df -> f A l = l) ->
  map_rows f df = df.
Proof.
  intros Hwf Hf. destruct df as [n cols]. unfold map_rows, well_formed in *.
  simpl in *. f_equal.
  - by rewrite Hf, length_replicate by by rewrite length_replicate.
  - rewrite <-(list_fmap_id cols) at 2. apply list_fmap_ext.
    intros i [c s] Hi. rewrite Forall_forall in Hwf.
    assert (Hs : size s = n).
    { apply (Hwf (c, s)). by eapply list_elem_of_lookup_2. }
    unfold prod_map. simpl. f_equal.
    unfold size in Hs. destruct s as [xs|xs|xs]; simpl in *;
      rewrite length_fmap in Hs; by rewrite Hf.
Qed.

Lemma map_columns_id f df :
  (forall c s, (c, s) ∈ columns df -> f c s = s) -> map_columns f df = df.
Proof.
  intros Hf. destruct df as [n cols]. unfold map_columns. simpl in *. f_equal.
  rewrite <-(list_fmap_id cols) at 2. apply list_fmap_ext.
  intros i [c s] Hi. simpl. f_equal. apply Hf. by eapply list_elem_of_lookup_2.
Qed.

Lemma duplicated_from_NoDup seen rs :
  NoDup rs -> (forall r, r ∈ rs -> r ∉ seen) ->
  duplicated_from seen rs = replicate (length rs) false.
Proof.
  intros Hnd. revert seen. induction Hnd as [|r rs Hr Hnd IH]; intros seen Hs; [done|].
  simpl. rewrite bool_decide_eq_false_2 by (apply Hs; left). f_equal.
  apply IH. intros r' Hr' Hin. apply elem_of_cons in Hin as [->|Hin]; [done|].
  apply (Hs r'); [by right|done].
Qed.

Lemma count_na_all_present {A} (xs : list (option A)) :
  Forall is_Some xs -> count_na xs = 0.
Proof.
  unfold count_na. induction 1 as [|o xs [x ->] _ IH]; [done|].
  rewrite present_cons. simpl. pose proof (present_length_le xs). lia.
Qed.

Section second_run.
Context `{Pandas}.

(** A column the cleaner has nothing left to do with: numbers that are
    present and not negative; text that is present, lower-case, and not
    mostly numerals; a datetime column only when it has no row. *)
Definition settled_series (s : series) : Prop :=
  match s with
  | Numeric xs => Forall (fun o => exists q, o = Some q /\ (0 <= q)%Qc) xs
  | Textual xs =>
      Forall (fun o => exists t, o = Some t /\ str_lower t = t) xs
      /\ mostly_numeric (to_numeric s) = false
  | Temporal xs => xs = []
  end.

(** A frame the cleaner has nothing left to do with. *)
Definition settled (df : table) : Prop :=
  well_formed df
  /\ NoDup (names df)
  /\ (forall c, c ∈ names df -> to_snake_case c = c /\ is_datelike c = false)
  /\ (columns df = [] \/ NoDup (rows df))
  /\ Forall (fun p : string * series => settled_series p.2) (columns df).

Lemma settled_series_present s :
  settled_series s ->
  match s with
  | Numeric xs => Forall is_Some xs
  | Textual xs => Forall is_Some xs
  | Temporal xs => xs = []
  end.
Proof.
  destruct s as [xs|xs|xs]; simpl; [|intros [Hs _]|done];
    [intros Hs|]; eapply Forall_impl; try exact Hs;
    by intros o (x & -> & _).
Qed.

Lemma settled_impute s : settled_series s -> impute_series s = s.
Proof.
  intros Hs. apply settled_series_present in Hs.
  destruct s as [xs|xs|xs]; simpl; [| |by subst];
    unfold any_na; by rewrite count_na_all_present.
Qed.

Lemma settled_na s : settled_series s -> numeric_na s = 0 /\ text_na s = 0.
Proof.
  intros Hs. apply settled_series_present in Hs.
  destruct s as [xs|xs|xs]; simpl; [| |by subst];
    by rewrite count_na_all_present.
Qed.

Lemma settled_standardize c s :
  is_datelike c = false -> settled_series s -> standardize_series c s = s.
Proof.
  intros Hc Hs. unfold standardize_series. rewrite Hc.
  destruct s as [xs|xs|xs]; [done| |by simpl in Hs; subst].
  destruct Hs as [Hlow Hnum].
  assert (Hx : astype_str_lower xs = xs).
  { unfold astype_str_lower. rewrite <-(list_fmap_id xs) at 2.
    apply list_fmap_ext. intros i o Hi. rewrite Forall_forall in Hlow.
    destruct (Hlow o) as (t & -> & Ht); [by eapply list_elem_of_lookup_2|].
    simpl. by rewrite Ht. }
  cbv zeta. rewrite Hx. by rewrite Hnum.
Qed.

Lemma settled_drop_duplicates df : settled df -> drop_duplicates df = df.
Proof.
  intros (Hwf & _ & _ & Hrows & _). unfold drop_duplicates.
  destruct (empty df) eqn:He; [done|].
  destruct Hrows as [Hcols|Hrows].
  { unfold empty in He. rewrite (bool_decide_eq_true_2 (columns df = [])) in He
      by done. by rewrite orb_true_r in He. }
  apply map_rows_id; [done|]. intros A l Hl.
  unfold duplicated. rewrite duplicated_from_NoDup; [|done|].
  - apply keep_all. unfold rows. rewrite length_fmap, length_seq. lia.
  - intros r _ Hin. by apply elem_of_nil in Hin.
Qed.

Lemma settled_remove_invalid df : settled df -> remove_invalid df = (df, 0).
Proof.
  intros (Hwf & Hnd & _ & _ & Hcols). unfold remove_invalid.
  destruct (filter _ (names df)) as [|c0 cs] eqn:Hf; [done|].
  rewrite <-Hf. clear Hf.
  assert (Hmask : invalid_mask df
                    (filter (fun c => is_numeric (getitem df c) = true) (names df))
                  = replicate (nrows df) false).
  { unfold invalid_mask. generalize (filter (fun c => is_numeric (getitem df c) = true)
      (names df)). intros cols.
    assert (Hrow : forall i, existsb (fun c =>
                match getitem df c with
                | Column (Numeric xs) => negative (mjoin (xs !! i))
                | _ => false
                end) cols = false).
    { intros i. induction cols as [|c cols IH]; [done|]. simpl. rewrite IH.
      rewrite orb_false_r.
      destruct (getitem df c) as [|[xs|xs|xs]|] eqn:Hg; try done.
      apply getitem_column_elem in Hg. rewrite Forall_forall in Hcols.
      specialize (Hcols _ Hg). simpl in Hcols. rewrite Forall_forall in Hcols.
      destruct (xs !! i) as [o|] eqn:Hi; [|done].
      destruct (Hcols o) as (q & -> & Hq); [by eapply list_elem_of_lookup_2|].
      simpl. apply bool_decide_eq_false. by apply Qcle_not_lt. }
    generalize 0. induction (nrows df) as [|n IHn]; intros k; [done|].
    simpl. by rewrite Hrow, IHn. }
  rewrite Hmask. f_equal.
  - apply map_rows_id; [done|]. intros A l Hl. apply keep_all. lia.
  - generalize (nrows df). intros n. induction n as [|n IHn]; [done|].
    simpl. by rewrite filter_cons_False by done.
Qed.

Lemma settled_rename df : settled df -> rename_columns df = df.
Proof.
  intros (_ & _ & Hlab & _). destruct df as [n cols]. unfold rename_columns.
  simpl in *. f_equal. rewrite <-(list_fmap_id cols) at 2.
  apply list_fmap_ext. intros i [c s] Hi. unfold prod_map. simpl. f_equal.
  apply Hlab. apply list_elem_of_fmap. exists (c, s).
  split; [done|]. by eapply list_elem_of_lookup_2.
Qed.


End second_run.








(** ** The table invariant through the pipeline *)

Lemma keep_length_eq {A B} (m : list bool) (l : list A) (l' : list B) :
  length l = length l' -> length (keep m l) = length (keep m l').
Proof.
  revert l l'. induction m as [|b m IH]; intros [|x l] [|y l'] Hl;
    simpl in *; try done.
  destruct b; simpl; auto.
Qed.

Lemma take_rows_length_eq {A B} (idx : list nat) (l : list A) (l' : list B) :
  length l = length l' -> length (take_rows idx l) = length (take_rows idx l').
Proof.
  intros Hl. induction idx as [|i idx IH]; [done|].
  rewrite !take_rows_cons.
  destruct (l !! i) as [x|] eqn:Hx.
  - apply lookup_lt_Some in Hx. rewrite Hl in Hx.
    apply lookup_lt_is_Some_2 in Hx as [y ->]. simpl. by rewrite IH.
  - apply lookup_ge_None_1 in Hx. rewrite Hl in Hx.
    by rewrite (lookup_ge_None_2 l' i Hx).
Qed.

Lemma map_rows_well_formed f df :
  (forall A B (l : list A) (l' : list B),
     length l = length l' -> length (f A l) = length (f B l')) ->
  well_formed df -> well_formed (map_rows f df).
Proof.
  intros Hf Hwf. unfold well_formed, map_rows in *. simpl.
  rewrite Forall_fmap. eapply Forall_impl; [exact Hwf|].
  intros [c s] Hs. simpl in *. unfold size in *.
  destruct s as [xs|xs|xs]; simpl in *; rewrite length_fmap in *;
    apply Hf; by rewrite length_replicate.
Qed.

Lemma map_columns_well_formed f df :
  (forall c s, size (f c s) = size s) ->
  well_formed df -> well_formed (map_columns f df).
Proof.
  intros Hf Hwf. unfold well_formed, map_columns in *. simpl.
  rewrite Forall_fmap. eapply Forall_impl; [exact Hwf|].
  intros [c s] Hs. simpl in *. by rewrite Hf.
Qed.

Lemma drop_duplicates_well_formed df :
  well_formed df -> well_formed (drop_duplicates df).
Proof.
  intros Hwf. unfold drop_duplicates. destruct (empty df); [done|].
  apply map_rows_well_formed; [|done]. intros. by apply keep_length_eq.
Qed.

Lemma fillna_length {A} (v : option A) xs : length (fillna v xs) = length xs.
Proof. destruct v; simpl; [by rewrite length_fmap|done]. Qed.

Lemma impute_series_size s : size (impute_series s) = size s.
Proof.
  unfold size. destruct s as [xs|xs|xs]; simpl; destruct (any_na xs); simpl;
    try destruct (head (mode Z.le xs)); simpl;
    by rewrite ?length_fmap, ?fillna_length, ?length_fmap.
Qed.

Section invariant.
Context `{Pandas}.

Lemma to_numeric_length s : length (to_numeric s) = size s.
Proof.
  unfold size. destruct s as [xs|xs|xs]; simpl; by rewrite ?length_fmap.
Qed.

Lemma to_datetime_size s s' : to_datetime s = Some s' -> size s' = size s.
Proof.
  unfold size. destruct s as [xs|xs|xs]; simpl.
  - destruct (to_datetime_num xs) as [ys|] eqn:Hy; [|done].
    intros [= <-]. simpl. apply to_datetime_num_length in Hy.
    by rewrite !length_fmap.
  - destruct (to_datetime_text xs) as [ys|] eqn:Hy; [|done].
    intros [= <-]. simpl. apply to_datetime_text_length in Hy.
    by rewrite !length_fmap.
  - by intros [= <-].
Qed.

Lemma standardize_series_size c s : size (standardize_series c s) = size s.
Proof.
  unfold standardize_series.
  assert (Hstep : forall s0 : series,
    size (let s1 := match s0 with
                    | Textual xs => Textual (astype_str_lower xs)
                    | _ => s0
                    end in
          match s1 with
          | Numeric _ => s1
          | _ => if mostly_numeric (to_numeric s1)
                 then Numeric (to_numeric s1) else s1
          end) = size s0).
  { intros s0. cbv zeta.
    assert (Hcoerce : forall s1 : series, size (Numeric (to_numeric s1)) = size s1).
    { intros s1. unfold size at 1. simpl.
      by rewrite length_fmap, to_numeric_length. }
    destruct s0 as [xs|xs|xs]; [done| |].
    - destruct (mostly_numeric _); [rewrite Hcoerce|];
        unfold size, astype_str_lower; simpl; by rewrite !length_fmap.
    - destruct (mostly_numeric _); [by rewrite Hcoerce|done]. }
  cbv zeta in *. destruct (is_datelike c); [|apply Hstep].
  destruct (to_datetime s) as [s'|] eqn:Hd; simpl; [|apply Hstep].
  rewrite Hstep. by apply to_datetime_size.
Qed.

Lemma remove_invalid_well_formed df :
  well_formed df -> well_formed (remove_invalid df).1.
Proof.
  intros Hwf. unfold remove_invalid. destruct (filter _ _); [done|]. simpl.
  apply map_rows_well_formed; [|done]. intros. by apply keep_length_eq.
Qed.

Lemma rename_columns_well_formed df :
  well_formed df -> well_formed (rename_columns df).
Proof.
  unfold well_formed, rename_columns. simpl. intros Hwf.
  rewrite Forall_fmap. eapply Forall_impl; [exact Hwf|]. by intros [c s].
Qed.

(** The cleaner keeps the table invariant. *)
Lemma cleaned_of_well_formed df :
  well_formed df -> well_formed (cleaned_of df).
Proof.
  intros Hwf. unfold cleaned_of, standardized_of, imputed_of.
  apply rename_columns_well_formed, remove_invalid_well_formed.
  apply map_columns_well_formed; [apply standardize_series_size|].
  apply map_columns_well_formed; [intros; apply impute_series_size|].
  by apply drop_duplicates_well_formed.
Qed.

(** X12: the cleaner keeps the table invariant: when every column of
    the given frame has one cell per row, so has every column of the frame
    it returns. *)
Lemma clean_well_formed df cleaned summary :
  NoDup (names df) -> well_formed df ->
  clean df = Ok (cleaned, summary) -> well_formed cleaned.
Proof.
  intros Hnd Hwf. rewrite clean_returns by done. intros [= <- _].
  by apply cleaned_of_well_formed.
Qed.

End invariant.

(** A text column that is mostly numerals: the cleaner turns it into a
    numeric column and "x" into a missing cell. *)
Definition mostly_numerals : table :=
  Table 5 [("product", Textual [txt "1"; txt "2"; txt "3"; txt "4"; txt "x"])]%string.

(** The missing cell reaches the transformer, and its row has no
    aggregate row: five rows, four groups. *)
Example pipeline_drops_missing_keys :
  exists cleaned summary with_total sorted grouped,
    clean (H:=stable_pandas) mostly_numerals = Ok (cleaned, summary)
    /\ columns cleaned
       = [("product"%string, Numeric [num 1; num 2; num 3; num 4; None])]
    /\ transform (H:=stable_pandas) cleaned = Ok (with_total, sorted, grouped)
    /\ nrows with_total = 5 /\ nrows grouped = 4.
Proof.
  destruct (clean (H:=stable_pandas) mostly_numerals) as [[cleaned summary]|e] eqn:Hc;
    [|by vm_compute in Hc].
  assert (Hcols : cleaned = Table 5
    [("product"%string, Numeric [num 1; num 2; num 3; num 4; None])]).
  { assert (Ok (cleaned, summary) = clean (H:=stable_pandas) mostly_numerals) as Heq
      by done.
    assert (Hd : bool_decide ((fun r => match r with
                         | Ok (c, _) => c
                         | Raise _ => Table 0 []
                         end) (clean (H:=stable_pandas) mostly_numerals)
              = Table 5 [("product"%string,
                          Numeric [num 1; num 2; num 3; num 4; None])]) = true)
      by by vm_compute.
    apply bool_decide_eq_true in Hd. by rewrite <-Heq in Hd. }
  subst cleaned.
  destruct (transform (H:=stable_pandas) (Table 5
    [("product"%string, Numeric [num 1; num 2; num 3; num 4; None])]))
    as [[[wt s] g]|e] eqn:Ht; [|by vm_compute in Ht].
  eexists _, summary, wt, s, g. split; [done|]. split; [done|]. split; [exact Ht|].
  assert (Hn : (fun r => match r with
                  | Ok (w, _, g) => (nrows w, nrows g)
                  | Raise _ => (0, 0)
                  end) (transform (H:=stable_pandas) (Table 5
    [("product"%string, Numeric [num 1; num 2; num 3; num 4; None])])) = (5, 4))
    by by vm_compute.
  rewrite Ht in Hn. by injection Hn as -> ->.
Qed.

(** ** The filtered and sorted frame *)

Lemma keep_positive (totals : list (option Qc)) :
  exists ts, keep (positive <$> totals) totals = Some <$> ts
             /\ Forall (fun q => (0 < q)%Qc) ts.
Proof.
  induction totals as [|[q|] totals (ts & IH & Hpos)].
  - by exists [].
  - rewrite fmap_cons. cbn [keep]. unfold positive at 1. case_bool_decide.
    + exists (q :: ts). rewrite IH. split; [done|]. by constructor.
    + by exists ts.
  - rewrite fmap_cons. cbn [keep positive]. by exists ts.
Qed.

Lemma elem_of_take_rows {A} (idx : list nat) (l : list A) x :
  x ∈ take_rows idx l -> x ∈ l.
Proof.
  unfold take_rows. rewrite list_elem_of_omap. intros (i & _ & Hi).
  by eapply list_elem_of_lookup_2.
Qed.

Section filtered_sorted.
Context `{Pandas}.

(** X17: With unique labels and a grouping label that is not an aggregate
    label, the frame the transformer returns holds the rows of positive
    total, in descending order of total. *)
Lemma transform_sorted df :
  NoDup (names df) -> group_label_ok df ->
  exists with_total sorted grouped ts,
    transform df = Ok (with_total, sorted, grouped)
    /\ getitem sorted "total" = Column (Numeric (Some <$> ts))
    /\ Forall (fun q => (0 < q)%Qc) ts
    /\ StronglySorted (flip Qcle) ts.
Proof.
  intros Hnd Hok.
  destruct (transform_returns df Hnd)
    as (ts & g & k & _ & Hg & _ & Htot & _ & Htr).
  cbv zeta in *. rewrite setitem_total_names in Hg.
  rewrite bool_decide_eq_false_2 in Htr by by apply Hok.
  set (totals := Some <$> ts) in *.
  destruct (keep_positive totals) as (kept & Hkept & Hpos).
  set (order := nargsort_desc (keep (positive <$> totals) totals)).
  pose proof (take_rows_nargsort_desc (keep (positive <$> totals) totals)) as Hsorted.
  pose proof (nargsort_desc_descending (keep (positive <$> totals) totals)) as Hdesc.
  fold order in Hsorted, Hdesc. rewrite Hkept in Hsorted, Hdesc.
  rewrite present_fmap_Some in Hsorted.
  assert (Hna : count_na (Some <$> kept) = 0).
  { apply count_na_all_present, Forall_fmap, Forall_forall. by eexists. }
  rewrite Hna in Hsorted. simpl in Hsorted. rewrite app_nil_r in Hsorted.
  rewrite Hsorted, present_fmap_Some in Hdesc.
  eexists _, _, _, _. split; [exact Htr|]. split; [|split; [|exact Hdesc]].
  - unfold sorted_of, filtered_of. rewrite !getitem_map_rows, Htot. simpl.
    fold order. do 2 f_equal. rewrite Hkept. exact Hsorted.
  - apply Forall_forall. intros q Hq. rewrite Forall_forall in Hpos.
    apply Hpos. apply list_elem_of_In, in_rev, list_elem_of_In in Hq.
    apply elem_of_take_rows in Hq.
    by apply list_elem_of_In, in_rev, list_elem_of_In.
Qed.

End filtered_sorted.

(** * Further properties of the cleaner *)

(** ** Repeated labels *)

Lemma filter_label_length (c : string) (cols : list (string * series)) :
  length (filter (fun p : string * series => p.1 = c) cols)
  = length (filter (fun x => x = c) cols.*1).
Proof.
  induction cols as [|[a s] cols IH]; [done|]. rewrite fmap_cons. simpl.
  destruct (decide (a = c)) as [->|Hne].
  - rewrite !filter_cons_True by done. simpl. by rewrite IH.
  - by rewrite !filter_cons_False by done.
Qed.

(** [df[c]] is a Series exactly when the label occurs once. *)
Lemma getitem_occurrences df c :
  match getitem df c with
  | Absent => occurrences c (names df) = 0
  | Column _ => occurrences c (names df) = 1
  | Columns _ => 2 <= occurrences c (names df)
  end.
Proof.
  unfold getitem, occurrences, names. rewrite <-filter_label_length.
  destruct (filter _ (columns df)) as [|p [|q l]]; simpl; [done..|lia].
Qed.

Lemma occurrences_NoDup (c : string) (l : list string) :
  NoDup l -> occurrences c l <= 1.
Proof.
  unfold occurrences. induction 1 as [|x l Hx _ IH]; [simpl; lia|].
  destruct (decide (x = c)) as [->|Hne].
  - rewrite filter_cons_True by done. simpl.
    assert (Hnil : filter (fun y => y = c) l = []).
    { destruct (filter (fun y => y = c) l) as [|y l'] eqn:Hf; [done|].
      assert (Hy : y ∈ filter (fun y => y = c) l) by (rewrite Hf; left).
      by apply list_elem_of_filter in Hy as [-> Hy]. }
    by rewrite Hnil.
  - by rewrite filter_cons_False by done.
Qed.

Lemma occurrences_elem (c : string) (l : list string) :
  c ∈ l -> 1 <= occurrences c l.
Proof.
  unfold occurrences. intros Hc.
  assert (Hin : c ∈ filter (fun y => y = c) l) by by apply list_elem_of_filter.
  destruct (filter _ l); [by apply elem_of_nil in Hin|simpl; lia].
Qed.

Lemma once_NoDup (l : list string) :
  (forall c, c ∈ l -> occurrences c l = 1) -> NoDup l.
Proof.
  unfold occurrences. induction l as [|x l IH]; intros Hl; [constructor|].
  assert (Hx : x ∉ l).
  { intros Hx. specialize (Hl x ltac:(left)).
    rewrite filter_cons_True in Hl by done. simpl in Hl.
    apply occurrences_elem in Hx. unfold occurrences in Hx. lia. }
  constructor; [done|]. apply IH. intros c Hc.
  specialize (Hl c ltac:(by right)).
  rewrite filter_cons_False in Hl; [done|]. by intros ->.
Qed.

(** A round of the imputation loop that returns has found a Series, and
    leaves the labels as they are. *)
Lemma impute_column_Ok c df a b df' a' b' :
  impute_column c (df, a, b) = Ok (df', a', b') ->
  names df' = names df /\ occurrences c (names df) = 1.
Proof.
  unfold impute_column. pose proof (getitem_occurrences df c) as Hocc.
  destruct (getitem df c) as [|s|ss] eqn:Hg; [done| |done].
  assert (Hc : c ∈ names df).
  { apply getitem_column_elem in Hg. apply list_elem_of_fmap. by exists (c, s). }
  intros Hi. split; [|done].
  destruct s as [xs|xs|xs]; destruct (any_na xs);
    try destruct (head (mode Z.le xs)); simplify_eq;
    by rewrite ?setitem_names_old.
Qed.

Lemma impute_column_Raise c df a b e :
  c ∈ names df ->
  impute_column c (df, a, b) = Raise e ->
  e = ValueError /\ 2 <= occurrences c (names df).
Proof.
  unfold impute_column. pose proof (getitem_occurrences df c) as Hocc.
  intros Hc%occurrences_elem.
  destruct (getitem df c) as [|s|ss] eqn:Hg.
  - lia.
  - destruct s as [xs|xs|xs]; destruct (any_na xs);
      try destruct (head (mode Z.le xs)); done.
  - by intros [= <-].
Qed.

Lemma for_columns_impute_Ok cols df a b df' a' b' :
  for_columns impute_column cols (df, a, b) = Ok (df', a', b') ->
  forall c, c ∈ cols -> occurrences c (names df) = 1.
Proof.
  revert df a b. induction cols as [|col cols IH]; intros df a b Hf c Hc.
  { by apply elem_of_nil in Hc. }
  cbn [for_columns] in Hf.
  destruct (impute_column col (df, a, b)) as [[[df1 a1] b1]|] eqn:Hi; [|done].
  apply impute_column_Ok in Hi as [Hn Hocc].
  apply elem_of_cons in Hc as [->|Hc]; [done|].
  rewrite <-Hn. by eapply IH.
Qed.

Lemma for_columns_impute_Raise cols df a b e :
  cols ⊆ names df ->
  for_columns impute_column cols (df, a, b) = Raise e ->
  e = ValueError /\ ~ NoDup (names df).
Proof.
  revert df a b. induction cols as [|col cols IH]; intros df a b Hsub Hf; [done|].
  cbn [for_columns] in Hf.
  destruct (impute_column col (df, a, b)) as [[[df1 a1] b1]|e'] eqn:Hi.
  - apply impute_column_Ok in Hi as [Hn _]. rewrite <-Hn.
    eapply IH; [|exact Hf]. rewrite Hn. intros x Hx. apply Hsub. by right.
  - simplify_eq. apply impute_column_Raise in Hi as [-> Hocc]; [|apply Hsub; left].
    split; [done|]. intros Hnd. apply (occurrences_NoDup col) in Hnd. lia.
Qed.

Section returns_or_raises.
Context `{Pandas}.

Lemma clean_Ok df cleaned summary :
  clean df = Ok (cleaned, summary) ->
  NoDup (names df) /\ cleaned = cleaned_of df /\ summary = summary_of df.
Proof.
  intros Hc. assert (Hnd : NoDup (names df)).
  { unfold clean in Hc.
    destruct (handle_missing (drop_duplicates df)) as [[[df1 a1] b1]|] eqn:Hh;
      [|done].
    rewrite <-drop_duplicates_names. apply once_NoDup.
    by eapply for_columns_impute_Ok. }
  rewrite clean_returns in Hc by done. by simplify_eq.
Qed.

(** X2: the cleaner raises exactly when a label repeats, and then it is
    the ValueError of the truth value of a Series in the imputation
    loop. *)
Theorem clean_raises df e :
  clean df = Raise e <-> e = ValueError /\ ~ NoDup (names df).
Proof.
  assert (Hr : forall e', clean df = Raise e' ->
                          e' = ValueError /\ ~ NoDup (names df)).
  { intros e' Hc. unfold clean in Hc.
    destruct (handle_missing (drop_duplicates df)) as [[[df1 a1] b1]|e0] eqn:Hh.
    - cbn [mbind result_bind] in Hc. by destruct (remove_invalid _).
    - cbn [mbind result_bind] in Hc. simplify_eq.
      rewrite <-drop_duplicates_names. by eapply for_columns_impute_Raise. }
  split; [apply Hr|]. intros [-> Hnd].
  destruct (clean df) as [[cleaned summary]|e'] eqn:Hc.
  - by apply clean_Ok in Hc as [? _].
  - by destruct (Hr e' eq_refl) as [-> _].
Qed.

End returns_or_raises.

(** ** What every cleaned frame has *)

Lemma keep_Forall {A} (P : A -> Prop) (m : list bool) (l : list A) :
  (forall i x, m !! i = Some true -> l !! i = Some x -> P x) ->
  Forall P (keep m l).
Proof.
  revert l. induction m as [|b m IH]; intros [|x l] Hp; simpl; try done.
  assert (Htl : Forall P (keep m l)).
  { apply IH. intros i y Hm Hl. by apply (Hp (S i)). }
  destruct b; [|done]. constructor; [|done]. by apply (Hp 0).
Qed.

Lemma keep_Forall_all {A} (P : A -> Prop) (m : list bool) (l : list A) :
  Forall P l -> Forall P (keep m l).
Proof.
  intros Hl. apply keep_Forall. intros i x _ Hx.
  rewrite Forall_forall in Hl. by eapply Hl, list_elem_of_lookup_2.
Qed.

Section cleaned.
Context `{Pandas}.

(** The shape of a column after the cleaner: no negative number; text
    present and lower-case; a datetime column has no row. *)
Definition cleaned_series (s : series) : Prop :=
  match s with
  | Numeric xs => Forall (fun o => negative o = false) xs
  | Textual xs => Forall (fun o => exists t, o = Some t /\ str_lower t = t) xs
  | Temporal xs => xs = []
  end.

(** After standardization, whatever the numbers are. *)
Definition standardized_series (s : series) : Prop :=
  match s with
  | Numeric _ => True
  | _ => cleaned_series s
  end.

Lemma standardize_series_shape c s :
  standardized_series (standardize_series c s).
Proof.
  unfold standardize_series.
  assert (Hstep : forall s0 : series,
    standardized_series
      (let s1 := match s0 with
                 | Textual xs => Textual (astype_str_lower xs)
                 | _ => s0
                 end in
       match s1 with
       | Numeric _ => s1
       | _ => if mostly_numeric (to_numeric s1)
              then Numeric (to_numeric s1) else s1
       end)).
  { intros [xs|xs|xs]; cbv zeta; [done| |].
    - destruct (mostly_numeric _); [done|]. simpl.
      unfold astype_str_lower. rewrite Forall_fmap. apply Forall_forall.
      intros o _. simpl. eexists. split; [done|]. apply str_lower_idemp.
    - destruct (mostly_numeric _) eqn:Hm; [done|]. simpl.
      unfold mostly_numeric in Hm. apply bool_decide_eq_false in Hm.
      simpl in Hm. destruct xs as [|o xs]; [done|]. exfalso. apply Hm.
      assert (Hp : forall l : list (option Z),
        present ((fun o => Some (Qc_of_Z (default iNaT o))) <$> l)
        = (fun o => Qc_of_Z (default iNaT o)) <$> l).
      { intros l. induction l as [|a l IH]; [done|].
        rewrite !fmap_cons, present_cons. by rewrite IH. }
      rewrite Hp, !length_fmap. simpl. lia. }
  cbv zeta in *. destruct (is_datelike c); [|apply Hstep].
  destruct (to_datetime s); apply Hstep.
Qed.

Lemma invalid_mask_lookup df cols i c xs :
  invalid_mask df cols !! i = Some false ->
  c ∈ cols -> getitem df c = Column (Numeric xs) ->
  negative (mjoin (xs !! i)) = false.
Proof.
  unfold invalid_mask. rewrite list_lookup_fmap.
  destruct (seq 0 (nrows df) !! i) as [j|] eqn:Hj; [|done].
  apply lookup_seq in Hj as [-> _]. simpl. intros [= Hex] Hc Hg.
  destruct (negative (mjoin (xs !! i))) eqn:Hn; [|done].
  assert (Htrue : existsb (fun c => match getitem df c with
                    | Column (Numeric xs) => negative (mjoin (xs !! i))
                    | _ => false
                    end) cols = true).
  { apply existsb_exists. exists c. split; [by apply list_elem_of_In|].
    by rewrite Hg. }
  congruence.
Qed.

Lemma remove_invalid_shape df :
  NoDup (names df) ->
  Forall (fun p : string * series => standardized_series p.2) (columns df) ->
  Forall (fun p : string * series => cleaned_series p.2)
    (columns (remove_invalid df).1).
Proof.
  intros Hnd Hshape. unfold remove_invalid.
  destruct (filter (fun c => is_numeric (getitem df c) = true) (names df))
    as [|c0 cs] eqn:Hf.
  - simpl. apply Forall_forall. intros [c s] Hin.
    rewrite Forall_forall in Hshape. specialize (Hshape _ Hin). simpl in *.
    destruct s as [xs|xs|xs]; [|done..].
    exfalso. assert (Hc : c ∈ filter (fun c => is_numeric (getitem df c) = true)
                            (names df)).
    { apply list_elem_of_filter. split.
      - by rewrite (getitem_unique df c (Numeric xs)).
      - apply list_elem_of_fmap. by exists (c, Numeric xs). }
    rewrite Hf in Hc. by apply elem_of_nil in Hc.
  - rewrite <-Hf. clear Hf. simpl. rewrite Forall_fmap.
    apply Forall_forall. intros [c s] Hin.
    rewrite Forall_forall in Hshape. specialize (Hshape _ Hin). simpl in *.
    destruct s as [xs|xs|xs]; simpl in *.
    + apply keep_Forall. intros i o Hm Hx.
      rewrite list_lookup_fmap in Hm.
      destruct (invalid_mask df _ !! i) as [[|]|] eqn:Hmask; simplify_eq/=.
      pose proof (invalid_mask_lookup df _ i c xs Hmask) as Hneg.
      rewrite Hx in Hneg. simpl in Hneg. apply Hneg.
      * apply list_elem_of_filter. split.
        -- by rewrite (getitem_unique df c (Numeric xs)).
        -- apply list_elem_of_fmap. by exists (c, Numeric xs).
      * by apply getitem_unique.
    + by apply keep_Forall_all.
    + subst. by destruct (negb <$> _).
Qed.

Lemma cleaned_of_shape df :
  NoDup (names df) ->
  Forall (fun p : string * series => cleaned_series p.2) (columns (cleaned_of df)).
Proof.
  intros Hnd. unfold cleaned_of, rename_columns. simpl. rewrite Forall_fmap.
  assert (Hs : Forall (fun p : string * series => cleaned_series p.2)
                 (columns (remove_invalid (standardized_of df)).1)).
  { apply remove_invalid_shape.
    - unfold standardized_of, imputed_of.
      by rewrite !map_columns_names, drop_duplicates_names.
    - unfold standardized_of, map_columns. simpl. rewrite Forall_fmap.
      apply Forall_forall. intros [c s] _. simpl.
      apply standardize_series_shape. }
  eapply Forall_impl; [exact Hs|]. by intros [c s].
Qed.


Lemma remove_invalid_names df : names (remove_invalid df).1 = names df.
Proof.
  unfold remove_invalid. destruct (filter _ _); [done|]. apply map_rows_names.
Qed.

Lemma cleaned_of_names df : names (cleaned_of df) = to_snake_case <$> names df.
Proof.
  transitivity (to_snake_case <$> names (remove_invalid (standardized_of df)).1).
  - unfold cleaned_of, rename_columns, names. simpl.
    rewrite <-!list_fmap_compose. apply list_fmap_ext. by intros i [c s] _.
  - rewrite remove_invalid_names. unfold standardized_of, imputed_of.
    by rewrite !map_columns_names, drop_duplicates_names.
Qed.

(** X3: the labels of the cleaned frame are the normalized labels of the
    given frame, one for each column and in the order of the columns;
    each of them is a label the normalizer leaves as it is. *)
Theorem clean_labels df cleaned summary :
  clean df = Ok (cleaned, summary) ->
  names cleaned = to_snake_case <$> names df
  /\ forall c, c ∈ names cleaned -> to_snake_case c = c.
Proof.
  intros (_ & -> & _)%clean_Ok. rewrite cleaned_of_names. split; [done|].
  intros c (c' & -> & _)%list_elem_of_fmap. apply to_snake_case_idemp.
Qed.

(** X4: no number of the cleaned frame is negative. *)
Theorem clean_no_negative df cleaned summary c xs :
  clean df = Ok (cleaned, summary) ->
  (c, Numeric xs) ∈ columns cleaned ->
  Forall (fun o => forall q, o = Some q -> (0 <= q)%Qc) xs.
Proof.
  intros (Hnd & -> & _)%clean_Ok Hin.
  pose proof (cleaned_of_shape df Hnd) as Hshape.
  rewrite Forall_forall in Hshape. specialize (Hshape _ Hin). simpl in Hshape.
  eapply Forall_impl; [exact Hshape|]. intros o Hneg q ->. simpl in Hneg.
  apply bool_decide_eq_false in Hneg. by apply Qcnot_lt_le.
Qed.

(** X5: every cell of a text column of the cleaned frame holds a string,
    and the string is in lower case. *)
Theorem clean_text_lower_case df cleaned summary c xs :
  clean df = Ok (cleaned, summary) ->
  (c, Textual xs) ∈ columns cleaned ->
  Forall (fun o => exists t, o = Some t /\ str_lower t = t) xs.
Proof.
  intros (Hnd & -> & _)%clean_Ok Hin.
  pose proof (cleaned_of_shape df Hnd) as Hshape.
  rewrite Forall_forall in Hshape. apply (Hshape _ Hin).
Qed.

(** X6: a datetime column does not leave the cleaner with a row: the
    numeric coercion of datetimes has no missing value, so the column is
    replaced by its nanoseconds. *)
Theorem clean_no_datetime df cleaned summary c xs :
  clean df = Ok (cleaned, summary) ->
  (c, Temporal xs) ∈ columns cleaned -> xs = [].
Proof.
  intros (Hnd & -> & _)%clean_Ok Hin.
  pose proof (cleaned_of_shape df Hnd) as Hshape.
  rewrite Forall_forall in Hshape. apply (Hshape _ Hin).
Qed.

Lemma keep_negb_length {A} (m : list bool) (l : list A) :
  length m = length l ->
  length (keep (negb <$> m) l) + length (filter (fun b => b = true) m) = length l.
Proof.
  revert l. induction m as [|b m IH]; intros [|x l] Hl; simplify_eq/=; [done|].
  specialize (IH l Hl). destruct b.
  - rewrite filter_cons_True by done. simpl. lia.
  - rewrite filter_cons_False by done. simpl. lia.
Qed.

Lemma remove_invalid_count df :
  nrows (remove_invalid df).1 + (remove_invalid df).2 = nrows df.
Proof.
  unfold remove_invalid. destruct (filter _ (names df)) as [|c0 cs]; [simpl; lia|].
  generalize (c0 :: cs). intros cols. simpl.
  rewrite keep_negb_length; [by rewrite length_replicate|].
  unfold invalid_mask. by rewrite length_fmap, length_seq, length_replicate.
Qed.

(** X7: the summary of the cleaner accounts for every row of the given
    frame: it is in the cleaned frame, or it was counted as a duplicate,
    or it was counted as invalid. *)
Theorem clean_row_accounting df cleaned summary :
  clean df = Ok (cleaned, summary) ->
  rows_before summary = nrows df
  /\ rows_after_cleaning summary = nrows cleaned
  /\ rows_after_transform summary = nrows cleaned
  /\ rows_before summary
     = rows_after_cleaning summary + removed_duplicates summary
       + removed_invalid_rows summary.
Proof.
  intros (_ & -> & ->)%clean_Ok. unfold summary_of. simpl.
  split_and!; try done.
  pose proof (remove_invalid_count (standardized_of df)) as Hinv.
  pose proof (drop_duplicates_nrows df) as Hdup.
  change (nrows (standardized_of df)) with (nrows (drop_duplicates df)) in Hinv.
  lia.
Qed.

End cleaned.

(** ** The counts of filled cells *)

Definition missing_cells (s : series) : nat :=
  length (filter (fun c => c = Missing) (cells s)).

Lemma count_na_cons {A} (o : option A) (xs : list (option A)) :
  count_na (o :: xs)
  = match o with
    | Some _ => count_na xs
    | None => S (count_na xs)
    end.
Proof.
  unfold count_na. rewrite present_cons. pose proof (present_length_le xs).
  destruct o; simpl; lia.
Qed.

Lemma count_na_missing {A} (f : A -> cell) (xs : list (option A)) :
  (forall x, f x <> Missing) ->
  length (filter (fun c => c = Missing) (from_option f Missing <$> xs))
  = count_na xs.
Proof.
  intros Hf. induction xs as [|[x|] xs IH]; [done| |];
    rewrite fmap_cons, count_na_cons; cbn [from_option].
  - by rewrite filter_cons_False by apply Hf.
  - rewrite filter_cons_True by done. simpl. by rewrite IH.
Qed.

Lemma na_missing_cells s :
  numeric_na s = (if is_numeric (Column s) then missing_cells s else 0)
  /\ text_na s = (if is_numeric (Column s) then 0 else missing_cells s).
Proof.
  unfold missing_cells. destruct s as [xs|xs|xs]; simpl;
    by rewrite count_na_missing.
Qed.

Lemma sum_na_missing_cells (l : list series) :
  sum_list (numeric_na <$> l)
  = sum_list (missing_cells <$> filter (fun s => is_numeric (Column s) = true) l)
  /\ sum_list (text_na <$> l)
     = sum_list (missing_cells <$> filter (fun s => is_numeric (Column s) = false) l).
Proof.
  induction l as [|s l [IH1 IH2]]; [done|].
  rewrite !fmap_cons. cbn [sum_list sum_list_with].
  destruct (na_missing_cells s) as [-> ->].
  destruct (is_numeric (Column s)) eqn:Hs.
  - rewrite filter_cons_True by done. rewrite filter_cons_False by congruence.
    rewrite fmap_cons. cbn [sum_list sum_list_with]. by rewrite IH1, IH2.
  - rewrite filter_cons_False by congruence. rewrite filter_cons_True by done.
    rewrite fmap_cons. cbn [sum_list sum_list_with]. by rewrite IH1, IH2.
Qed.

Section counts.
Context `{Pandas}.

(** X8: [filled_missing_numeric] is the number of missing cells in the
    numeric columns of the frame without its duplicate rows, and
    [filled_missing_text] the number of missing cells in its other
    columns. *)
Theorem clean_filled_counts df cleaned summary :
  clean df = Ok (cleaned, summary) ->
  filled_missing_numeric summary
  = sum_list (missing_cells
              <$> filter (fun s => is_numeric (Column s) = true)
                    (columns (drop_duplicates df)).*2)
  /\ filled_missing_text summary
     = sum_list (missing_cells
                 <$> filter (fun s => is_numeric (Column s) = false)
                       (columns (drop_duplicates df)).*2).
Proof.
  intros (_ & _ & ->)%clean_Ok. unfold summary_of. simpl.
  apply sum_na_missing_cells.
Qed.

(** X9: a frame without rows is cleaned to a frame without rows, with the
    normalized labels, and every count of the summary is 0. *)
Theorem clean_empty df :
  NoDup (names df) -> well_formed df -> nrows df = 0 ->
  exists cleaned,
    clean df = Ok (cleaned, Summary 0 0 0 0 0 0 0)
    /\ nrows cleaned = 0
    /\ names cleaned = to_snake_case <$> names df.
Proof.
  intros Hnd Hwf Hn. exists (cleaned_of df). rewrite clean_returns by done.
  pose proof (cleaned_of_nrows df) as Hle.
  pose proof (remove_invalid_count (standardized_of df)) as Hinv.
  change (nrows (standardized_of df)) with (nrows (drop_duplicates df)) in Hinv.
  pose proof (drop_duplicates_nrows df) as Hdup.
  assert (Hdd : drop_duplicates df = df).
  { unfold drop_duplicates, empty. by rewrite (bool_decide_eq_true_2 _ Hn). }
  assert (Hna : forall s, s ∈ (columns df).*2 -> numeric_na s = 0 /\ text_na s = 0).
  { intros s ([c s'] & -> & Hin)%list_elem_of_fmap. simpl.
    unfold well_formed in Hwf. rewrite Forall_forall in Hwf.
    specialize (Hwf _ Hin). simpl in Hwf. rewrite Hn in Hwf.
    unfold size in Hwf.
    destruct s' as [xs|xs|xs]; simpl in *; rewrite length_fmap in Hwf;
      apply nil_length_inv in Hwf; by subst. }
  assert (Hsum : sum_list (numeric_na <$> (columns df).*2) = 0
                 /\ sum_list (text_na <$> (columns df).*2) = 0).
  { revert Hna. generalize ((columns df).*2). intros l Hl.
    induction l as [|s l IH]; [done|]. rewrite !fmap_cons.
    cbn [sum_list sum_list_with].
    destruct (Hl s ltac:(left)) as [-> ->].
    destruct IH as [-> ->]; [|done]. intros s' Hs'. apply Hl. by right. }
  split; [|split; [lia|apply cleaned_of_names]].
  unfold summary_of. rewrite Hdd. destruct Hsum as [-> ->].
  do 2 f_equal. f_equal; lia.
Qed.

End counts.

(** ** Imputation of the numeric columns *)




Lemma filter_all {A} (P : A -> Prop) `{forall x, Decision (P x)} (l : list A) :
  Forall P l -> filter P l = l.
Proof.
  induction 1 as [|x l Hx _ IH]; [done|].
  by rewrite filter_cons_True, IH by done.
Qed.







(** ** Rows of a frame whose rows were selected *)

(** The positions a mask keeps, counted from [k]. *)
Fixpoint positions_from (k : nat) (m : list bool) : list nat :=
  match m with
  | [] => []
  | b :: m => if b then k :: positions_from (S k) m else positions_from (S k) m
  end.

Lemma keep_nil {A} (m : list bool) : keep m (@nil A) = [].
Proof. by destruct m. Qed.

Lemma keep_positions {A} (m : list bool) (l : list A) k :
  take_rows (positions_from k m) l = keep m (drop k l).
Proof.
  revert k. induction m as [|b m IH]; intros k; [done|]. simpl.
  destruct (l !! k) as [x|] eqn:Hk.
  - rewrite (drop_S _ _ _ Hk). destruct b; [|apply IH].
    by rewrite take_rows_cons, Hk, IH.
  - apply lookup_ge_None_1 in Hk. rewrite drop_ge by done.
    destruct b.
    + rewrite take_rows_cons, (lookup_ge_None_2 _ _ Hk), IH.
      rewrite drop_ge by lia. apply keep_nil.
    + rewrite IH, drop_ge by lia. apply keep_nil.
Qed.

Lemma positions_from_range k m :
  Forall (fun i => i < k + length m) (positions_from k m).
Proof.
  revert k. induction m as [|b m IH]; intros k; [constructor|]. simpl.
  assert (Htl : Forall (fun i => i < k + S (length m)) (positions_from (S k) m)).
  { eapply Forall_impl; [apply IH|]. intros i Hi. simpl in Hi. lia. }
  destruct b; [|done]. constructor; [lia|done].
Qed.

Lemma map_rows_ext f g df :
  (forall A (l : list A), f A l = g A l) -> map_rows f df = map_rows g df.
Proof.
  intros Hfg. unfold map_rows. rewrite Hfg. f_equal.
  apply list_fmap_ext. intros i [c s] _. unfold prod_map. simpl. f_equal.
  destruct s; simpl; by rewrite Hfg.
Qed.

Lemma take_rows_length_in_range {A} (idx : list nat) (l : list A) :
  Forall (fun j => j < length l) idx -> length (take_rows idx l) = length idx.
Proof.
  intros Hr. symmetry. eapply Forall2_length, take_rows_in_range, Hr.
Qed.

Lemma take_rows_seq_id (idx : list nat) n :
  Forall (fun j => j < n) idx -> take_rows idx (seq 0 n) = idx.
Proof.
  induction 1 as [|j idx Hj _ IH]; [done|].
  by rewrite take_rows_cons, lookup_seq_lt, IH.
Qed.

Lemma cells_on_rows f s :
  (forall A B (g : A -> B) (l : list A), f B (g <$> l) = g <$> f A l) ->
  cells (on_rows f s) = f cell (cells s).
Proof. intros Hf. destruct s; simpl; by rewrite Hf. Qed.

Lemma rows_take_rows idx df :
  well_formed df -> Forall (fun i => i < nrows df) idx ->
  rows (map_rows (fun A => take_rows idx) df) = take_rows idx (rows df).
Proof.
  intros Hwf Hr. unfold rows at 2. rewrite take_rows_fmap, take_rows_seq_id by done.
  unfold rows, map_rows. cbn [nrows].
  rewrite take_rows_length_in_range by (by rewrite length_replicate).
  apply list_eq. intros j. rewrite !list_lookup_fmap.
  destruct (idx !! j) as [i|] eqn:Hj.
  - rewrite lookup_seq_lt by (by eapply lookup_lt_Some). simpl. f_equal.
    unfold row. cbn [columns]. rewrite <-list_fmap_compose.
    apply list_fmap_ext. intros n [c s] Hcs. simpl.
    rewrite (cells_on_rows (fun A => take_rows idx) s)
      by (intros; apply take_rows_fmap).
    unfold well_formed in Hwf. rewrite Forall_forall in Hwf.
    assert (Hs : size s = nrows df).
    { apply (Hwf (c, s)). by eapply list_elem_of_lookup_2. }
    assert (Hr' : Forall (fun j => j < length (cells s)) idx).
    { eapply Forall_impl; [exact Hr|]. intros k Hk. simpl in Hk.
      unfold size in Hs. lia. }
    pose proof (take_rows_in_range idx (cells s) Hr') as H2.
    destruct (Forall2_lookup_l _ _ _ _ _ H2 Hj) as (x & Hx & Hi).
    by rewrite Hx, Hi.
  - apply lookup_ge_None_1 in Hj. by rewrite lookup_seq_ge.
Qed.

Lemma rows_keep m df :
  well_formed df -> length m <= nrows df ->
  rows (map_rows (fun A => keep m) df) = keep m (rows df).
Proof.
  intros Hwf Hm.
  rewrite (map_rows_ext _ (fun A => take_rows (positions_from 0 m))).
  2: { intros A l. by rewrite keep_positions, drop_0. }
  rewrite rows_take_rows; [by rewrite keep_positions, drop_0|done|].
  eapply Forall_impl; [apply positions_from_range|]. intros i Hi.
  simpl in Hi. lia.
Qed.

(** ** Duplicate rows *)

(** Each value once, at the place where it first occurs. *)
Fixpoint first_occurrences {A} `{EqDecision A} (l : list A) : list A :=
  match l with
  | [] => []
  | x :: l => x :: filter (fun y => y <> x) (first_occurrences l)
  end.

Lemma elem_of_first_occurrences {A} `{EqDecision A} (l : list A) x :
  x ∈ first_occurrences l <-> x ∈ l.
Proof.
  induction l as [|a l IH]; [done|]. simpl.
  rewrite !elem_of_cons, list_elem_of_filter, IH. split.
  - intros [->|[_ Hx]]; [by left|by right].
  - intros [->|Hx]; [by left|].
    destruct (decide (x = a)) as [->|Hne]; [by left|by right].
Qed.

Lemma NoDup_first_occurrences {A} `{EqDecision A} (l : list A) :
  NoDup (first_occurrences l).
Proof.
  induction l as [|a l IH]; [constructor|]. simpl. constructor.
  - rewrite list_elem_of_filter. by intros [Ha _].
  - by apply NoDup_filter.
Qed.

Lemma keep_not_duplicated (seen rs : list (list cell)) :
  keep (negb <$> duplicated_from seen rs) rs
  = filter (fun r => r ∉ seen) (first_occurrences rs).
Proof.
  revert seen. induction rs as [|r rs IH]; intros seen; [done|].
  cbn [duplicated_from first_occurrences]. rewrite fmap_cons. cbn [keep].
  rewrite IH, filter_cons, list_filter_filter.
  assert (Hf : filter (fun r0 => r0 ∉ r :: seen) (first_occurrences rs)
               = filter (fun x => (x ∉ seen) /\ x <> r) (first_occurrences rs)).
  { apply filter_ext_in. intros x _. rewrite not_elem_of_cons.
    split; intros [Hx1 Hx2]; by split. }
  rewrite Hf. case_bool_decide as Hr; simpl.
  - rewrite decide_False; [done|]. intros Hn. by apply Hn.
  - by rewrite decide_True by done.
Qed.

(** X11: [drop_duplicates] keeps, of the rows of a frame that has
    columns, each distinct row once, at the place of its first
    occurrence; the rows it returns are distinct and are the rows the
    frame has. *)
Theorem drop_duplicates_first_occurrences df :
  well_formed df -> columns df <> [] ->
  rows (drop_duplicates df) = first_occurrences (rows df)
  /\ NoDup (rows (drop_duplicates df))
  /\ forall r, r ∈ rows (drop_duplicates df) <-> r ∈ rows df.
Proof.
  intros Hwf Hcols.
  assert (Hrows : rows (drop_duplicates df) = first_occurrences (rows df)).
  { unfold drop_duplicates, empty.
    rewrite (bool_decide_eq_false_2 (columns df = [])) by done.
    rewrite orb_false_r. case_bool_decide as Hn.
    - unfold rows. by rewrite Hn.
    - rewrite rows_keep; [|done|].
      + unfold duplicated. rewrite keep_not_duplicated.
        apply filter_all, Forall_forall. intros r _. apply not_elem_of_nil.
      + rewrite length_fmap. unfold duplicated.
        assert (Hlen : forall seen rs, length (duplicated_from seen rs) = length rs).
        { intros seen rs. revert seen. induction rs as [|r rs IH]; intros seen;
            [done|]. simpl. by rewrite IH. }
        rewrite Hlen. unfold rows. by rewrite length_fmap, length_seq. }
  rewrite Hrows. split; [done|]. split; [apply NoDup_first_occurrences|].
  intros r. apply elem_of_first_occurrences.
Qed.

(** * Further properties of the transformer *)

Lemma keep_all_true {A} (l : list A) n :
  length l <= n -> keep (replicate n true) l = l.
Proof.
  revert l. induction n as [|n IH]; intros [|x l] Hl; simpl in *; try done.
  - lia.
  - f_equal. apply IH. lia.
Qed.

Section transformer_rows.
Context `{Pandas}.

(** X15: with unique labels the transformer raises exactly when the
    label it groups by is one of the labels of the aggregate, and then it
    is the ValueError of [reset_index]. *)
Theorem transform_raises df e :
  NoDup (names df) ->
  transform df = Raise e <-> e = ValueError /\ ~ group_label_ok df.
Proof.
  intros Hnd.
  destruct (transform_returns df Hnd) as (ts & g & k & _ & Hg & _ & _ & _ & Htr).
  cbv zeta in *. rewrite setitem_total_names in Hg. rewrite Htr.
  case_bool_decide as Hagg.
  - split.
    + intros [= <-]. split; [done|]. intros Hok. by apply (Hok g).
    + by intros [-> _].
  - split; [done|]. intros [_ Hok]. exfalso. apply Hok.
    intros g' Hg'. rewrite Hg in Hg'. by simplify_eq.
Qed.

(** X16: the frame the transformer returns holds the rows of the frame
    with its total column whose total is positive, each once, in some
    order. *)
Theorem transform_keeps_positive_rows df with_total sorted grouped :
  NoDup (names df) -> well_formed df ->
  transform df = Ok (with_total, sorted, grouped) ->
  exists totals,
    getitem with_total "total" = Column (Numeric totals)
    /\ length totals = nrows df
    /\ rows sorted ≡ₚ keep (positive <$> totals) (rows with_total)
    /\ nrows sorted = length (filter (fun o => positive o = true) totals).
Proof.
  intros Hnd Hwf Ht.
  destruct (transform_returns df Hnd)
    as (ts & g & k & _ & _ & _ & Htot & Hlen & Htr).
  cbv zeta in *. specialize (Hlen Hwf). rewrite Htr in Ht.
  case_bool_decide; [done|]. simplify_eq.
  set (totals := Some <$> ts) in *.
  set (with_total := setitem df "total" (Numeric totals)) in *.
  assert (Hlt : length totals = nrows df)
    by (unfold totals; by rewrite length_fmap).
  assert (Hwf' : well_formed with_total).
  { apply setitem_well_formed; [done|]. unfold size. simpl.
    by rewrite length_fmap. }
  assert (Hn : nrows with_total = nrows df) by apply setitem_nrows.
  set (mask := positive <$> totals).
  assert (Hmask : length mask = nrows with_total)
    by (unfold mask; rewrite length_fmap; lia).
  set (filtered := filtered_of with_total totals).
  assert (Hwff : well_formed filtered).
  { apply map_rows_well_formed; [|done]. intros. by apply keep_length_eq. }
  assert (Hnf : nrows filtered = length (keep mask totals)).
  { unfold filtered, filtered_of, map_rows. cbn [nrows]. fold mask.
    apply keep_length_eq. rewrite length_replicate. lia. }
  set (order := nargsort_desc (keep mask totals)).
  assert (Hperm : order ≡ₚ seq 0 (nrows filtered)).
  { unfold order. rewrite Hnf. apply nargsort_desc_perm. }
  assert (Hrange : Forall (fun i => i < nrows filtered) order).
  { apply Forall_forall. intros i Hi. rewrite Hperm in Hi.
    apply elem_of_seq in Hi. lia. }
  assert (Hrows : rows (sorted_of with_total totals)
                  = take_rows order (keep mask (rows with_total))).
  { unfold sorted_of. fold mask order filtered.
    rewrite rows_take_rows by done. unfold filtered, filtered_of. fold mask.
    rewrite rows_keep; [done|done|lia]. }
  assert (Hlen_rows : length (keep mask (rows with_total)) = nrows filtered).
  { rewrite Hnf. apply keep_length_eq. unfold rows.
    rewrite length_fmap, length_seq. lia. }
  exists totals. split; [done|]. split; [done|]. split.
  - assert (Hgoal : order ≡ₚ seq 0 (length (keep mask (rows with_total))))
      by (by rewrite Hlen_rows).
    rewrite Hrows. exact (take_rows_perm _ _ Hgoal).
  - assert (Hs : nrows (sorted_of with_total totals) = nrows filtered).
    { unfold sorted_of. fold mask order filtered. unfold map_rows at 1.
      cbn [nrows]. rewrite take_rows_length_in_range.
      - by rewrite Hperm, length_seq.
      - by rewrite length_replicate. }
    rewrite Hs, Hnf. unfold mask. clear.
    induction totals as [|o totals IH]; [done|]. rewrite fmap_cons. cbn [keep].
    destruct (positive o) eqn:Ho.
    + rewrite filter_cons_True by done. simpl. by rewrite IH.
    + rewrite filter_cons_False by congruence. done.
Qed.

(** X18: when the frame has no price-like label, or no quantity-like
    label, every total is 1 and the transformer filters nothing: the
    frame it returns has all the rows. *)
Theorem transform_without_price_or_quantity df :
  NoDup (names df) -> group_label_ok df ->
  (forall c, c ∈ price_like -> c ∉ names df)
  \/ (forall c, c ∈ quantity_like -> c ∉ names df) ->
  exists sorted grouped,
    transform df
    = Ok (setitem df "total" (Numeric (replicate (nrows df) (Some 1%Qc))),
          sorted, grouped)
    /\ nrows sorted = nrows df.
Proof.
  intros Hnd Hok Hnone.
  assert (Hd : derive_total df
               = Ok (setitem df "total" (Numeric (replicate (nrows df) (Some 1%Qc))))).
  { unfold derive_total.
    destruct (next_in ["price"; "unit_price"]%string (set_order (names df)))
      as [p|] eqn:Hp.
    - destruct (next_in ["quantity"; "qty"]%string (set_order (names df)))
        as [q|] eqn:Hq; [|done].
      apply next_in_Some in Hp as [Hp1 Hp2]. apply next_in_Some in Hq as [Hq1 Hq2].
      rewrite set_order_elem in Hp2, Hq2.
      destruct Hnone as [Hn|Hn]; [by destruct (Hn p)|by destruct (Hn q)].
    - done. }
  destruct (transform_returns df Hnd)
    as (ts & g & k & Hd' & Hg & _ & _ & _ & Htr).
  cbv zeta in *. rewrite Hd in Hd'. injection Hd' as Hw.
  rewrite setitem_total_names in Hg.
  rewrite bool_decide_eq_false_2 in Htr by by apply Hok.
  rewrite <-Hw in Htr.
  assert (Hts : Some <$> ts = replicate (nrows df) (Some 1%Qc)).
  { assert (Hg1 : getitem (setitem df "total"
                    (Numeric (replicate (nrows df) (Some 1%Qc)))) "total"
                  = Column (Numeric (replicate (nrows df) (Some 1%Qc))))
      by by apply getitem_setitem.
    rewrite Hw in Hg1. rewrite getitem_setitem in Hg1 by done.
    by injection Hg1. }
  rewrite Hts in Htr. eexists _, _. split; [exact Htr|].
  unfold sorted_of, filtered_of, map_rows. cbn [nrows].
  set (ones := replicate (nrows df) (Some 1%Qc)).
  assert (Hmask : positive <$> ones = replicate (nrows df) true).
  { unfold ones. by rewrite fmap_replicate. }
  rewrite Hmask.
  rewrite !keep_all_true
    by (unfold ones; rewrite ?length_replicate, ?setitem_nrows; lia).
  rewrite length_replicate, setitem_nrows.
  assert (Hlen : length ones = nrows df) by apply length_replicate.
  rewrite take_rows_length_in_range.
  - by rewrite nargsort_desc_perm, length_seq.
  - rewrite length_replicate. apply Forall_forall. intros i Hi.
    rewrite nargsort_desc_perm in Hi. apply elem_of_seq in Hi. lia.
Qed.

End transformer_rows.

(** ** The normal form of a label *)

(** X1: what [to_snake_case] returns has only digits, lower-case letters
    and underscores, never two underscores in a row, and is left as it is
    by [to_snake_case]. *)
Theorem to_snake_case_normal_form label :
  Forall (fun c => is_digit c || is_lower c || is_underscore c = true)
    (list_ascii_of_string (to_snake_case label))
  /\ no_adjacent is_underscore (list_ascii_of_string (to_snake_case label))
  /\ to_snake_case (to_snake_case label) = to_snake_case label.
Proof.
  split; [|split; [|apply to_snake_case_idemp]];
    unfold to_snake_case; rewrite list_ascii_of_string_of_list_ascii,
      to_snake_case_chars_normalize; apply normalize_chars_label.
Qed.

(** ** The labels that name a date or a time *)

Lemma prefix_timestamp_time s :
  String.prefix "timestamp" s = true -> String.prefix "time" s = true.
Proof.
  destruct s as [|c1 [|c2 [|c3 [|c4 s]]]]; cbn [String.prefix]; try done;
    repeat (destruct (ascii_dec _ _); try done).
  intros _. by destruct s.
Qed.

Lemma contains_timestamp_time s :
  contains "timestamp" s = true -> contains "time" s = true.
Proof.
  induction s as [|c s IH].
  - cbn [contains]. rewrite !orb_false_r. apply prefix_timestamp_time.
  - cbn [contains]. intros [Hp|Hc]%orb_true_iff; apply orb_true_iff.
    + left. by apply prefix_timestamp_time.
    + right. by apply IH.
Qed.

(** X14: a label is treated as a date when "date" or "time" occurs in it,
    whatever the case of its letters; the keyword "timestamp" of the code
    adds no label. *)
Theorem is_datelike_two_keywords col :
  is_datelike col
  = contains "date" (str_lower col) || contains "time" (str_lower col).
Proof.
  unfold is_datelike. cbn [existsb]. rewrite orb_false_r.
  destruct (contains "date" (str_lower col)); [done|]. simpl.
  destruct (contains "time" (str_lower col)) eqn:Ht; [done|]. simpl.
  destruct (contains "timestamp" (str_lower col)) eqn:Hts; [|done].
  apply contains_timestamp_time in Hts. congruence.
Qed.

(** ** A second run of the cleaner on what it returned *)

Section again.
Context `{Pandas}.

Lemma clean_of_settled df :
  settled df ->
  clean df
  = Ok (df, {| rows_before := nrows df;
               rows_after_cleaning := nrows df;
               rows_after_transform := nrows df;
               removed_duplicates := 0;
               filled_missing_numeric := 0;
               filled_missing_text := 0;
               removed_invalid_rows := 0 |}).
Proof.
  intros Hs. pose proof Hs as (Hwf & Hnd & Hlab & Hrows & Hcols).
  rewrite clean_returns by done.
  assert (Himp : imputed_of df = df).
  { unfold imputed_of. rewrite settled_drop_duplicates by done.
    apply map_columns_id. intros c s Hin. apply settled_impute.
    rewrite Forall_forall in Hcols. apply (Hcols _ Hin). }
  assert (Hstd : standardized_of df = df).
  { unfold standardized_of. rewrite Himp. apply map_columns_id.
    intros c s Hin. apply settled_standardize.
    - apply Hlab. apply list_elem_of_fmap. by exists (c, s).
    - rewrite Forall_forall in Hcols. apply (Hcols _ Hin). }
  assert (Hcl : cleaned_of df = df).
  { unfold cleaned_of. rewrite Hstd, settled_remove_invalid by done.
    by apply settled_rename. }
  assert (Hna : sum_list (numeric_na <$> (columns df).*2) = 0
                /\ sum_list (text_na <$> (columns df).*2) = 0).
  { clear -Hcols. induction Hcols as [|[c s] cols Hs _ IH]; [done|].
    rewrite !fmap_cons. cbn [sum_list sum_list_with snd].
    destruct (settled_na s Hs) as [-> ->]. by destruct IH as [-> ->]. }
  unfold summary_of. rewrite Hcl, Hstd, settled_remove_invalid by done.
  rewrite settled_drop_duplicates by done. destruct Hna as [-> ->].
  by rewrite Nat.sub_diag.
Qed.

(** No cell of the frame is missing. *)
Definition no_missing (df : table) : Prop :=
  Forall (fun p : string * series => Missing ∉ cells p.2) (columns df).

(** X13: a second run of the cleaner, on the frame a first run returned,
    returns that frame as it is and counts nothing, when that frame has
    unique labels none of which names a date or time, no two equal rows,
    no missing cell, and no text column of which more than 70% parses as
    numbers. *)
Theorem second_run_settled df cleaned summary :
  well_formed df ->
  clean df = Ok (cleaned, summary) ->
  NoDup (names cleaned) ->
  (forall c, c ∈ names cleaned -> is_datelike c = false) ->
  columns cleaned = [] \/ NoDup (rows cleaned) ->
  no_missing cleaned ->
  (forall c xs, (c, Textual xs) ∈ columns cleaned ->
     mostly_numeric (to_numeric (Textual xs)) = false) ->
  clean cleaned
  = Ok (cleaned, {| rows_before := nrows cleaned;
                    rows_after_cleaning := nrows cleaned;
                    rows_after_transform := nrows cleaned;
                    removed_duplicates := 0;
                    filled_missing_numeric := 0;
                    filled_missing_text := 0;
                    removed_invalid_rows := 0 |}).
Proof.
  intros Hwf (Hnd & -> & _)%clean_Ok Hnd' Hdate Hrows Hmiss Htext.
  apply clean_of_settled. split_and!; try done.
  - by apply cleaned_of_well_formed.
  - intros c Hc. split; [|by apply Hdate].
    rewrite cleaned_of_names in Hc.
    apply list_elem_of_fmap in Hc as (c' & -> & _). apply to_snake_case_idemp.
  - pose proof (cleaned_of_shape df Hnd) as Hshape.
    apply Forall_forall. intros [c s] Hin. unfold no_missing in Hmiss.
    rewrite Forall_forall in Hshape, Hmiss.
    specialize (Hshape _ Hin). specialize (Hmiss _ Hin). simpl in *.
    destruct s as [xs|xs|xs]; simpl in *.
    + apply Forall_forall. intros o Ho. rewrite Forall_forall in Hshape.
      destruct o as [q|].
      * exists q. split; [done|]. specialize (Hshape _ Ho). simpl in Hshape.
        apply bool_decide_eq_false in Hshape. by apply Qcnot_lt_le.
      * exfalso. apply Hmiss. apply list_elem_of_fmap. by exists None.
    + split; [done|]. by eapply Htext.
    + done.
Qed.

End again.

(** ** The further properties on sample frames *)

(** A raw frame with a label to normalize, a missing cell, upper-case
    text and a negative price. *)
Definition raw_prices : table :=
  Table 3 [("Product", Textual [txt "A"; None; txt "b"]);
           ("Unit Price", Numeric [num 1; num 2; num (-3)])]%string.

Definition cleaned_prices : table :=
  Table 2 [("product", Textual [txt "a"; txt "a"]);
           ("unit_price", Numeric [num 1; num 2])]%string.

Lemma raw_prices_labels : NoDup (names raw_prices).
Proof. by apply (bool_decide_unpack _). Qed.

Lemma clean_raw_prices :
  clean (H:=stable_pandas) raw_prices = Ok (cleaned_prices, Summary 3 2 2 0 0 1 1).
Proof.
  rewrite clean_returns by apply raw_prices_labels.
  apply (bool_decide_unpack _). by vm_compute.
Qed.

Lemma clean_labels_witness :
  clean (H:=stable_pandas) raw_prices = Ok (cleaned_prices, Summary 3 2 2 0 0 1 1)
  /\ names cleaned_prices = to_snake_case <$> names raw_prices.
Proof.
  split; [exact clean_raw_prices|].
  exact (proj1 (clean_labels (H:=stable_pandas) _ _ _ clean_raw_prices)).
Defined.

Lemma clean_no_negative_witness :
  clean (H:=stable_pandas) raw_prices = Ok (cleaned_prices, Summary 3 2 2 0 0 1 1)
  /\ ("unit_price"%string, Numeric [num 1; num 2]) ∈ columns cleaned_prices
  /\ Forall (fun o => forall q, o = Some q -> (0 <= q)%Qc) [num 1; num 2].
Proof.
  assert (Hin : ("unit_price"%string, Numeric [num 1; num 2])
                ∈ columns cleaned_prices) by (right; left).
  split; [exact clean_raw_prices|]. split; [exact Hin|].
  exact (clean_no_negative (H:=stable_pandas) _ _ _ _ _ clean_raw_prices Hin).
Defined.

Lemma clean_text_lower_case_witness :
  clean (H:=stable_pandas) raw_prices = Ok (cleaned_prices, Summary 3 2 2 0 0 1 1)
  /\ ("product"%string, Textual [txt "a"; txt "a"]) ∈ columns cleaned_prices
  /\ Forall (fun o => exists t, o = Some t /\ str_lower t = t) [txt "a"; txt "a"].
Proof.
  assert (Hin : ("product"%string, Textual [txt "a"; txt "a"])
                ∈ columns cleaned_prices) by left.
  split; [exact clean_raw_prices|]. split; [exact Hin|].
  exact (clean_text_lower_case (H:=stable_pandas) _ _ _ _ _ clean_raw_prices Hin).
Defined.

(** A frame without rows whose column has the dtype of datetimes. *)
Definition no_dates_yet : table := Table 0 [("date"%string, Temporal [])].

Lemma clean_no_dates_yet :
  clean (H:=stable_pandas) no_dates_yet = Ok (no_dates_yet, Summary 0 0 0 0 0 0 0).
Proof.
  rewrite clean_returns by by apply (bool_decide_unpack _).
  apply (bool_decide_unpack _). by vm_compute.
Qed.

Lemma clean_no_datetime_witness :
  clean (H:=stable_pandas) no_dates_yet = Ok (no_dates_yet, Summary 0 0 0 0 0 0 0)
  /\ ("date"%string, Temporal []) ∈ columns no_dates_yet
  /\ @nil (option Z) = [].
Proof.
  assert (Hin : ("date"%string, Temporal []) ∈ columns no_dates_yet) by left.
  split; [exact clean_no_dates_yet|]. split; [exact Hin|].
  exact (clean_no_datetime (H:=stable_pandas) _ _ _ _ _ clean_no_dates_yet Hin).
Defined.

Lemma clean_row_accounting_witness :
  clean (H:=stable_pandas) raw_prices = Ok (cleaned_prices, Summary 3 2 2 0 0 1 1)
  /\ 3 = 2 + 0 + 1.
Proof.
  split; [exact clean_raw_prices|].
  exact (proj2 (proj2 (proj2
    (clean_row_accounting (H:=stable_pandas) _ _ _ clean_raw_prices)))).
Defined.

Lemma clean_filled_counts_witness :
  clean (H:=stable_pandas) raw_prices = Ok (cleaned_prices, Summary 3 2 2 0 0 1 1)
  /\ 1 = sum_list (missing_cells
                   <$> filter (fun s => is_numeric (Column s) = false)
                         (columns (drop_duplicates raw_prices)).*2).
Proof.
  split; [exact clean_raw_prices|].
  exact (proj2 (clean_filled_counts (H:=stable_pandas) _ _ _ clean_raw_prices)).
Defined.

(** A frame with a label and no row. *)
Definition no_prices : table := Table 0 [("Unit Price"%string, Numeric [])].

Lemma clean_empty_witness :
  NoDup (names no_prices) /\ well_formed no_prices /\ nrows no_prices = 0
  /\ exists cleaned,
       clean (H:=stable_pandas) no_prices = Ok (cleaned, Summary 0 0 0 0 0 0 0)
       /\ nrows cleaned = 0.
Proof.
  assert (Hnd : NoDup (names no_prices)) by by apply (bool_decide_unpack _).
  assert (Hwf : well_formed no_prices) by (repeat constructor).
  split; [exact Hnd|]. split; [exact Hwf|]. split; [reflexivity|].
  destruct (clean_empty (H:=stable_pandas) no_prices Hnd Hwf eq_refl)
    as (cleaned & Hc & Hn & _).
  by exists cleaned.
Defined.



(** A frame whose third row repeats the first. *)
Definition repeated_row : table :=
  Table 3 [("a"%string, Textual [txt "x"; txt "y"; txt "x"])].

Lemma drop_duplicates_first_occurrences_witness :
  well_formed repeated_row /\ columns repeated_row <> []
  /\ rows (drop_duplicates repeated_row) = [[Text "x"]; [Text "y"]]%string.
Proof.
  assert (Hwf : well_formed repeated_row) by (repeat constructor).
  assert (Hc : columns repeated_row <> []) by done.
  split; [exact Hwf|]. split; [exact Hc|].
  destruct (drop_duplicates_first_occurrences repeated_row Hwf Hc) as (-> & _).
  by vm_compute.
Defined.

(** A frame whose first label is a label of the aggregate. *)
Definition counted : table := Table 1 [("count_rows"%string, Numeric [num 1])].

Lemma transform_raises_witness :
  NoDup (names counted)
  /\ transform (H:=stable_pandas) counted = Raise ValueError.
Proof.
  assert (Hnd : NoDup (names counted)) by by apply (bool_decide_unpack _).
  split; [exact Hnd|].
  apply (transform_raises (H:=stable_pandas) counted ValueError Hnd).
  split; [done|]. by apply (bool_decide_unpack _).
Defined.

Lemma transform_keeps_positive_rows_witness :
  NoDup (names sales) /\ well_formed sales
  /\ exists with_total sorted grouped totals,
       transform (H:=stable_pandas) sales = Ok (with_total, sorted, grouped)
       /\ getitem with_total "total" = Column (Numeric totals)
       /\ rows sorted ≡ₚ keep (positive <$> totals) (rows with_total).
Proof.
  assert (Hnd : NoDup (names sales)) by by apply (bool_decide_unpack _).
  assert (Hwf : well_formed sales) by (repeat constructor).
  assert (Hok : group_label_ok sales) by by apply (bool_decide_unpack _).
  split; [exact Hnd|]. split; [exact Hwf|].
  destruct (transform_returns_ok (H:=stable_pandas) sales Hnd Hok)
    as (wt & s & g & Ht).
  destruct (transform_keeps_positive_rows (H:=stable_pandas) sales wt s g Hnd Hwf Ht)
    as (totals & Htot & _ & Hrows & _).
  by exists wt, s, g, totals.
Defined.

Lemma transform_without_price_or_quantity_witness :
  NoDup (names products) /\ group_label_ok products
  /\ (forall c, c ∈ price_like -> c ∉ names products)
  /\ exists sorted grouped,
       transform (H:=stable_pandas) products
       = Ok (setitem products "total" (Numeric (replicate 2 (Some 1%Qc))),
             sorted, grouped)
       /\ nrows sorted = 2.
Proof.
  assert (Hnd : NoDup (names products)) by by apply (bool_decide_unpack _).
  assert (Hok : group_label_ok products) by by apply (bool_decide_unpack _).
  assert (Hno : forall c, c ∈ price_like -> c ∉ names products).
  { apply Forall_forall. by apply (bool_decide_unpack _). }
  split; [exact Hnd|]. split; [exact Hok|]. split; [exact Hno|].
  exact (transform_without_price_or_quantity (H:=stable_pandas) products
           Hnd Hok (or_introl Hno)).
Defined.

Lemma second_run_settled_witness :
  well_formed raw_prices
  /\ clean (H:=stable_pandas) raw_prices = Ok (cleaned_prices, Summary 3 2 2 0 0 1 1)
  /\ clean (H:=stable_pandas) cleaned_prices
     = Ok (cleaned_prices, Summary 2 2 2 0 0 0 0).
Proof.
  assert (Hwf : well_formed raw_prices) by (repeat constructor).
  split; [exact Hwf|]. split; [exact clean_raw_prices|].
  apply (second_run_settled (H:=stable_pandas) raw_prices cleaned_prices _
           Hwf clean_raw_prices).
  - by apply (bool_decide_unpack _).
  - apply Forall_forall. by apply (bool_decide_unpack _).
  - right. by apply (bool_decide_unpack _).
  - repeat constructor; by apply (bool_decide_unpack _).
  - intros c xs Hin. unfold cleaned_prices in Hin. simpl in Hin.
    apply elem_of_cons in Hin as [[= -> ->]|Hin]; [by vm_compute|].
    apply elem_of_cons in Hin as [[=]|Hin]. by apply elem_of_nil in Hin.
Defined.

Lemma clean_well_formed_witness :
  NoDup (names raw_prices) /\ well_formed raw_prices
  /\ clean (H:=stable_pandas) raw_prices = Ok (cleaned_prices, Summary 3 2 2 0 0 1 1)
  /\ well_formed cleaned_prices.
Proof.
  assert (Hwf : well_formed raw_prices) by (repeat constructor).
  split; [exact raw_prices_labels|]. split; [exact Hwf|].
  split; [exact clean_raw_prices|].
  exact (clean_well_formed (H:=stable_pandas) _ _ _ raw_prices_labels Hwf
           clean_raw_prices).
Defined.

Lemma transform_sorted_witness :
  NoDup (names sales) /\ group_label_ok sales
  /\ exists with_total sorted grouped ts,
       transform (H:=stable_pandas) sales = Ok (with_total, sorted, grouped)
       /\ getitem sorted "total" = Column (Numeric (Some <$> ts))
       /\ StronglySorted (flip Qcle) ts.
Proof.
  assert (Hnd : NoDup (names sales)) by by apply (bool_decide_unpack _).
  assert (Hok : group_label_ok sales) by by apply (bool_decide_unpack _).
  split; [exact Hnd|]. split; [exact Hok|].
  destruct (transform_sorted (H:=stable_pandas) sales Hnd Hok)
    as (wt & s & g & ts & Ht & Htot & _ & Hdesc).
  by exists wt, s, g, ts.
Defined.

(** * Properties of the file type detection *)

Import Files.

Definition chars : string -> list ascii := list_ascii_of_string.

(** The characters [os.path] takes for separators, and the dot. *)
Definition is_sep (os : platform) (c : ascii) : bool :=
  Ascii.eqb c (sep os) || from_option (Ascii.eqb c) false (altsep os).

Definition is_dot (c : ascii) : bool := Ascii.eqb c extsep.

(** The extensions [detect_file_type] knows, each with the type it names. *)
Definition supported : list (string * string) :=
  [(".csv", "csv"); (".xls", "excel"); (".xlsx", "excel"); (".json", "json")]%string.

(** The index of the last character of [l] that satisfies [f], where the
    head of [l] has index [i]; [found] when there is none. *)
Fixpoint last_index_from (f : ascii -> bool) (l : list ascii) (i found : Z) : Z :=
  match l with
  | [] => found
  | x :: r => last_index_from f r (i + 1) (if f x then i else found)
  end.

Lemma chars_app a b : chars (a +:+ b) = chars a ++ chars b.
Proof. induction a as [|c a IH]; [done|]. simpl. by rewrite IH. Qed.

Lemma string_of_chars s : string_of_list_ascii (chars s) = s.
Proof. apply string_of_list_ascii_of_string. Qed.

Lemma string_of_list_ascii_app l1 l2 :
  string_of_list_ascii (l1 ++ l2)
  = string_of_list_ascii l1 +:+ string_of_list_ascii l2.
Proof. induction l1 as [|c l1 IH]; [done|]. simpl. by rewrite IH. Qed.

Lemma rfind_from_last_index c l i found :
  rfind_from c l i found = last_index_from (fun x => Ascii.eqb x c) l i found.
Proof. revert i found. induction l as [|x l IH]; intros i found; simpl; auto. Qed.

Lemma last_index_from_ext f g l i found :
  (forall x, f x = g x) ->
  last_index_from f l i found = last_index_from g l i found.
Proof.
  intros Hfg. revert i found. induction l as [|x l IH]; intros i found; [done|].
  simpl. by rewrite Hfg, IH.
Qed.

Lemma last_index_from_app f l1 l2 i found :
  last_index_from f (l1 ++ l2) i found
  = last_index_from f l2 (i + Z.of_nat (length l1)) (last_index_from f l1 i found).
Proof.
  revert i found. induction l1 as [|x l1 IH]; intros i found; simpl.
  - by rewrite Z.add_0_r.
  - rewrite IH. f_equal. lia.
Qed.

Lemma last_index_from_none f l i found :
  Forall (fun x => f x = false) l -> last_index_from f l i found = found.
Proof.
  intros Hl. revert i found. induction Hl as [|x l Hx _ IH]; intros i found; [done|].
  simpl. by rewrite Hx, IH.
Qed.

Lemma last_index_from_max f g l i a b :
  (a < i)%Z -> (b < i)%Z ->
  Z.max (last_index_from f l i a) (last_index_from g l i b)
  = last_index_from (fun x => f x || g x) l i (Z.max a b).
Proof.
  revert i a b. induction l as [|x l IH]; intros i a b Ha Hb; [done|].
  simpl. rewrite IH by (destruct (f x), (g x); lia).
  f_equal. destruct (f x), (g x); simpl; lia.
Qed.

Lemma last_index_from_fmap f (h : ascii -> ascii) l i found :
  last_index_from f (h <$> l) i found
  = last_index_from (fun x => f (h x)) l i found.
Proof. revert i found. induction l as [|x l IH]; intros i found; simpl; auto. Qed.

(** Where the last match is: nothing after it matches. *)
Lemma last_index_from_last f l :
  let r := last_index_from f l 0 (-1) in
  (-1 <= r < Z.of_nat (length l))%Z
  /\ Forall (fun y => f y = false) (drop (Z.to_nat (r + 1)) l)
  /\ ((0 <= r)%Z -> exists x, l !! Z.to_nat r = Some x /\ f x = true).
Proof.
  assert (Hgen : forall l i found, (found < i)%Z ->
    let r := last_index_from f l i found in
    (r = found /\ Forall (fun x => f x = false) l)
    \/ ((i <= r < i + Z.of_nat (length l))%Z
        /\ (exists x, l !! Z.to_nat (r - i) = Some x /\ f x = true)
        /\ Forall (fun y => f y = false) (drop (S (Z.to_nat (r - i))) l))).
  { clear l. induction l as [|x l IH]; intros i found Hlt; simpl.
    { left. by split. }
    destruct (f x) eqn:Hx.
    - destruct (IH (i + 1)%Z i ltac:(lia)) as [[Hr Hall]|(Hr & (y & Hy & Hfy) & Hall)].
      + right. rewrite Hr. split; [lia|]. rewrite Z.sub_diag. simpl.
        split; [by exists x|]. by rewrite drop_0.
      + right. split; [lia|].
        replace (Z.to_nat (last_index_from f l (i + 1) i - i))
          with (S (Z.to_nat (last_index_from f l (i + 1) i - (i + 1)))) by lia.
        simpl. split; [by exists y|done].
    - destruct (IH (i + 1)%Z found ltac:(lia)) as [[Hr Hall]|(Hr & (y & Hy & Hfy) & Hall)].
      + left. split; [done|]. by constructor.
      + right. split; [lia|].
        replace (Z.to_nat (last_index_from f l (i + 1) found - i))
          with (S (Z.to_nat (last_index_from f l (i + 1) found - (i + 1)))) by lia.
        simpl. split; [by exists y|done]. }
  intros r. destruct (Hgen l 0%Z (-1)%Z ltac:(lia)) as [[Hr Hall]|(Hr & Hx & Hall)];
    fold r in Hr, Hall.
  - rewrite Hr. simpl. split; [lia|]. split; [done|]. lia.
  - rewrite Z.sub_0_r in Hx, Hall. split; [lia|]. split.
    + by replace (Z.to_nat (r + 1)) with (S (Z.to_nat r)) by lia.
    + done.
Qed.

(** The two indices [_splitext] computes. *)
Definition sep_index (os : platform) (p : list ascii) : Z :=
  last_index_from (is_sep os) p 0 (-1).

Definition dot_index (p : list ascii) : Z :=
  last_index_from is_dot p 0 (-1).

Lemma splitext_generic_indices os p :
  splitext_generic p (sep os) (altsep os) extsep
  = if (sep_index os p <? dot_index p)%Z then
      if existsb (fun c => negb (is_dot c)) (slice (sep_index os p + 1) (dot_index p) p)
      then (take (Z.to_nat (dot_index p)) p, drop (Z.to_nat (dot_index p)) p)
      else (p, [])
    else (p, []).
Proof.
  unfold splitext_generic, sep_index, dot_index, rfind.
  rewrite !rfind_from_last_index.
  assert (Hs : match altsep os with
               | Some a => Z.max (last_index_from (fun x => Ascii.eqb x (sep os)) p 0 (-1))
                             (rfind_from a p 0 (-1))
               | None => last_index_from (fun x => Ascii.eqb x (sep os)) p 0 (-1)
               end = last_index_from (is_sep os) p 0 (-1)).
  { destruct os; simpl.
    - apply last_index_from_ext. intros x. unfold is_sep. simpl.
      by rewrite orb_false_r.
    - rewrite rfind_from_last_index, last_index_from_max by lia. done. }
  by rewrite Hs.
Qed.

Lemma is_sep_dot os c : is_dot c = true -> is_sep os c = false.
Proof.
  unfold is_dot. intros ->%Ascii.eqb_eq. by destruct os.
Qed.

(** A path that ends with a dot and a tail without dot or separator,
    after a name that is not made of dots only, is split at that dot. *)
Lemma splitext_generic_ext os dir name tail :
  Forall (fun c => is_sep os c = false) name ->
  Exists (fun c => is_dot c = false) name ->
  Forall (fun c => is_dot c = false /\ is_sep os c = false) tail ->
  splitext_generic (dir ++ name ++ extsep :: tail) (sep os) (altsep os) extsep
  = (dir ++ name, extsep :: tail).
Proof.
  intros Hname Hnd Htail. rewrite splitext_generic_indices.
  set (p := dir ++ name ++ extsep :: tail).
  assert (Hdot : dot_index p = Z.of_nat (length dir + length name)).
  { unfold dot_index, p. rewrite !last_index_from_app. simpl.
    rewrite last_index_from_none.
    - lia.
    - eapply Forall_impl; [exact Htail|]. by intros c [? _]. }
  assert (Hsep : sep_index os p = sep_index os dir).
  { unfold sep_index, p. rewrite last_index_from_app.
    apply last_index_from_none. apply Forall_app. split; [done|].
    constructor; [by apply is_sep_dot, Ascii.eqb_refl|].
    eapply Forall_impl; [exact Htail|]. by intros c [_ ?]. }
  destruct (last_index_from_last (is_sep os) dir) as (Hr & _ & _).
  fold (sep_index os dir) in Hr. rewrite Hsep, Hdot.
  destruct (Z.ltb_spec (sep_index os dir) (Z.of_nat (length dir + length name)));
    [|lia].
  assert (Hslice : slice (sep_index os dir + 1) (Z.of_nat (length dir + length name)) p
                   = drop (Z.to_nat (sep_index os dir + 1)) dir ++ name).
  { unfold slice, p. rewrite drop_app_le by lia.
    rewrite app_assoc. rewrite take_app_length'; [done|].
    rewrite length_app, length_drop. lia. }
  rewrite Hslice, existsb_app.
  assert (Hex : existsb (fun c => negb (is_dot c)) name = true).
  { apply existsb_exists. apply Exists_exists in Hnd as (c & Hc & Hd).
    exists c. split; [by apply list_elem_of_In|]. by rewrite Hd. }
  rewrite Hex, orb_true_r. rewrite Nat2Z.id. unfold p. rewrite app_assoc.
  rewrite <-length_app. by rewrite take_app_length, drop_app_length.
Qed.

(** Conversely, an extension that is not empty was split off in this
    way. *)
Lemma splitext_generic_inv os p root ext :
  splitext_generic p (sep os) (altsep os) extsep = (root, ext) ->
  p = root ++ ext
  /\ (ext <> [] ->
      exists dir name,
        root = dir ++ name
        /\ Forall (fun c => is_sep os c = false) name
        /\ Exists (fun c => is_dot c = false) name).
Proof.
  rewrite splitext_generic_indices.
  destruct (last_index_from_last (is_sep os) p) as (Hr & Hafter & _).
  fold (sep_index os p) in Hr, Hafter.
  destruct (last_index_from_last is_dot p) as (Hd & _ & _).
  fold (dot_index p) in Hd.
  destruct (Z.ltb_spec (sep_index os p) (dot_index p)) as [Hlt|Hge].
  - destruct (existsb _ _) eqn:Hex.
    + intros [= <- <-]. split; [by rewrite take_drop|]. intros _.
      exists (take (Z.to_nat (sep_index os p + 1)) p),
        (slice (sep_index os p + 1) (dot_index p) p).
      split; [|split].
      * unfold slice. rewrite take_take_drop. f_equal. lia.
      * unfold slice. by apply Forall_take.
      * apply existsb_exists in Hex as (c & Hc & Hdot).
        apply Exists_exists. exists c. split; [by apply list_elem_of_In|].
        by apply negb_true_iff.
    + intros [= <- <-]. split; [by rewrite app_nil_r|done].
  - intros [= <- <-]. split; [by rewrite app_nil_r|done].
Qed.

(** A file name that has no dot, or only dots in front, has no
    extension. *)
Lemma splitext_generic_none os dir dots name :
  from_option (is_sep os) true (last dir) = true ->
  Forall (fun c => is_dot c = true) dots ->
  Forall (fun c => is_dot c = false /\ is_sep os c = false) name ->
  splitext_generic (dir ++ dots ++ name) (sep os) (altsep os) extsep
  = (dir ++ dots ++ name, []).
Proof.
  intros Hdir Hdots Hname. rewrite splitext_generic_indices.
  set (p := dir ++ dots ++ name).
  assert (Hsep : sep_index os p = (Z.of_nat (length dir) - 1)%Z).
  { unfold sep_index, p. rewrite last_index_from_app, last_index_from_none.
    - destruct dir as [|c dir _] using rev_ind; [done|].
      rewrite last_snoc in Hdir. simpl in Hdir.
      rewrite last_index_from_app. simpl. rewrite Hdir, !length_app. simpl. lia.
    - apply Forall_app. split.
      + eapply Forall_impl; [exact Hdots|]. intros c. apply is_sep_dot.
      + eapply Forall_impl; [exact Hname|]. by intros c [_ ?]. }
  assert (Hno : Forall (fun c => is_dot c = false) name).
  { eapply Forall_impl; [exact Hname|]. by intros c [? _]. }
  destruct (Z.ltb_spec (sep_index os p) (dot_index p)) as [Hlt|Hge]; [|done].
  assert (Hdot : dot_index p = (Z.of_nat (length dir + length dots) - 1)%Z
                 /\ dots <> []).
  { unfold dot_index, p in *. rewrite app_assoc, last_index_from_app in *.
    rewrite (last_index_from_none _ name) in * by done.
    destruct dots as [|c dots _] using rev_ind.
    - rewrite app_nil_r in *.
      destruct (last_index_from_last is_dot dir) as (Hr & _ & _). lia.
    - split; [|by destruct dots]. rewrite app_assoc, last_index_from_app. simpl.
      apply Forall_app in Hdots as [_ Hc].
      apply Forall_inv in Hc. rewrite Hc. rewrite !length_app. simpl. lia. }
  destruct Hdot as [Hdot Hne]. rewrite Hsep, Hdot.
  assert (Hslice : slice (Z.of_nat (length dir) - 1 + 1)
                     (Z.of_nat (length dir + length dots) - 1) p
                   = take (length dots - 1) dots).
  { unfold slice, p.
    replace (Z.to_nat (Z.of_nat (length dir) - 1 + 1)) with (length dir) by lia.
    rewrite drop_app_length.
    replace (Z.to_nat _) with (length dots - 1) by lia.
    rewrite take_app_le by lia. done. }
  rewrite Hslice.
  assert (Hex : existsb (fun c => negb (is_dot c)) (take (length dots - 1) dots) = false).
  { apply not_true_is_false. intros (c & Hc & Hd)%existsb_exists.
    apply list_elem_of_In in Hc. apply elem_of_take in Hc as (i & Hc & _).
    rewrite Forall_forall in Hdots.
    rewrite (Hdots c) in Hd by (by eapply list_elem_of_lookup_2). done. }
  by rewrite Hex.
Qed.

(** Lower-casing moves no dot and no separator. *)
Lemma lower_char_marks os c :
  is_dot (lower_char c) = is_dot c /\ is_sep os (lower_char c) = is_sep os c.
Proof.
  pose proof (ascii_forall
    (fun c => bool_decide (is_dot (lower_char c) = is_dot c)
              && bool_decide (is_sep Posix (lower_char c) = is_sep Posix c)
              && bool_decide (is_sep Windows (lower_char c) = is_sep Windows c))
    ltac:(by vm_compute) c) as Hall.
  simpl in Hall. apply andb_true_iff in Hall as [[H1 H2]%andb_true_iff H3].
  apply bool_decide_eq_true in H1, H2, H3. by destruct os.
Qed.

Lemma splitext_generic_lower os p :
  splitext_generic (lower p) (sep os) (altsep os) extsep
  = (lower (splitext_generic p (sep os) (altsep os) extsep).1,
     lower (splitext_generic p (sep os) (altsep os) extsep).2).
Proof.
  rewrite !splitext_generic_indices.
  assert (Hs : sep_index os (lower p) = sep_index os p).
  { unfold sep_index, lower. rewrite last_index_from_fmap.
    apply last_index_from_ext. intros x. apply lower_char_marks. }
  assert (Hd : dot_index (lower p) = dot_index p).
  { unfold dot_index, lower. rewrite last_index_from_fmap.
    apply last_index_from_ext. intros x. apply (lower_char_marks Posix). }
  rewrite Hs, Hd.
  assert (Hex : forall i j,
    existsb (fun c => negb (is_dot c)) (slice i j (lower p))
    = existsb (fun c => negb (is_dot c)) (slice i j p)).
  { intros i j. unfold slice, lower. change map with (@fmap list _).
    rewrite <-fmap_drop, <-fmap_take.
    induction (take _ _) as [|x l IH]; [done|].
    rewrite fmap_cons. cbn [existsb].
    by rewrite IH, (proj1 (lower_char_marks Posix x)). }
  rewrite Hex. unfold lower. change map with (@fmap list _).
  destruct (_ <? _)%Z; [|done].
  destruct (existsb _ _); [|done]. simpl. by rewrite fmap_take, fmap_drop.
Qed.

Lemma str_lower_chars s : chars (str_lower s) = lower (chars s).
Proof. unfold str_lower, chars. apply list_ascii_of_string_of_list_ascii. Qed.

Lemma splitext_lower os path :
  splitext os (str_lower path)
  = (str_lower (splitext os path).1, str_lower (splitext os path).2).
Proof.
  unfold splitext. fold (chars (str_lower path)). rewrite str_lower_chars.
  rewrite splitext_generic_lower. fold (chars path).
  destruct (splitext_generic (chars path) _ _ _) as [root ext]. simpl.
  unfold str_lower. by rewrite !list_ascii_of_string_of_list_ascii.
Qed.

(** X19: the type is detected whatever the case of the letters of the
    path: a path and its lower-case form give the same result. *)
Theorem detect_file_type_ignores_case os path :
  detect_file_type os (str_lower path) = detect_file_type os path.
Proof.
  unfold detect_file_type. rewrite splitext_lower. simpl.
  by rewrite str_lower_idemp.
Qed.

(** The dispatch on the lower-cased extension. *)
Lemma detect_file_type_dispatch os path ftype :
  detect_file_type os path = Detected ftype
  <-> (str_lower (splitext os path).2, ftype) ∈ supported.
Proof.
  unfold detect_file_type, supported. cbn [existsb].
  generalize (str_lower (splitext os path).2). intros e.
  rewrite !elem_of_cons, elem_of_nil.
  destruct (String.eqb_spec e ".csv") as [->|H1].
  { split; [intros [= <-]; by left|].
    intros [[= <-]|[[=]|[[=]|[[=]|[]]]]]. done. }
  destruct (String.eqb_spec e ".xls") as [->|H2].
  { split; [intros [= <-]; right; by left|].
    intros [[=]|[[= <-]|[[=]|[[=]|[]]]]]. done. }
  destruct (String.eqb_spec e ".xlsx") as [->|H3].
  { split; [intros [= <-]; right; right; by left|].
    intros [[=]|[[=]|[[= <-]|[[=]|[]]]]]. done. }
  destruct (String.eqb_spec e ".json") as [->|H4].
  { split; [intros [= <-]; right; right; right; by left|].
    intros [[=]|[[=]|[[=]|[[= <-]|[]]]]]. done. }
  simpl. split; [done|].
  intros [[= ? _]|[[= ? _]|[[= ? _]|[[= ? _]|[]]]]]; done.
Qed.

Lemma detect_file_type_other os path :
  (forall ftype, (str_lower (splitext os path).2, ftype) ∉ supported) ->
  detect_file_type os path
  = UnsupportedFileType ("Unsupported file type: " +:+ str_lower (splitext os path).2).
Proof.
  intros Hno. destruct (detect_file_type os path) as [t|m] eqn:Hd.
  - apply detect_file_type_dispatch in Hd. by destruct (Hno t).
  - revert Hd. unfold detect_file_type.
    repeat (destruct (_ : bool); [done|]). done.
Qed.

(** An extension: a dot, then neither dot nor separator. *)
Definition is_extension (os : platform) (l : list ascii) : bool :=
  match l with
  | [] => false
  | c :: tail =>
      is_dot c && forallb (fun c => negb (is_dot c) && negb (is_sep os c)) tail
  end.

Lemma is_extension_lower os l : is_extension os (lower l) = is_extension os l.
Proof.
  destruct l as [|c tail]; [done|]. simpl.
  rewrite (proj1 (lower_char_marks os c)). f_equal.
  induction tail as [|x tail IH]; [done|]. simpl.
  destruct (lower_char_marks os x) as [-> ->]. by rewrite IH.
Qed.

Lemma is_extension_shape os l :
  is_extension os l = true ->
  exists tail, l = extsep :: tail
    /\ Forall (fun c => is_dot c = false /\ is_sep os c = false) tail.
Proof.
  destruct l as [|c tail]; [done|]. simpl.
  intros [Hc Ht]%andb_true_iff. apply Ascii.eqb_eq in Hc as ->.
  exists tail. split; [done|]. apply Forall_forall. intros x Hx.
  rewrite forallb_forall in Ht. apply list_elem_of_In in Hx.
  specialize (Ht x Hx). apply andb_true_iff in Ht as [H1 H2].
  by apply negb_true_iff in H1, H2.
Qed.

Lemma supported_is_extension os ext ftype :
  (str_lower ext, ftype) ∈ supported -> is_extension os (chars ext) = true.
Proof.
  intros Hin. rewrite <-is_extension_lower, <-str_lower_chars.
  unfold supported in Hin. rewrite !elem_of_cons, elem_of_nil in Hin.
  destruct Hin as [[= -> _]|[[= -> _]|[[= -> _]|[[= -> _]|[]]]]]; by destruct os.
Qed.

Lemma splitext_ext os dir name ext :
  Forall (fun c => is_sep os c = false) (chars name) ->
  Exists (fun c => is_dot c = false) (chars name) ->
  is_extension os (chars ext) = true ->
  splitext os (dir +:+ name +:+ ext) = (dir +:+ name, ext).
Proof.
  intros Hname Hnd (tail & Hext & Htail)%is_extension_shape.
  unfold splitext. fold (chars (dir +:+ name +:+ ext)).
  rewrite !chars_app, Hext, splitext_generic_ext by done.
  by rewrite <-Hext, <-chars_app, !string_of_chars.
Qed.

(** X20: the paths whose type is detected are those that end, whatever the
    case of the letters, with one of the four extensions after a file name
    that is not made of dots only; the type is the one of the extension. *)
Theorem detect_file_type_supported os path ftype :
  detect_file_type os path = Detected ftype
  <-> exists dir name ext,
        path = dir +:+ name +:+ ext
        /\ Forall (fun c => is_sep os c = false) (chars name)
        /\ Exists (fun c => is_dot c = false) (chars name)
        /\ (str_lower ext, ftype) ∈ supported.
Proof.
  rewrite detect_file_type_dispatch. split.
  - intros Hin. unfold splitext in Hin. fold (chars path) in Hin.
    destruct (splitext_generic (chars path) _ _ _) as [root ext] eqn:Hsplit.
    apply splitext_generic_inv in Hsplit as [Hp Hext]. simpl in Hin.
    destruct Hext as (dir & name & -> & Hname & Hnd).
    { intros ->. unfold supported in Hin. rewrite !elem_of_cons, elem_of_nil in Hin.
      by destruct Hin as [[=]|[[=]|[[=]|[[=]|[]]]]]. }
    exists (string_of_list_ascii dir), (string_of_list_ascii name),
      (string_of_list_ascii ext).
    unfold chars. rewrite list_ascii_of_string_of_list_ascii.
    split; [|done].
    rewrite <-!string_of_list_ascii_app, app_assoc, <-Hp. by rewrite string_of_chars.
  - intros (dir & name & ext & -> & Hname & Hnd & Hin).
    rewrite splitext_ext; [done|done|done|]. by eapply supported_is_extension.
Qed.

(** X21: a path whose file name has no dot, or has dots only in front
    (a hidden file), has no extension for [detect_file_type]: it raises,
    and nothing follows the colon in the message. *)
Theorem detect_file_type_without_extension os dir dots name :
  from_option (is_sep os) true (last (chars dir)) = true ->
  Forall (fun c => is_dot c = true) (chars dots) ->
  Forall (fun c => is_dot c = false /\ is_sep os c = false) (chars name) ->
  detect_file_type os (dir +:+ dots +:+ name)
  = UnsupportedFileType "Unsupported file type: ".
Proof.
  intros Hdir Hdots Hname.
  assert (Hs : splitext os (dir +:+ dots +:+ name) = (dir +:+ dots +:+ name, ""%string)).
  { unfold splitext. fold (chars (dir +:+ dots +:+ name)).
    rewrite !chars_app, splitext_generic_none by done.
    by rewrite <-!chars_app, string_of_chars. }
  rewrite detect_file_type_other; rewrite Hs; [done|].
  intros ftype. unfold supported. rewrite !elem_of_cons, elem_of_nil.
  by intros [[=]|[[=]|[[=]|[[=]|[]]]]].
Qed.

(** X22: any other extension is refused, and the message names it in
    lower case. *)
Theorem detect_file_type_unsupported os dir name ext :
  Forall (fun c => is_sep os c = false) (chars name) ->
  Exists (fun c => is_dot c = false) (chars name) ->
  Forall (fun c => is_dot c = false /\ is_sep os c = false) (chars ext) ->
  (forall ftype, (str_lower ("." +:+ ext), ftype) ∉ supported) ->
  detect_file_type os (dir +:+ name +:+ "." +:+ ext)
  = UnsupportedFileType ("Unsupported file type: " +:+ str_lower ("." +:+ ext)).
Proof.
  intros Hname Hnd Hext Hno.
  assert (Hs : splitext os (dir +:+ name +:+ "." +:+ ext) = (dir +:+ name, "." +:+ ext)).
  { apply splitext_ext; [done|done|]. simpl. apply forallb_forall.
    intros c Hc%list_elem_of_In. rewrite Forall_forall in Hext.
    destruct (Hext c Hc) as [-> ->]. done. }
  rewrite detect_file_type_other; by rewrite Hs.
Qed.

Lemma detect_file_type_without_extension_witness :
  detect_file_type Posix "data/.csv" = UnsupportedFileType "Unsupported file type: ".
Proof.
  apply (detect_file_type_without_extension Posix "data/" "." "csv").
  - reflexivity.
  - by repeat constructor.
  - by repeat constructor.
Defined.

Lemma detect_file_type_unsupported_witness :
  detect_file_type Windows "C:\reports\notes.TXT"
  = UnsupportedFileType "Unsupported file type: .txt".
Proof.
  apply (detect_file_type_unsupported Windows "C:\reports\" "notes" "TXT").
  - by repeat constructor.
  - by repeat constructor.
  - by repeat constructor.
  - intros ftype. unfold supported. rewrite !elem_of_cons, elem_of_nil.
    by intros [[=]|[[=]|[[=]|[[=]|[]]]]].
Defined.

(** * Properties of the program around the stages *)

Import Shell.

Section program.
Context `{Pandas} `{System}.

(** ** Running a computation *)

Lemma bind_run {A B} (m : Sh A) (f : A -> Sh B) w :
  (m ≫= f) w
  = match m w with
    | (Returned a, w') => f a w'
    | (Raised e, w') => (Raised e, w')
    end.
Proof. done. Qed.

Lemma bind_Returned {A B} (m : Sh A) (f : A -> Sh B) w b w2 :
  (m ≫= f) w = (Returned b, w2) ->
  exists a w1, m w = (Returned a, w1) /\ f a w1 = (Returned b, w2).
Proof.
  rewrite bind_run. destruct (m w) as [[a|e] w1]; [|done]. intros Hf.
  by exists a, w1.
Qed.

Lemma bind_Raised {A B} (m : Sh A) (f : A -> Sh B) w e w2 :
  (m ≫= f) w = (Raised e, w2) ->
  m w = (Raised e, w2)
  \/ exists a w1, m w = (Returned a, w1) /\ f a w1 = (Raised e, w2).
Proof.
  rewrite bind_run. destruct (m w) as [[a|e'] w1].
  - intros Hf. right. by exists a, w1.
  - intros [= <- <-]. by left.
Qed.

(** A computation is tame when it only adds to the trace and never raises
    [SystemExit]. *)
Definition tame {A} (m : Sh A) : Prop :=
  forall w r w', m w = (r, w') ->
    (exists evs, trace w' = trace w ++ evs)
    /\ forall code, r <> Raised (SystemExit code).

Lemma tame_ret {A} (a : A) : tame (mret a : Sh A).
Proof. intros w r w' [= <- <-]. split; [exists []; by rewrite app_nil_r|done]. Qed.

Lemma tame_bind {A B} (m : Sh A) (f : A -> Sh B) :
  tame m -> (forall a, tame (f a)) -> tame (m ≫= f).
Proof.
  intros Hm Hf w r w'. rewrite bind_run.
  destruct (m w) as [[a|e] w1] eqn:Hmw; destruct (Hm _ _ _ Hmw) as [[evs Hevs] Hne].
  - intros Hfa. destruct (Hf a _ _ _ Hfa) as [[evs' Hevs'] Hne'].
    split; [|exact Hne']. exists (evs ++ evs'). by rewrite Hevs', Hevs, app_assoc.
  - intros [= <- <-]. split; [by exists evs|].
    intros code [= ->]. by destruct (Hne code).
Qed.

Lemma tame_logging lvl fmt args : tame (logging lvl fmt args).
Proof. intros w r w' [= <- <-]. split; [by eexists|done]. Qed.

Lemma tame_print text : tame (print text).
Proof. intros w r w' [= <- <-]. split; [by eexists|done]. Qed.

Lemma tame_lib {A} (call : library outside A) : tame (lib call).
Proof.
  intros w r w'. unfold lib. destruct (call (out w)) as [[a|kind message] o];
    intros [= <- <-]; (split; [exists []; by rewrite app_nil_r|done]).
Qed.

Lemma tame_stage {A} (r : result A) : tame (stage r).
Proof.
  intros w r' w'. unfold stage. destruct r; intros [= <- <-];
    (split; [exists []; by rewrite app_nil_r|done]).
Qed.

Lemma tame_raise {A} kind message : tame (raise (Error kind message) : Sh A).
Proof. intros w r w' [= <- <-]. split; [exists []; by rewrite app_nil_r|done]. Qed.

Lemma tame_os_path_exists path : tame (os_path_exists path).
Proof. intros w r w' [= <- <-]. split; [exists []; by rewrite app_nil_r|done]. Qed.

Lemma tame_os_getenv name : tame (os_getenv name).
Proof. intros w r w' [= <- <-]. split; [exists []; by rewrite app_nil_r|done]. Qed.

Lemma tame_try_except {A} (body : Sh A) handler :
  tame body -> (forall exc, tame (handler exc)) -> tame (try_except body handler).
Proof.
  intros Hb Hh w r w'. unfold try_except.
  destruct (body w) as [[a|exc] w1] eqn:Hbw; destruct (Hb _ _ _ Hbw) as [[evs Hevs] Hne].
  - intros [= <- <-]. split; [by exists evs|done].
  - destruct exc as [kind message|e|code]; [| |by destruct (Hne code)];
      intros Hhw; destruct (Hh _ _ _ _ Hhw) as [[evs' Hevs'] Hne'];
      (split; [|exact Hne']); exists (evs ++ evs'); by rewrite Hevs', Hevs, app_assoc.
Qed.

Ltac tame_step :=
  lazymatch goal with
  | |- tame (mbind _ _) => apply tame_bind; [|intros ?]
  | |- tame (mret _) => apply tame_ret
  | |- tame (lib _) => apply tame_lib
  | |- tame (logging _ _ _) => apply tame_logging
  | |- tame (print _) => apply tame_print
  | |- tame (stage _) => apply tame_stage
  | |- tame (raise (Error _ _)) => apply tame_raise
  | |- tame (os_path_exists _) => apply tame_os_path_exists
  | |- tame (os_getenv _) => apply tame_os_getenv
  | |- tame (try_except _ _) => apply tame_try_except; [|intros ?]
  | |- tame (match ?x with _ => _ end) => destruct x
  end.

Lemma tame_load_dataset path : tame (load_dataset path).
Proof. unfold load_dataset. repeat tame_step. Qed.

Lemma tame_clean_dataset df : tame (clean_dataset df).
Proof. unfold clean_dataset. repeat tame_step. Qed.

Lemma tame_apply_transformations df summary :
  tame (apply_transformations df summary).
Proof. unfold apply_transformations. repeat tame_step. Qed.

Lemma tame_generate_bar_chart grouped chart_path top_n :
  tame (generate_bar_chart grouped chart_path top_n).
Proof. unfold generate_bar_chart. repeat tame_step. Qed.

Lemma tame_create_gemini_client : tame create_gemini_client.
Proof. unfold create_gemini_client. repeat tame_step. Qed.

Lemma tame_build_ai_prompt df grouped : tame (build_ai_prompt df grouped).
Proof. unfold build_ai_prompt. repeat tame_step. Qed.

Lemma tame_describe_failure exc text : tame (describe_failure exc text).
Proof. unfold describe_failure. repeat tame_step. Qed.

Lemma tame_request c prompt : tame (request c prompt).
Proof.
  intros w r w'. unfold request.
  destruct (ask c prompt (out w)) as [[content|kind message] o].
  - intros [= <- <-]. split; [exists []; by rewrite app_nil_r|done].
  - intros Hd. by apply tame_describe_failure in Hd.
Qed.

Lemma tame_generate_ai_analysis df grouped : tame (generate_ai_analysis df grouped).
Proof.
  unfold generate_ai_analysis. repeat tame_step;
    auto using tame_create_gemini_client, tame_build_ai_prompt, tame_request.
Qed.

Lemma tame_export_pdf_report summary grouped ai_report chart_path output_path :
  tame (export_pdf_report summary grouped ai_report chart_path output_path).
Proof.
  unfold export_pdf_report, preview_of, chart_page.
  repeat first [tame_step | unfold cell_line].
Qed.

Lemma tame_run_full_pipeline input_path : tame (run_full_pipeline input_path).
Proof.
  unfold run_full_pipeline. repeat tame_step;
    auto using tame_load_dataset, tame_clean_dataset, tame_apply_transformations,
      tame_generate_bar_chart, tame_generate_ai_analysis, tame_export_pdf_report.
Qed.

(** A computation is quiet when it leaves the trace as it is, and plain
    when, besides, it raises nothing but what a library call raises. *)
Definition quiet {A} (m : Sh A) : Prop :=
  forall w r w', m w = (r, w') -> trace w' = trace w.

Definition plain {A} (m : Sh A) : Prop :=
  forall w r w', m w = (r, w') ->
    trace w' = trace w
    /\ forall e, r = Raised e -> exists kind message, e = Error kind message.

Lemma plain_quiet {A} (m : Sh A) : plain m -> quiet m.
Proof. intros Hm w r w' Hr. by destruct (Hm _ _ _ Hr). Qed.

Lemma plain_ret {A} (a : A) : plain (mret a : Sh A).
Proof. by intros w r w' [= <- <-]. Qed.

Lemma plain_lib {A} (call : library outside A) : plain (lib call).
Proof.
  intros w r w'. unfold lib. destruct (call (out w)) as [[a|kind message] o];
    intros [= <- <-]; (split; [done|]); [done|].
  intros e [= <-]. by eexists _, _.
Qed.

Lemma plain_os_path_exists path : plain (os_path_exists path).
Proof. by intros w r w' [= <- <-]. Qed.

Lemma plain_bind {A B} (m : Sh A) (f : A -> Sh B) :
  plain m -> (forall a, plain (f a)) -> plain (m ≫= f).
Proof.
  intros Hm Hf w r w'. rewrite bind_run.
  destruct (m w) as [[a|e] w1] eqn:Hmw; destruct (Hm _ _ _ Hmw) as [Ht He].
  - intros Hfa. destruct (Hf a _ _ _ Hfa) as [Ht' He']. split; [congruence|done].
  - intros [= <- <-]. split; [done|]. intros e' [= <-]. by apply He.
Qed.

Lemma quiet_stage {A} (r : result A) : quiet (stage r).
Proof. intros w r' w'. unfold stage. by destruct r; intros [= <- <-]. Qed.

Lemma quiet_bind {A B} (m : Sh A) (f : A -> Sh B) :
  quiet m -> (forall a, quiet (f a)) -> quiet (m ≫= f).
Proof.
  intros Hm Hf w r w'. rewrite bind_run.
  destruct (m w) as [[a|e] w1] eqn:Hmw; pose proof (Hm _ _ _ Hmw) as Ht.
  - intros Hfa. pose proof (Hf a _ _ _ Hfa). congruence.
  - by intros [= <- <-].
Qed.

Ltac plain_step :=
  lazymatch goal with
  | |- plain (mbind _ _) => apply plain_bind; [|intros ?]
  | |- plain (mret _) => apply plain_ret
  | |- plain (lib _) => apply plain_lib
  | |- plain (os_path_exists _) => apply plain_os_path_exists
  | |- plain (match ?x with _ => _ end) => destruct x
  end.

Lemma plain_build_ai_prompt df grouped : plain (build_ai_prompt df grouped).
Proof. unfold build_ai_prompt. repeat plain_step. Qed.

Ltac run := repeat (rewrite bind_run; simpl).

(** ** The pipeline before it reads *)

(** X24: run_full_pipeline reads and writes nothing unless the input
    exists and has a supported extension.  A missing input raises
    FileNotFoundError after the first log record; an input of another
    type raises the ValueError of [detect_file_type] after the record
    "File loaded", although no file has been loaded.  The outside is
    left as it was. *)
Theorem run_full_pipeline_refuses input_path w :
  (path_exists input_path (out w) = false ->
   run_full_pipeline input_path w
   = (Raised (Error "FileNotFoundError" ("Input file not found: " +:+ input_path)),
      {| out := out w;
         trace := trace w ++ [Log INFO "Starting full pipeline" []] |}))
  /\ (forall message,
        path_exists input_path (out w) = true ->
        detect_file_type os input_path = UnsupportedFileType message ->
        run_full_pipeline input_path w
        = (Raised (Error "ValueError" message),
           {| out := out w;
              trace := trace w ++ [Log INFO "Starting full pipeline" [];
                                   Log INFO "File loaded: %s" [Str input_path]] |})).
Proof.
  split.
  - intros Hno. unfold run_full_pipeline. run. by rewrite Hno.
  - intros message Hyes Hdet. unfold run_full_pipeline, load_dataset.
    run. rewrite Hyes. simpl. run. rewrite Hdet. simpl.
    unfold emit. simpl. by rewrite <-app_assoc.
Qed.

(** ** The AI report *)

(** [a or b] on what [os.getenv] returns: None and the empty string are
    false. *)
Definition or_else (a b : option string) : option string :=
  match a with
  | Some (String _ _) => a
  | _ => b
  end.

Definition api_key (o : outside) : option string :=
  or_else (getenv "GEMINI_API_KEY" o) (getenv "GOOGLE_API_KEY" o).

Definition usable (key : option string) : bool :=
  match key with
  | Some (String _ _) => true
  | _ => false
  end.

Lemma create_gemini_client_run w :
  create_gemini_client w
  = match genai with
    | None =>
        (Returned None,
         emit (Log ERROR "Gemini SDK is not installed. Install 'google-genai' to enable AI features." []) w)
    | Some new_client =>
        match api_key (out w) with
        | Some (String c k as key) =>
            match new_client key (out w) with
            | (Fine made, o) => (Returned (Some made), {| out := o; trace := trace w |})
            | (Failed kind message, o) =>
                (Returned None,
                 emit (Log ERROR "Failed to create Gemini client: %s"
                         [Exc (Error kind message)])
                   {| out := o; trace := trace w |})
            end
        | _ =>
            (Returned None,
             emit (Log ERROR "GEMINI_API_KEY or GOOGLE_API_KEY not found in environment. Check your .env file." []) w)
        end
    end.
Proof.
  unfold create_gemini_client, api_key. destruct genai as [new_client|]; [|done].
  run.
  destruct (getenv "GEMINI_API_KEY" (out w)) as [[|c k]|] eqn:Hg; simpl.
  - destruct (getenv "GOOGLE_API_KEY" (out w)) as [[|c k]|]; simpl; try done.
    unfold try_except. rewrite bind_run. unfold lib.
    by destruct (new_client _ _) as [[made|kind message] o].
  - unfold try_except. rewrite bind_run. unfold lib.
    by destruct (new_client _ _) as [[made|kind message] o].
  - destruct (getenv "GOOGLE_API_KEY" (out w)) as [[|c k]|]; simpl; try done.
    unfold try_except. rewrite bind_run. unfold lib.
    by destruct (new_client _ _) as [[made|kind message] o].
Qed.

(** X26: without the SDK, or with neither GEMINI_API_KEY nor
    GOOGLE_API_KEY set to a string that is not empty, the analysis is the
    fixed text that says so: generate_ai_analysis logs one error, builds
    no prompt and calls nothing outside. *)
Theorem generate_ai_analysis_without_key df grouped w :
  genai = None \/ usable (api_key (out w)) = false ->
  exists message,
    generate_ai_analysis df grouped w
    = (Returned unavailable,
       {| out := out w;
          trace := trace w ++ [Log INFO "AI processing started" [];
                               Log ERROR message []] |}).
Proof.
  intros Hno. unfold generate_ai_analysis. rewrite bind_run. simpl.
  rewrite bind_run, create_gemini_client_run. simpl.
  destruct genai as [new_client|].
  - destruct Hno as [|Hkey]; [done|].
    destruct (api_key (out w)) as [[|c k]|]; [|done|];
      eexists; unfold emit; simpl; by rewrite <-app_assoc.
  - eexists. unfold emit. simpl. by rewrite <-app_assoc.
Qed.

Lemma request_returns c prompt w :
  exists content w', request c prompt w = (Returned content, w').
Proof.
  unfold request. destruct (ask c prompt (out w)) as [[content|kind message] o].
  - by eexists _, _.
  - unfold describe_failure.
    repeat (destruct (_ || _); [rewrite bind_run; simpl; by eexists _, _|]).
    rewrite bind_run. simpl. by eexists _, _.
Qed.

(** X27: generate_ai_analysis raises only while it builds the prompt:
    the exception is then the one of [to_markdown] or [describe], the
    client had been made, and no request was sent.  A failure to make the
    client or of the request itself never comes out as an exception. *)
Theorem generate_ai_analysis_raises df grouped w exc w' :
  generate_ai_analysis df grouped w = (Raised exc, w') ->
  exists made w1,
    create_gemini_client
      {| out := out w; trace := trace w ++ [Log INFO "AI processing started" []] |}
    = (Returned (Some made), w1)
    /\ build_ai_prompt df grouped w1 = (Raised exc, w')
    /\ trace w' = trace w ++ [Log INFO "AI processing started" []]
    /\ exists kind message, exc = Error kind message.
Proof.
  unfold generate_ai_analysis. rewrite bind_run. simpl. rewrite bind_run.
  fold (emit (Log INFO "AI processing started" []) w).
  set (w0 := emit (Log INFO "AI processing started" []) w).
  assert (Hmade : forall made w1, create_gemini_client w0 = (Returned (Some made), w1) ->
            trace w1 = trace w0).
  { intros made w1. rewrite create_gemini_client_run.
    destruct genai as [new_client|]; [|done].
    destruct (api_key (out w0)) as [[|c k]|]; [done| |done].
    destruct (new_client _ _) as [[made'|kind message] o]; [|done].
    by intros [= _ <-]. }
  destruct (create_gemini_client w0) as [[[made|]|e] w1] eqn:Hc.
  - specialize (Hmade _ _ eq_refl). rewrite bind_run.
    destruct (build_ai_prompt df grouped w1) as [[prompt|e] w2] eqn:Hb.
    + destruct (request_returns made prompt w2) as (content & w3 & ->). done.
    + intros [= <- <-]. exists made, w1. split; [done|]. split; [done|].
      destruct (plain_build_ai_prompt _ _ _ _ _ Hb) as [Ht He].
      split; [by rewrite Ht, Hmade|]. by apply He.
  - done.
  - revert Hc. rewrite create_gemini_client_run.
    destruct genai as [new_client|]; [|done].
    destruct (api_key (out w0)) as [[|c k]|]; [done| |done].
    by destruct (new_client _ _) as [[made'|kind message] o].
Qed.

Lemma prefix_contains needle s :
  String.prefix needle s = true -> contains needle s = true.
Proof. intros Hp. destruct s; simpl in *; by rewrite Hp. Qed.

Lemma contains_rest needle c s :
  contains needle s = true -> contains needle (String c s) = true.
Proof. intros Hc. cbn [contains]. rewrite Hc. apply orb_true_r. Qed.

Lemma prefix_generate_rate s :
  String.prefix "generate" s = true -> contains "rate" s = true.
Proof.
  destruct s as [|c1 [|c2 [|c3 [|c4 s]]]]; cbn [String.prefix]; try done;
    repeat (destruct (ascii_dec _ _); try done).
  intros Hp. do 4 apply contains_rest. by apply prefix_contains.
Qed.

Lemma contains_generate_rate s :
  contains "generate" s = true -> contains "rate" s = true.
Proof.
  induction s as [|c s IH].
  - cbn [contains]. rewrite !orb_false_r. apply prefix_generate_rate.
  - intros [Hp|Hc]%orb_true_iff.
    + by apply prefix_generate_rate.
    + apply contains_rest. by apply IH.
Qed.

(** X28: a failed request whose message holds the word generate (as in
    generateContent or generate_content), in any case, and neither
    "api key" nor "permission", is reported as a rate limit: the test for
    "rate" finds it inside "generate". *)
Theorem generate_ai_analysis_takes_generate_for_rate
    df grouped w made w1 prompt w2 kind message o :
  create_gemini_client
    {| out := out w; trace := trace w ++ [Log INFO "AI processing started" []] |}
  = (Returned (Some made), w1) ->
  build_ai_prompt df grouped w1 = (Returned prompt, w2) ->
  generate_content made "gemini-2.0-flash" prompt (out w2)
  = (Failed kind message, o) ->
  contains "generate" (str_lower message) = true ->
  contains "api key" (str_lower message) = false ->
  contains "permission" (str_lower message) = false ->
  generate_ai_analysis df grouped w
  = (Returned "AI rate limit or quota reached. Please retry later."%string,
     {| out := o;
        trace := trace w2 ++ [Log ERROR "Gemini rate limit: %s"
                                [Exc (Error kind message)]] |}).
Proof.
  intros Hc Hb Hg Hgen Hkey Hperm.
  unfold generate_ai_analysis. rewrite bind_run. simpl. rewrite bind_run.
  unfold emit. simpl. rewrite Hc, bind_run, Hb.
  unfold request, ask. rewrite Hg. unfold describe_failure.
  rewrite Hkey, Hperm, (contains_generate_rate _ Hgen). simpl.
  by rewrite bind_run.
Qed.

(** ** The menu *)

Lemma try_except_logged (body : Sh unit) lvl fmt w :
  tame body ->
  exists w',
    try_except body (fun exc => logging lvl fmt [Exc exc]) w = (Returned tt, w').
Proof.
  intros Hb. unfold try_except.
  destruct (body w) as [[[]|exc] w1] eqn:Hbw; [by eexists|].
  destruct (Hb _ _ _ Hbw) as [_ Hne].
  destruct exc as [kind message|e|code]; [by eexists|by eexists|].
  by destruct (Hne code).
Qed.

Lemma option_1_returns w : exists w', option_1 w = (Returned tt, w').
Proof.
  apply try_except_logged. repeat tame_step. apply tame_run_full_pipeline.
Qed.

Lemma option_2_returns w : exists w', option_2 w = (Returned tt, w').
Proof.
  apply try_except_logged. repeat tame_step;
    auto using tame_apply_transformations, tame_generate_ai_analysis.
Qed.

Lemma option_3_returns w : exists w', option_3 w = (Returned tt, w').
Proof.
  apply try_except_logged. repeat tame_step;
    auto using tame_apply_transformations, tame_generate_ai_analysis,
      tame_export_pdf_report.
Qed.

Lemma print_menu_returns w : exists w', print_menu w = (Returned tt, w').
Proof. unfold print_menu. rewrite !bind_run. simpl. by eexists. Qed.

(** X29: cli_menu ends at the first line that is 4 once stripped: it
    prints "Exiting." and returns, and the lines after that one are left
    unread.  Whatever goes wrong in options 1 to 3 is logged and the menu
    is shown again.  When no line is 4, it reads all of them and
    [input] raises EOFError. *)
Theorem cli_menu_ends stdin w :
  exists w',
    cli_menu stdin w
    = match list_find (fun line => str_strip line = "4"%string) stdin with
      | Some (i, _) =>
          (Returned tt, (drop (S i) stdin, emit (Print "Exiting.") w'))
      | None =>
          (Raised (Error "EOFError" "EOF when reading a line"), ([], w'))
      end.
Proof.
  revert w. induction stdin as [|line stdin IH]; intros w.
  - destruct (print_menu_returns w) as [w1 Hm]. cbn [cli_menu]. rewrite Hm.
    by eexists.
  - destruct (print_menu_returns w) as [w1 Hm]. cbn [cli_menu list_find].
    rewrite Hm. destruct (String.eqb_spec (str_strip line) "4") as [Hq|Hq].
    + rewrite decide_True by done. simpl. by eexists.
    + rewrite decide_False by done.
      set (w2 := emit (Prompt "Select an option (1-4): ") w1).
      assert (Hturn : exists w3,
        (if String.eqb (str_strip line) "1" then option_1
         else if String.eqb (str_strip line) "2" then option_2
         else if String.eqb (str_strip line) "3" then option_3
         else print "Invalid choice. Please select 1-4.") w2 = (Returned tt, w3)).
      { destruct (String.eqb _ "1"); [apply option_1_returns|].
        destruct (String.eqb _ "2"); [apply option_2_returns|].
        destruct (String.eqb _ "3"); [apply option_3_returns|]. by eexists. }
      destruct Hturn as [w3 ->]. destruct (IH w3) as [w' ->].
      exists w'. by destruct (list_find _ stdin) as [[i x]|].
Qed.

(** ** The entry point *)

(** X30: in automatic mode the exit status tells whether the pipeline
    failed: main returns when run_full_pipeline returns, and when it
    raises, main logs the exception and exits with status 1.  The
    standard input is not read. *)
Theorem main_auto_exit_status argv stdin w w1 input o :
  (_ ← lib load_dotenv; setup_logging INFO) w = (Returned tt, w1) ->
  parse_args argv (out w1) = (Namespace input true, o) ->
  main argv stdin w
  = match run_full_pipeline input {| out := o; trace := trace w1 |} with
    | (Returned _, w2) => (Returned tt, (stdin, w2))
    | (Raised exc, w2) =>
        (Raised (SystemExit 1),
         (stdin, emit (Log ERROR "Automatic pipeline failed: %s" [Exc exc]) w2))
    end.
Proof.
  intros Hsetup Hargs. unfold main. rewrite Hsetup, Hargs.
  unfold try_except. rewrite bind_run.
  destruct (run_full_pipeline input _) as [[r|exc] w2] eqn:Hrun; [done|].
  destruct (tame_run_full_pipeline _ _ _ _ Hrun) as [_ Hne].
  destruct exc as [kind message|e|code]; [done|done|by destruct (Hne code)].
Qed.

(** ** The loader *)

(** X23: load_dataset reads the file with the reader of the type that
    [detect_file_type] returns, after the record "File loaded"; whatever
    the type, one of the three readers is called, so the last branch of
    load_dataset, which raises for an unsupported type, is never
    taken. *)
Theorem load_dataset_reader path ftype w :
  detect_file_type os path = Detected ftype ->
  exists reader,
    (ftype, reader) ∈ [("csv"%string, read_csv); ("excel"%string, read_excel);
                       ("json"%string, read_json)]
    /\ load_dataset path w
       = lib (reader path) (emit (Log INFO "File loaded: %s" [Str path]) w).
Proof.
  intros Hd. unfold load_dataset. rewrite bind_run. simpl. rewrite bind_run, Hd.
  simpl. revert Hd. unfold detect_file_type.
  destruct (String.eqb _ ".csv").
  { intros [= <-]. exists read_csv. split; [by left|done]. }
  destruct (existsb _ _).
  { intros [= <-]. exists read_excel. split; [right; by left|done]. }
  destruct (String.eqb _ ".json"); [|done].
  intros [= <-]. exists read_json. split; [right; right; by left|done].
Qed.

(** ** The log of a run *)

(** What a computation adds to the trace when it returns. *)
Definition on_return {A} (m : Sh A) (P : A -> list event -> Prop) : Prop :=
  forall w a w', m w = (Returned a, w') ->
    exists evs, trace w' = trace w ++ evs /\ P a evs.

Lemma on_return_ret {A} (a : A) :
  on_return (mret a : Sh A) (fun a' evs => a' = a /\ evs = []).
Proof. intros w a' w' [= <- <-]. exists []. by rewrite app_nil_r. Qed.

Lemma on_return_done {A} (a : A) :
  on_return (mret a : Sh A) (fun _ evs => evs = []).
Proof. intros w a' w' [= <- <-]. exists []. by rewrite app_nil_r. Qed.

Lemma on_return_after_quiet {A B} (m : Sh A) (f : A -> Sh B) P :
  quiet m -> (forall a, on_return (f a) P) -> on_return (m ≫= f) P.
Proof.
  intros Hm Hf w b w2 (a & w1 & Hmw & Hfw)%bind_Returned.
  destruct (Hf _ _ _ _ Hfw) as (evs & Ht & HP). exists evs.
  by rewrite Ht, (Hm _ _ _ Hmw).
Qed.

Lemma on_return_after_logging {B} lvl fmt args (f : unit -> Sh B) P :
  on_return (f tt) P ->
  on_return (logging lvl fmt args ≫= f)
    (fun b evs => exists rest, evs = Log lvl fmt args :: rest /\ P b rest).
Proof.
  intros Hf w b w2 (a & w1 & [= <- <-] & Hfw)%bind_Returned.
  destruct (Hf _ _ _ Hfw) as (evs & Ht & HP). exists (Log lvl fmt args :: evs).
  split; [|by exists evs]. rewrite Ht. simpl. by rewrite <-app_assoc.
Qed.

Lemma on_return_impl {A} (m : Sh A) (P Q : A -> list event -> Prop) :
  on_return m P -> (forall a evs, P a evs -> Q a evs) -> on_return m Q.
Proof.
  intros Hm HPQ w a w' Hr. destruct (Hm _ _ _ Hr) as (evs & Ht & HP).
  exists evs. split; [done|]. by apply HPQ.
Qed.

Lemma on_return_quiet {A} (m : Sh A) :
  quiet m -> on_return m (fun _ evs => evs = []).
Proof.
  intros Hm w a w' Hr. exists []. by rewrite app_nil_r, (Hm _ _ _ Hr).
Qed.

Lemma quiet_ret {A} (a : A) : quiet (mret a : Sh A).
Proof. by intros w r w' [= <- <-]. Qed.

Lemma quiet_lib {A} (call : library outside A) : quiet (lib call).
Proof. apply plain_quiet, plain_lib. Qed.

Lemma quiet_raise {A} e : quiet (raise e : Sh A).
Proof. by intros w r w' [= <- <-]. Qed.

Lemma quiet_os_path_exists path : quiet (os_path_exists path).
Proof. by intros w r w' [= <- <-]. Qed.

Ltac quiet_step :=
  lazymatch goal with
  | |- quiet (mbind _ _) => apply quiet_bind; [|intros ?]
  | |- quiet (mret _) => apply quiet_ret
  | |- quiet (lib _) => apply quiet_lib
  | |- quiet (stage _) => apply quiet_stage
  | |- quiet (raise _) => apply quiet_raise
  | |- quiet (os_path_exists _) => apply quiet_os_path_exists
  | |- quiet (match ?x with _ => _ end) => destruct x
  end.

Ltac quietly := repeat first [quiet_step | unfold cell_line, preview_of, chart_page].

Ltac log_step :=
  lazymatch goal with
  | |- on_return (mbind _ (logging _ _ _)) _ => apply on_return_after_logging
  | |- on_return (mbind _ _) _ => apply on_return_after_quiet; [by quietly|intros ?]
  | |- on_return (mret _) _ => apply on_return_ret
  end.

Lemma load_dataset_log path :
  on_return (load_dataset path)
    (fun _ evs => evs = [Log INFO "File loaded: %s" [Str path]]).
Proof.
  unfold load_dataset. eapply on_return_impl.
  - apply on_return_after_logging.
    apply (on_return_after_quiet _ _ (fun _ evs => evs = [])); [by quietly|].
    intros ftype. apply on_return_quiet. by quietly.
  - by intros a evs (rest & -> & ->).
Qed.

Lemma clean_dataset_log df :
  on_return (clean_dataset df)
    (fun _ evs => evs = [Log INFO "Cleaning started" [];
                         Log INFO "Cleaning complete" []]).
Proof.
  unfold clean_dataset. eapply on_return_impl.
  - apply on_return_after_logging. apply on_return_after_quiet; [by quietly|].
    intros r. apply on_return_after_logging. apply on_return_done.
  - by intros a evs (rest & -> & rest' & -> & ->).
Qed.

Lemma apply_transformations_log df summary :
  on_return (apply_transformations df summary)
    (fun _ evs => evs = [Log INFO "Transformations started" [];
                         Log INFO "Transformations complete" []]).
Proof.
  unfold apply_transformations. eapply on_return_impl.
  - apply on_return_after_logging. apply on_return_after_quiet; [by quietly|].
    intros [[with_total sorted] grouped]. apply on_return_after_logging.
    apply on_return_done.
  - by intros a evs (rest & -> & rest' & -> & ->).
Qed.

Lemma generate_bar_chart_log grouped chart_path top_n :
  on_return (generate_bar_chart grouped chart_path top_n)
    (fun r evs =>
       r = None
       /\ evs = [Log WARNING "Grouped data is empty; skipping chart generation" []]
       \/ r = Some chart_path
          /\ evs = [Log INFO "Visualization saved to %s" [Str chart_path]]).
Proof.
  unfold generate_bar_chart. destruct (empty grouped).
  - eapply on_return_impl.
    + apply on_return_after_logging. apply on_return_ret.
    + intros a evs (rest & -> & -> & ->). by left.
  - eapply on_return_impl.
    + repeat (apply on_return_after_quiet; [by quietly|intros ?]).
      apply on_return_after_logging. apply on_return_ret.
    + intros r evs (rest & -> & -> & ->). by right.
Qed.

Lemma export_pdf_report_log summary grouped ai_report chart_path output_path :
  on_return (export_pdf_report summary grouped ai_report chart_path output_path)
    (fun _ evs => evs = [Log INFO "PDF report exported to %s" [Str output_path]]).
Proof.
  unfold export_pdf_report. eapply on_return_impl.
  - repeat (apply on_return_after_quiet; [by quietly|intros ?]).
    apply on_return_after_logging. apply on_return_ret.
  - by intros r evs (rest & -> & _ & ->).
Qed.

Lemma request_log c prompt :
  on_return (request c prompt)
    (fun _ evs => evs = [] \/ exists fmt args, evs = [Log ERROR fmt args]).
Proof.
  intros w content w'. unfold request.
  destruct (ask c prompt (out w)) as [[content'|kind message] o].
  - intros [= <- <-]. exists []. split; [by rewrite app_nil_r|by left].
  - unfold describe_failure.
    repeat (destruct (_ || _);
            [rewrite bind_run; simpl; intros [= <- <-];
             eexists; split; [done|right; by eexists _, _]|]).
    rewrite bind_run. simpl. intros [= <- <-].
    eexists. split; [done|right; by eexists _, _].
Qed.

Lemma create_gemini_client_log :
  on_return create_gemini_client
    (fun made evs =>
       match made with
       | Some _ => evs = []
       | None => exists fmt args, evs = [Log ERROR fmt args]
       end).
Proof.
  intros w made w'. rewrite create_gemini_client_run.
  destruct genai as [new_client|].
  - destruct (api_key (out w)) as [[|c k]|].
    + intros [= <- <-]. eexists. split; [done|by eexists _, _].
    + destruct (new_client _ _) as [[made'|kind message] o]; intros [= <- <-].
      * exists []. by rewrite app_nil_r.
      * eexists. split; [done|by eexists _, _].
    + intros [= <- <-]. eexists. split; [done|by eexists _, _].
  - intros [= <- <-]. eexists. split; [done|by eexists _, _].
Qed.

Lemma generate_ai_analysis_log df grouped :
  on_return (generate_ai_analysis df grouped)
    (fun _ evs =>
       exists errors,
         evs = Log INFO "AI processing started" [] :: errors
         /\ (errors = [] \/ exists fmt args, errors = [Log ERROR fmt args])).
Proof.
  unfold generate_ai_analysis. apply on_return_after_logging.
  intros w content w2 (made & w1 & Hc & Hrest)%bind_Returned.
  destruct (create_gemini_client_log _ _ _ Hc) as (evs & Ht & Hevs).
  destruct made as [c|].
  - subst evs. apply bind_Returned in Hrest as (prompt & w1' & Hb & Hr).
    pose proof (plain_quiet _ (plain_build_ai_prompt df grouped) _ _ _ Hb) as Hq.
    destruct (request_log _ _ _ _ _ Hr) as (evs & Ht' & Hevs).
    exists evs. split; [|done]. by rewrite Ht', Hq, Ht, app_nil_r.
  - injection Hrest as <- <-. exists evs. split; [done|by right].
Qed.

(** X25: the log of a run of run_full_pipeline that returns: the seven
    records from "Starting full pipeline" to "Transformations complete",
    one record of the chart (a warning that there is nothing to draw, and
    then no chart path is returned, or "Visualization saved"),
    "AI processing started", at most one error of the AI report,
    "PDF report exported" and "Pipeline finished successfully", in this
    order and nothing else. *)
Theorem run_full_pipeline_log input_path w df_transformed grouped summary
    ai_report chart_path w' :
  run_full_pipeline input_path w
  = (Returned (df_transformed, grouped, summary, ai_report, chart_path), w') ->
  exists chart errors,
    trace w'
    = trace w
      ++ [Log INFO "Starting full pipeline" [];
          Log INFO "File loaded: %s" [Str input_path];
          Log INFO "Cleaning started" [];
          Log INFO "Cleaning complete" [];
          Log INFO "Cleaned data saved to %s" [Str CLEANED_OUTPUT_PATH];
          Log INFO "Transformations started" [];
          Log INFO "Transformations complete" [];
          chart;
          Log INFO "AI processing started" []]
      ++ errors
      ++ [Log INFO "PDF report exported to %s" [Str PDF_REPORT_PATH];
          Log INFO "Pipeline finished successfully" []]
    /\ (chart = Log WARNING "Grouped data is empty; skipping chart generation" []
        /\ chart_path = None
        \/ chart = Log INFO "Visualization saved to %s" [Str CHART_PATH]
           /\ chart_path = Some CHART_PATH)
    /\ (errors = [] \/ exists fmt args, errors = [Log ERROR fmt args]).
Proof.
  unfold run_full_pipeline. intros Hrun.
  apply bind_Returned in Hrun as ([] & w1 & [= <-] & Hrun).
  apply bind_Returned in Hrun as (found & w1' & [= <- <-] & Hrun).
  destruct (negb _); [done|].
  apply bind_Returned in Hrun as (df_raw & w2 & Hload & Hrun).
  apply bind_Returned in Hrun as ([df_clean summary0] & w3 & Hclean & Hrun).
  apply bind_Returned in Hrun as ([] & w4 & Hcsv & Hrun).
  apply bind_Returned in Hrun as ([] & w5 & [= <-] & Hrun).
  apply bind_Returned in Hrun
    as ([[[with_total sorted] g] summary1] & w6 & Htrans & Hrun).
  apply bind_Returned in Hrun as (cp & w7 & Hchart & Hrun).
  apply bind_Returned in Hrun as (ai & w8 & Hai & Hrun).
  apply bind_Returned in Hrun as (p & w9 & Hpdf & Hrun).
  apply bind_Returned in Hrun as ([] & w10 & [= <-] & Hrun).
  injection Hrun as <- <- <- <- <- <-.
  destruct (load_dataset_log _ _ _ _ Hload) as (e2 & H2 & ->).
  destruct (clean_dataset_log _ _ _ _ Hclean) as (e3 & H3 & ->).
  pose proof (quiet_lib _ _ _ _ Hcsv) as H4.
  destruct (apply_transformations_log _ _ _ _ _ Htrans) as (e6 & H6 & ->).
  destruct (generate_bar_chart_log _ _ _ _ _ _ Hchart) as (e7 & H7 & Hcp).
  destruct (generate_ai_analysis_log _ _ _ _ _ Hai) as (e8 & H8 & errors & -> & Herr).
  destruct (export_pdf_report_log _ _ _ _ _ _ _ _ Hpdf) as (e9 & H9 & ->).
  assert (Hone : exists chart, e7 = [chart]
            /\ (chart = Log WARNING "Grouped data is empty; skipping chart generation" []
                /\ cp = None
                \/ chart = Log INFO "Visualization saved to %s" [Str CHART_PATH]
                   /\ cp = Some CHART_PATH)).
  { destruct Hcp as [[-> ->]|[-> ->]]; eexists; (split; [done|]); [by left|by right]. }
  destruct Hone as (chart & -> & Hchart').
  exists chart, errors. split; [|done].
  unfold emit. simpl. rewrite H9, H8, H7, H6. simpl. rewrite H4, H3, H2. simpl.
  rewrite <-!app_assoc. done.
Qed.

End program.

(** ** Examples *)

(** A machine for the examples.  Its outside is the list of the files
    that exist; every reader returns the frame [frame]; the writers add
    their file; GEMINI_API_KEY is [key]; the markdown of a frame is
    [markdown] and a request to the model is answered by [reply]. *)
Definition machine (key : option string) (markdown reply : answer string)
    (frame : table) : System :=
  {| outside := list string;
     client := unit;
     response := string;
     os := Posix;
     path_exists := fun path o => bool_decide (path ∈ o);
     getenv := fun name o => if String.eqb name "GEMINI_API_KEY" then key else None;
     load_dotenv := fun o => (Fine tt, o);
     basicConfig := fun _ _ o => (Fine tt, o);
     parse_args := fun argv o =>
       (match argv with
        | Some ["--auto"; "--input"; path]%string => Namespace path true
        | Some ["--auto"]%string => Namespace "sample.csv" true
        | Some ["--input"; path]%string => Namespace path false
        | Some [] | None => Namespace "sample.csv" false
        | _ => Exits 2
        end, o);
     read_csv := fun _ o => (Fine frame, o);
     read_excel := fun _ o => (Fine frame, o);
     read_json := fun _ o => (Fine frame, o);
     to_csv := fun _ path o => (Fine tt, path :: o);
     to_markdown := fun _ o => (markdown, o);
     describe_to_markdown := fun _ o => (markdown, o);
     to_string := fun _ o => (Fine ""%string, o);
     astype_str := fun d => d;
     order_desc := fun s => seq 0 (size s);
     title := fun s => s;
     plt := fun _ _ o => (Fine tt, o);
     fpdf := fun _ _ o => (Fine tt, o);
     genai := Some (fun _ o => (Fine tt, o));
     generate_content := fun _ _ _ o => (reply, o);
     getattr_text := fun _ o => (Fine NotCallable, o);
     str_response := fun r o => (Fine r, o) |}.

Definition one_sale : table :=
  {| nrows := 1; columns := [("product", Textual [Some "Pen"])]%string |}.

Definition quiet_desk : System :=
  machine None (Fine ""%string) (Fine ""%string) one_sale.

#[global] Instance level_eq_dec : EqDecision level.
Proof. solve_decision. Defined.
#[global] Instance exception_eq_dec : EqDecision exception.
Proof. solve_decision. Defined.
#[global] Instance arg_eq_dec : EqDecision arg.
Proof. solve_decision. Defined.
#[global] Instance event_eq_dec : EqDecision event.
Proof. solve_decision. Defined.
#[global] Instance outcome_eq_dec {A} `{EqDecision A} : EqDecision (outcome A).
Proof. solve_decision. Defined.

Definition sold : table :=
  {| nrows := 1;
     columns := [("product", Textual [Some "pen"]);
                 ("total", Numeric [Some 1%Qc])]%string |}.

Definition sold_by_product : table :=
  {| nrows := 1;
     columns := [("product", Textual [Some "pen"]);
                 ("total_sales", Numeric [Some 1%Qc]);
                 ("avg_total", Numeric [Some 1%Qc]);
                 ("count_rows", Numeric [Some 1%Qc])]%string |}.

Definition no_tabulate : System :=
  machine (Some "secret"%string)
    (Failed "ImportError" "Missing optional dependency 'tabulate'.")
    (Fine ""%string) one_sale.

Definition unknown_model : System :=
  machine (Some "secret"%string) (Fine "| product |"%string)
    (Failed "ClientError"
       "404 NOT_FOUND. models/gemini-2.0-flash is not found for API version v1beta, or is not supported for generateContent.")
    one_sale.

Lemma pair_eq {A B} (x : A * B) a b : x.1 = a -> x.2 = b -> x = (a, b).
Proof. destruct x. simpl. by intros -> ->. Qed.

Lemma run_full_pipeline_refuses_witness :
  run_full_pipeline (H:=stable_pandas) (H0:=quiet_desk) "sample.csv"
    (State (H0:=quiet_desk) [] [])
  = (Raised (Error "FileNotFoundError" "Input file not found: sample.csv"),
     State (H0:=quiet_desk) [] [Log INFO "Starting full pipeline" []])
  /\ run_full_pipeline (H:=stable_pandas) (H0:=quiet_desk) "notes.txt"
       (State (H0:=quiet_desk) ["notes.txt"%string] [])
     = (Raised (Error "ValueError" "Unsupported file type: .txt"),
        State (H0:=quiet_desk) ["notes.txt"%string]
          [Log INFO "Starting full pipeline" [];
           Log INFO "File loaded: %s" [Str "notes.txt"]]).
Proof.
  split.
  - apply (proj1 (run_full_pipeline_refuses (H:=stable_pandas) (H0:=quiet_desk)
                    "sample.csv" (State (H0:=quiet_desk) [] []))).
    reflexivity.
  - apply (proj2 (run_full_pipeline_refuses (H:=stable_pandas) (H0:=quiet_desk)
                    "notes.txt" (State (H0:=quiet_desk) ["notes.txt"%string] []))).
    + reflexivity.
    + reflexivity.
Defined.

Lemma generate_ai_analysis_without_key_witness :
  exists message,
    generate_ai_analysis (H0:=quiet_desk) one_sale one_sale
      (State (H0:=quiet_desk) [] [])
    = (Returned unavailable,
       State (H0:=quiet_desk) []
         [Log INFO "AI processing started" []; Log ERROR message []]).
Proof.
  apply (generate_ai_analysis_without_key (H0:=quiet_desk) one_sale one_sale
           (State (H0:=quiet_desk) [] [])).
  right. reflexivity.
Defined.

Lemma generate_ai_analysis_raises_witness :
  generate_ai_analysis (H0:=no_tabulate) one_sale one_sale
    (State (H0:=no_tabulate) [] [])
  = (Raised (Error "ImportError" "Missing optional dependency 'tabulate'."),
     State (H0:=no_tabulate) [] [Log INFO "AI processing started" []])
  /\ exists (made : @client no_tabulate) (w1 : @state no_tabulate),
       create_gemini_client (H0:=no_tabulate)
         (State (H0:=no_tabulate) [] [Log INFO "AI processing started" []])
       = (Returned (Some made), w1)
       /\ build_ai_prompt (H0:=no_tabulate) one_sale one_sale w1
          = (Raised (Error "ImportError" "Missing optional dependency 'tabulate'."),
             State (H0:=no_tabulate) [] [Log INFO "AI processing started" []]).
Proof.
  assert (Hr : generate_ai_analysis (H0:=no_tabulate) one_sale one_sale
                 (State (H0:=no_tabulate) [] [])
               = (Raised (Error "ImportError" "Missing optional dependency 'tabulate'."),
                  State (H0:=no_tabulate) [] [Log INFO "AI processing started" []]))
    by reflexivity.
  split; [exact Hr|].
  destruct (generate_ai_analysis_raises (H0:=no_tabulate) _ _ _ _ _ Hr)
    as (made & w1 & Hc & Hb & _).
  by exists made, w1.
Defined.

Lemma generate_ai_analysis_takes_generate_for_rate_witness :
  generate_ai_analysis (H0:=unknown_model) one_sale one_sale
    (State (H0:=unknown_model) [] [])
  = (Returned "AI rate limit or quota reached. Please retry later."%string,
     State (H0:=unknown_model) []
       [Log INFO "AI processing started" [];
        Log ERROR "Gemini rate limit: %s"
          [Exc (Error "ClientError"
                  "404 NOT_FOUND. models/gemini-2.0-flash is not found for API version v1beta, or is not supported for generateContent.")]]).
Proof.
  etrans.
  - eapply (generate_ai_analysis_takes_generate_for_rate (H0:=unknown_model)
              one_sale one_sale (State (H0:=unknown_model) [] [])); reflexivity.
  - reflexivity.
Defined.

Lemma main_auto_exit_status_witness :
  main (H:=stable_pandas) (H0:=quiet_desk) (Some ["--auto"%string])
    ["1"; "4"]%string (State (H0:=quiet_desk) [] [])
  = (Raised (SystemExit 1),
     (["1"; "4"]%string,
      State (H0:=quiet_desk) []
        [Log INFO "Starting full pipeline" [];
         Log ERROR "Automatic pipeline failed: %s"
           [Exc (Error "FileNotFoundError" "Input file not found: sample.csv")]])).
Proof.
  rewrite (main_auto_exit_status (H:=stable_pandas) (H0:=quiet_desk)
             (Some ["--auto"%string]) ["1"; "4"]%string
             (State (H0:=quiet_desk) [] []) (State (H0:=quiet_desk) [] [])
             "sample.csv" []); reflexivity.
Defined.

Lemma load_dataset_reader_witness :
  exists reader,
    (("csv"%string, reader) : string * (string -> library (list string) table))
      ∈ [("csv"%string, read_csv (System:=quiet_desk));
         ("excel"%string, read_excel (System:=quiet_desk));
         ("json"%string, read_json (System:=quiet_desk))]
    /\ load_dataset (H0:=quiet_desk) "Sample.CSV" (State (H0:=quiet_desk) [] [])
       = lib (H0:=quiet_desk) (reader "Sample.CSV"%string)
           (State (H0:=quiet_desk) [] [Log INFO "File loaded: %s" [Str "Sample.CSV"]]).
Proof.
  apply (load_dataset_reader (H0:=quiet_desk) "Sample.CSV" "csv"
           (State (H0:=quiet_desk) [] [])).
  reflexivity.
Defined.

Lemma run_full_pipeline_returns_on_desk :
  run_full_pipeline (H:=stable_pandas) (H0:=quiet_desk) "sample.csv"
    (State (H0:=quiet_desk) ["sample.csv"%string] [])
  = (Returned (sold, sold_by_product, Summary 1 1 1 0 0 0 0, unavailable,
               Some "top_products.png"%string),
     State (H0:=quiet_desk) ["cleaned_output.csv"; "sample.csv"]%string
       [Log INFO "Starting full pipeline" [];
        Log INFO "File loaded: %s" [Str "sample.csv"];
        Log INFO "Cleaning started" []; Log INFO "Cleaning complete" [];
        Log INFO "Cleaned data saved to %s" [Str "cleaned_output.csv"];
        Log INFO "Transformations started" [];
        Log INFO "Transformations complete" [];
        Log INFO "Visualization saved to %s" [Str "top_products.png"];
        Log INFO "AI processing started" [];
        Log ERROR
          "GEMINI_API_KEY or GOOGLE_API_KEY not found in environment. Check your .env file."
          [];
        Log INFO "PDF report exported to %s" [Str "report.pdf"];
        Log INFO "Pipeline finished successfully" []]).
Proof.
  apply pair_eq.
  - apply (bool_decide_unpack _). by vm_compute.
  - by vm_compute.
Qed.

Lemma run_full_pipeline_log_witness :
  exists (w' : @state quiet_desk) chart errors,
    run_full_pipeline (H:=stable_pandas) (H0:=quiet_desk) "sample.csv"
      (State (H0:=quiet_desk) ["sample.csv"%string] [])
    = (Returned (sold, sold_by_product, Summary 1 1 1 0 0 0 0, unavailable,
                 Some "top_products.png"%string), w')
    /\ trace w'
       = [Log INFO "Starting full pipeline" [];
          Log INFO "File loaded: %s" [Str "sample.csv"];
          Log INFO "Cleaning started" [];
          Log INFO "Cleaning complete" [];
          Log INFO "Cleaned data saved to %s" [Str "cleaned_output.csv"];
          Log INFO "Transformations started" [];
          Log INFO "Transformations complete" [];
          chart;
          Log INFO "AI processing started" []]
         ++ errors
         ++ [Log INFO "PDF report exported to %s" [Str "report.pdf"];
             Log INFO "Pipeline finished successfully" []].
Proof.
  destruct (run_full_pipeline_log (H:=stable_pandas) (H0:=quiet_desk) _ _ _ _ _ _ _ _
              run_full_pipeline_returns_on_desk)
    as (chart & errors & Ht & _).
  eexists _, chart, errors. split; [exact run_full_pipeline_returns_on_desk|].
  exact Ht.
Defined.
